(** * Incremental-analysis tools of cipher: a shallow embedding

    The development follows the four TypeScript modules of
    [src/core/brain/tools/definitions/incremental]:

    - [types.ts]: the data model;
    - [envelope-tools.ts]: [computeMixedTrustScore], [snapshotCreateTool],
      [snapshotMergeTool];
    - the delta and graph tools: [graphUpdateTool], [graphPropagateTool];
    - the relocation and branch tools: [findingRelocateTool],
      [branchManageTool].

    Conventions of the embedding.

    - A JavaScript [number] that holds a count is a [nat]; one that holds a
      timestamp or a storage id is a [Z]; one that holds a score, a weight or
      a confidence is an exact rational [Q].  IEEE-754 rounding of the
      double-precision operations is not modelled.
    - A handler is [async] and wrapped in [try { ... } catch]: it becomes a
      function from its arguments, the tool context, the readings of the
      clock and of [Math.random] it consumes, and the state of the vector
      store, to a response and a new state.  An exception thrown by a
      collaborator is the [Throw] outcome; the handler's [catch] turns it
      into its failure response.
    - A JavaScript object used as a map ([Record<string, T>]) is the list of
      its own properties in the order [Object.keys] enumerates them; a [Set]
      is the list of its elements in insertion order.
    - Calls of the logger and the [processingTime] field of the responses
      are left out. *)

From Stdlib Require Import String Ascii List Bool Arith ZArith QArith Qround Lia Lqa.
From Stdlib Require Import Permutation.
Import ListNotations.

Local Open Scope string_scope.
Local Open Scope list_scope.

(** String concatenation, as in a template literal. *)
Infix "+++" := String.append (at level 60, right associativity).

(** ** JavaScript helpers *)

(** [Math.round]: nearest integer, ties towards plus infinity. *)
Definition Math_round (x : Q) : Z := Qfloor (x + (1 # 2)).

Definition Q_of_nat (n : nat) : Q := inject_Z (Z.of_nat n).

(** [a === b] on strings. *)
Definition str_eq (a b : string) : bool := String.eqb a b.

(** Truthiness of a string: the empty string is falsy. *)
Definition truthy (s : string) : bool := negb (String.eqb s "").

(** [s.slice(0, n)]. *)
Definition slice0 (n : nat) (s : string) : string := String.substring 0 n s.

(** [parts.join(sep)]. *)
Definition join (sep : string) (parts : list string) : string :=
  String.concat sep parts.

(** A [Set<string>] in insertion order. *)
Definition StrSet := list string.

Definition set_has (s : StrSet) (x : string) : bool :=
  existsb (String.eqb x) s.

Definition set_add (s : StrSet) (x : string) : StrSet :=
  if set_has s x then s else s ++ [x].

(** ** Data model ([types.ts]) *)

Inductive ConfidenceLevel := HIGH | MEDIUM | LOW.

Inductive WorkflowGoal := AUDIT | DOCUMENT | BUILD_FRONTEND.

Inductive AnalysisMode := FULL | INCREMENTAL | REBASE.

Record TrustComponents := {
  coverage : Q;
  freshness : Q;
  confidence : Q
}.

Record TrustScore := {
  overall : Q;
  level : ConfidenceLevel;
  components : TrustComponents
}.

Inductive RelocationStatus := PRESERVED | RELOCATED | STALE | ORPHANED.

Inductive RelocationMethod :=
| EXACT_MATCH | LINE_DRIFT | SEMANTIC_SAME_FILE | SEMANTIC_OTHER_FILE
| HASH_GLOBAL_SEARCH | FUZZY_CONTEXT | FILE_DELETED | CONTENT_CHANGED.

Inductive RelocationStrategy := EXACT | DRIFT | SEMANTIC | HASH_GLOBAL | FUZZY.

Record FindingLocation := {
  file_path : string;
  line_start : nat;
  line_end : nat
}.

(** One entry of [strategies_tried]. *)
Record StrategyTried := {
  st_strategy : RelocationStrategy;
  st_result : string;
  st_confidence : Q
}.

Record RelocationResult := {
  status : RelocationStatus;
  new_location : option FindingLocation;
  method : RelocationMethod;
  rr_confidence : Q;
  strategies_tried : list StrategyTried
}.

Inductive GraphNodeType := CODE | FINDING | SEMANTIC_NODE | CHUNK.

Inductive GraphEdgeType :=
| IMPORTS | EVIDENCES | BELONGS_TO | SIMILAR_TO | CONTAINS | CALLS | EXTENDS
| IMPLEMENTS.

(** [properties] is an arbitrary JSON object; the tools only read its
    [JSON.stringify] rendering, which is what the field holds. *)
Record GraphNode := {
  node_id : string;
  node_type : GraphNodeType;
  properties : string
}.

Record GraphEdge := {
  source : string;
  target : string;
  edge_type : GraphEdgeType;
  weight : option Q;
  edge_confidence : option Q;
  primary : option bool
}.

Record CascadeChain := {
  source_chunk : string;
  affected_chunk : string;
  path : list string;
  chain_edge_types : list GraphEdgeType;
  depth : nat
}.

Record AnalysisBranch := {
  branch_id : string;
  git_branch : string;
  base_git_branch : string;
  fork_point_commit : string;
  snapshots : list string;
  branch_created_at : string;
  branch_updated_at : string
}.

Inductive ChunkStatus := ANALYZED | SKIPPED | PENDING.

Record ChunkEntry := {
  files : list string;
  chunk_status : ChunkStatus;
  fingerprint : string
}.

Definition ChunkManifest := list (string * ChunkEntry).

Record Snapshot := {
  snapshot_id : string;
  snap_project_path : string;
  git_commit : string;
  snap_git_branch : string;
  workflow_id : string;
  workflow_goal : WorkflowGoal;
  analysis_mode : AnalysisMode;
  baseline_snapshot_id : option string;
  chunk_manifest : ChunkManifest;
  findings : list string;
  trust_score : TrustScore;
  duration_seconds : Z;
  created_at : string;
  provenance_chain : list string
}.

Inductive ConflictStrategy := PREFER_NEW | PREFER_BASELINE | KEEP_BOTH.

Record MergeResult := {
  mr_snapshot_id : string;
  findings_preserved : nat;
  findings_relocated : nat;
  findings_new : nat;
  findings_stale : nat;
  findings_orphaned : nat;
  conflicts_resolved : nat;
  mr_trust_score : TrustScore
}.

(** ** Trust score ([envelope-tools.ts], [computeMixedTrustScore]) *)

Definition level_of (overall : Q) : ConfidenceLevel :=
  if Qle_bool 8 overall then HIGH
  else if Qle_bool 5 overall then MEDIUM else LOW.

Definition computeMixedTrustScore
  (preserved relocated stale orphaned newFindings : nat) : TrustScore :=
  let total := (preserved + relocated + stale + orphaned + newFindings)%nat in
  if Nat.eqb total 0 then
    {| overall := 10; level := HIGH;
       components := {| coverage := 1; freshness := 1; confidence := 1 |} |}
  else
    let coverage :=
      Q_of_nat (preserved + relocated + newFindings) / Q_of_nat total in
    let freshness := if Nat.ltb 0 newFindings then 9 # 10 else 7 # 10 in
    let confidence := 1 - Q_of_nat (stale + orphaned) / Q_of_nat total in
    let overall :=
      inject_Z (Math_round
        ((coverage * (4 # 10) + freshness * (3 # 10) + confidence * (3 # 10))
           * 10 * 10)) / 10 in
    {| overall := overall;
       level := level_of overall;
       components := {| coverage := coverage; freshness := freshness;
                        confidence := confidence |} |}.







(** ** Collaborators: the similarity index and the embedder

    The vector store and the embedder are objects reached through the tool
    context.  Their code is not part of the incremental tools; they are
    modelled at the interface the tools use. *)

Inductive outcome (A : Type) : Type :=
| Ok (a : A)
| Throw (msg : string).
Arguments Ok {A} a.
Arguments Throw {A} msg.

Definition Vector := list Q.

(** What a stored payload carries besides its header fields. *)
Inductive Body :=
| NodeBody (n : GraphNode)
| EdgeBody (e : GraphEdge) (edge_id : string)
| BranchBody (b : AnalysisBranch)
| SnapshotBody (s : Snapshot)
| EnvelopeBody (envelope_id : string).

Record Payload := {
  memoryType : string;
  recordType : option string;
  project_path : option string;
  commit : option string;
  text : option string;
  version : nat;
  vector_id : Z;
  body : Body
}.

(** The store is addressed by numbers on [insert] and by whatever the caller
    passes on [delete]; the tools pass strings there. *)
Inductive Key := KNum (n : Z) | KStr (s : string).

Definition key_eqb (a b : Key) : bool :=
  match a, b with
  | KNum x, KNum y => Z.eqb x y
  | KStr x, KStr y => String.eqb x y
  | _, _ => false
  end.

Record Entry := {
  entry_key : Key;
  entry_vector : Vector;
  entry_payload : Payload
}.

Definition StoreState := list Entry.

(** A search result.  The tools read [r.payload || r]: a result that carries
    its fields inline is its own payload. *)
Record Hit := {
  hit_score : Q;
  hit_payload : Payload
}.

(** Modelled from the spec: the similarity index is a key-value store with
    similarity search ([insert(vectors, ids, payloads)], [delete(id)]).  The
    implementation of the store is missing from the sources; an insert under
    a key already present replaces that entry, a delete removes the entry
    stored under the key. *)
Definition kv_delete (k : Key) (st : StoreState) : StoreState :=
  filter (fun e => negb (key_eqb (entry_key e) k)) st.

Definition kv_insert (v : Vector) (id : Z) (p : Payload) (st : StoreState)
  : StoreState :=
  kv_delete (KNum id) st
    ++ [{| entry_key := KNum id; entry_vector := v; entry_payload := p |}].

Record VectorStore := {
  search : StoreState -> Vector -> nat -> outcome (list Hit)
}.

Record VectorStoreManager := {
  getStore_knowledge : outcome (option VectorStore);
  getStore_default : outcome (option VectorStore)
}.

Record Embedder := {
  embed : string -> outcome Vector
}.

Record EmbeddingManager := {
  getEmbedder_default : option Embedder
}.

(** [context?.services]: an absent context or an absent [services] field
    gives both managers as [None]. *)
Record InternalToolContext := {
  vectorStoreManager : option VectorStoreManager;
  embeddingManager : option EmbeddingManager
}.

(** ** A state and exception monad for the handlers *)

Definition M (A : Type) : Type := StoreState -> outcome A * StoreState.

Definition ret {A} (a : A) : M A := fun st => (Ok a, st).

Definition bind {A B} (c : M A) (k : A -> M B) : M B :=
  fun st =>
    match c st with
    | (Ok a, st') => k a st'
    | (Throw msg, st') => (Throw msg, st')
    end.

Definition lift {A} (o : outcome A) : M A := fun st => (o, st).

Definition store_search (s : VectorStore) (v : Vector) (k : nat)
  : M (list Hit) :=
  fun st => (search s st v k, st).

Definition store_insert (v : Vector) (id : Z) (p : Payload) : M unit :=
  fun st => (Ok tt, kv_insert v id p st).

Definition store_delete (k : Key) : M unit :=
  fun st => (Ok tt, kv_delete k st).

Declare Scope handler_scope.
Delimit Scope handler_scope with handler.
Notation "x <- c ;; k" := (bind c (fun x => k))
  (at level 61, c at next level, right associativity) : handler_scope.
Notation "c ;;; k" := (bind c (fun _ => k))
  (at level 61, right associativity) : handler_scope.

(** [try { body } catch (error) { return on_error(message) }]. *)
Definition try_catch {R} (body : M R) (on_error : string -> R)
  : StoreState -> R * StoreState :=
  fun st =>
    match body st with
    | (Ok r, st') => (r, st')
    | (Throw msg, st') => (on_error msg, st')
    end.

(** [try { store = m.getStore('knowledge') } catch { store = m.getStore() }]. *)
Definition knowledge_store (m : VectorStoreManager)
  : outcome (option VectorStore) :=
  match getStore_knowledge m with
  | Ok s => Ok s
  | Throw _ => getStore_default m
  end.

(** The same lookup guarded by [if (vectorStoreManager)]. *)
Definition knowledge_store_opt (m : option VectorStoreManager)
  : outcome (option VectorStore) :=
  match m with
  | Some m => knowledge_store m
  | None => Ok None
  end.

(** [embeddingManager?.getEmbedder('default')]. *)
Definition default_embedder (m : option EmbeddingManager) : option Embedder :=
  match m with
  | Some m => getEmbedder_default m
  | None => None
  end.

(** [generateNumericVectorId(index)]: [timestamp] is the reading of
    [Date.now()], [randomSuffix] that of [Math.floor(Math.random() * 1000)]. *)
Definition generateNumericVectorId (timestamp randomSuffix index : Z) : Z :=
  (timestamp * 1000 + randomSuffix + index)%Z.

(** ** JavaScript objects used as maps *)

Definition JsObject (V : Type) := list (string * V).

Definition Object_keys {V} (o : JsObject V) : list string := map fst o.

Definition Object_values {V} (o : JsObject V) : list V := map snd o.

(** [o[k]], [None] standing for [undefined]. *)
Fixpoint obj_get {V} (o : JsObject V) (k : string) : option V :=
  match o with
  | [] => None
  | (k', v) :: rest => if String.eqb k' k then Some v else obj_get rest k
  end.

(** ** Snapshot tools ([envelope-tools.ts]) *)

(** [s.replace(/[-:T]/g, '')]. *)
Fixpoint strip_date_marks (s : string) : string :=
  match s with
  | EmptyString => EmptyString
  | String c rest =>
      if (Ascii.eqb c "-" || Ascii.eqb c ":" || Ascii.eqb c "T")%bool
      then strip_date_marks rest
      else String c (strip_date_marks rest)
  end.

(** [generateSnapshotId(commit)]; [iso] is the reading of
    [new Date().toISOString()]. *)
Definition generateSnapshotId (iso commit : string) : string :=
  "snap-" +++ slice0 14 (strip_date_marks iso) +++ "-" +++ slice0 7 commit.

Definition workflow_goal_name (g : WorkflowGoal) : string :=
  match g with
  | AUDIT => "AUDIT" | DOCUMENT => "DOCUMENT"
  | BUILD_FRONTEND => "BUILD_FRONTEND"
  end.

Definition analysis_mode_name (m : AnalysisMode) : string :=
  match m with
  | FULL => "FULL" | INCREMENTAL => "INCREMENTAL" | REBASE => "REBASE"
  end.

Definition buildSnapshotSearchText (s : Snapshot) : string :=
  let parts := [] in
  let parts := if truthy (snap_project_path s)
               then parts ++ ["project:" +++ snap_project_path s] else parts in
  let parts := if truthy (snap_git_branch s)
               then parts ++ ["branch:" +++ snap_git_branch s] else parts in
  let parts := parts ++ ["goal:" +++ workflow_goal_name (workflow_goal s)] in
  let parts := parts ++ ["mode:" +++ analysis_mode_name (analysis_mode s)] in
  let parts := if truthy (git_commit s)
               then parts ++ ["commit:" +++ slice0 12 (git_commit s)]
               else parts in
  join " " parts.

Definition snapshot_payload (s : Snapshot) (searchText : string) (vectorId : Z)
  : Payload :=
  {| memoryType := "snapshot";
     recordType := None;
     project_path := Some (snap_project_path s);
     commit := None;
     text := Some searchText;
     version := 2;
     vector_id := vectorId;
     body := SnapshotBody s |}.

Record SnapshotCreateParams := {
  scp_project_path : string;
  scp_git_commit : string;
  scp_git_branch : string;
  scp_workflow_id : string;
  scp_workflow_goal : WorkflowGoal;
  scp_analysis_mode : AnalysisMode;
  scp_baseline_snapshot_id : option string;
  scp_chunk_manifest : ChunkManifest;
  scp_findings : list string;
  scp_trust_score : TrustScore;
  scp_duration_seconds : option Z
}.

Record SnapshotCreateResponse := {
  scr_success : bool;
  scr_error : option string;
  scr_snapshot_id : option string;
  scr_snapshot : option Snapshot;
  scr_stored : bool;
  scr_warning : option string;
  scr_storage_path : option string
}.

(** Clock and random readings a snapshot handler consumes, in the order of
    the calls. *)
Record SnapshotReadings := {
  rd_start : Z;            (* Date.now() on entry *)
  rd_id_date : string;     (* new Date() inside generateSnapshotId *)
  rd_created_at : string;  (* new Date().toISOString() *)
  rd_duration_now : Z;     (* Date.now() for duration_seconds *)
  rd_vector_now : Z;       (* Date.now() inside generateNumericVectorId *)
  rd_vector_random : Z     (* Math.floor(Math.random() * 1000) *)
}.

(** [if (args.baseline_snapshot_id) provenanceChain.push(...)]: an absent or
    empty baseline id pushes nothing. *)
Definition create_provenance_chain (baseline : option string)
  (snapshotId : string) : list string :=
  let provenanceChain := [] in
  let provenanceChain :=
    match baseline with
    | Some b => if truthy b then provenanceChain ++ [b] else provenanceChain
    | None => provenanceChain
    end in
  provenanceChain ++ [snapshotId].

Definition create_snapshot_record (args : SnapshotCreateParams)
  (rd : SnapshotReadings) : Snapshot :=
  let snapshotId := generateSnapshotId (rd_id_date rd) (scp_git_commit args) in
  {| snapshot_id := snapshotId;
     snap_project_path := scp_project_path args;
     git_commit := scp_git_commit args;
     snap_git_branch := scp_git_branch args;
     workflow_id := scp_workflow_id args;
     workflow_goal := scp_workflow_goal args;
     analysis_mode := scp_analysis_mode args;
     baseline_snapshot_id := scp_baseline_snapshot_id args;
     chunk_manifest := scp_chunk_manifest args;
     findings := scp_findings args;
     trust_score := scp_trust_score args;
     duration_seconds :=
       match scp_duration_seconds args with Some d => d | None => 0%Z end;
     created_at := rd_created_at rd;
     provenance_chain :=
       create_provenance_chain (scp_baseline_snapshot_id args) snapshotId |}.

Definition created_unstored (s : Snapshot) (warning : string)
  : SnapshotCreateResponse :=
  {| scr_success := true; scr_error := None;
     scr_snapshot_id := Some (snapshot_id s); scr_snapshot := Some s;
     scr_stored := false; scr_warning := Some warning;
     scr_storage_path := None |}.

Definition create_failure (msg : string) : SnapshotCreateResponse :=
  {| scr_success := false; scr_error := Some msg;
     scr_snapshot_id := None; scr_snapshot := None;
     scr_stored := false; scr_warning := None; scr_storage_path := None |}.

Local Open Scope handler_scope.

Definition snapshotCreate_body (args : SnapshotCreateParams)
  (context : InternalToolContext) (rd : SnapshotReadings)
  : M SnapshotCreateResponse :=
  let snapshot := create_snapshot_record args rd in
  let searchText := buildSnapshotSearchText snapshot in
  match vectorStoreManager context, embeddingManager context with
  | Some vsm, Some em =>
      store <- lift (knowledge_store vsm) ;;
      match store with
      | None => ret (create_failure "Vector store not available")
      | Some _ =>
          match getEmbedder_default em with
          | None =>
              ret (created_unstored snapshot
                     "Created without vector storage (no embedder)")
          | Some embedder =>
              embedding <- lift (embed embedder searchText) ;;
              let vectorId :=
                generateNumericVectorId (rd_vector_now rd)
                  (rd_vector_random rd) 0 in
              store_insert embedding vectorId
                (snapshot_payload snapshot searchText vectorId) ;;;
              ret {| scr_success := true; scr_error := None;
                     scr_snapshot_id := Some (snapshot_id snapshot);
                     scr_snapshot := Some snapshot;
                     scr_stored := true; scr_warning := None;
                     scr_storage_path :=
                       Some ("cipher_snapshots/" +++ snapshot_id snapshot) |}
          end
      end
  | _, _ =>
      ret (created_unstored snapshot
             "Created without vector storage (services unavailable)")
  end.

Definition snapshotCreate (args : SnapshotCreateParams)
  (context : InternalToolContext) (rd : SnapshotReadings)
  : StoreState -> SnapshotCreateResponse * StoreState :=
  try_catch (snapshotCreate_body args context rd) create_failure.

Record SnapshotMergeParams := {
  smp_baseline_snapshot_id : string;
  smp_delta_envelope_ids : list string;
  smp_relocation_results : JsObject RelocationResult;
  smp_target_commit : string;
  smp_project_path : string;
  smp_conflict_strategy : option ConflictStrategy;
  smp_workflow_id : string;
  smp_workflow_goal : WorkflowGoal
}.

Record SnapshotMergeResponse := {
  smr_success : bool;
  smr_error : option string;
  smr_result : option MergeResult
}.

Definition merge_failure (msg : string) : SnapshotMergeResponse :=
  {| smr_success := false; smr_error := Some msg; smr_result := None |}.

(** The four counters of the merge loop. *)
Record StatusCounts := {
  n_preserved : nat;
  n_relocated : nat;
  n_stale : nat;
  n_orphaned : nat
}.

(** One iteration of [for (const result of Object.values(...)) switch
    (result.status)]. *)
Definition count_status (c : StatusCounts) (result : RelocationResult)
  : StatusCounts :=
  match status result with
  | PRESERVED =>
      {| n_preserved := S (n_preserved c); n_relocated := n_relocated c;
         n_stale := n_stale c; n_orphaned := n_orphaned c |}
  | RELOCATED =>
      {| n_preserved := n_preserved c; n_relocated := S (n_relocated c);
         n_stale := n_stale c; n_orphaned := n_orphaned c |}
  | STALE =>
      {| n_preserved := n_preserved c; n_relocated := n_relocated c;
         n_stale := S (n_stale c); n_orphaned := n_orphaned c |}
  | ORPHANED =>
      {| n_preserved := n_preserved c; n_relocated := n_relocated c;
         n_stale := n_stale c; n_orphaned := S (n_orphaned c) |}
  end.

Definition count_statuses (results : list RelocationResult) : StatusCounts :=
  fold_left count_status results
    {| n_preserved := 0; n_relocated := 0; n_stale := 0; n_orphaned := 0 |}.

(** [status === 'PRESERVED' || status === 'RELOCATED'] on
    [relocationResults[id]?.status]. *)
Definition survives (r : option RelocationResult) : bool :=
  match r with
  | Some r =>
      match status r with
      | PRESERVED | RELOCATED => true
      | STALE | ORPHANED => false
      end
  | None => false
  end.

Definition allFindings (relocationResults : JsObject RelocationResult)
  (delta_envelope_ids : list string) : list string :=
  filter (fun id => survives (obj_get relocationResults id))
         (Object_keys relocationResults)
  ++ delta_envelope_ids.

Definition merge_snapshot_record (args : SnapshotMergeParams)
  (rd : SnapshotReadings) : Snapshot :=
  let relocationResults := smp_relocation_results args in
  let c := count_statuses (Object_values relocationResults) in
  let newFindings := length (smp_delta_envelope_ids args) in
  let trustScore :=
    computeMixedTrustScore (n_preserved c) (n_relocated c) (n_stale c)
      (n_orphaned c) newFindings in
  let snapshotId :=
    generateSnapshotId (rd_id_date rd) (smp_target_commit args) in
  {| snapshot_id := snapshotId;
     snap_project_path := smp_project_path args;
     git_commit := smp_target_commit args;
     snap_git_branch := "";
     workflow_id := smp_workflow_id args;
     workflow_goal := smp_workflow_goal args;
     analysis_mode := INCREMENTAL;
     baseline_snapshot_id := Some (smp_baseline_snapshot_id args);
     chunk_manifest := [];
     findings := allFindings relocationResults (smp_delta_envelope_ids args);
     trust_score := trustScore;
     duration_seconds :=
       Math_round (inject_Z (rd_duration_now rd - rd_start rd) / 1000);
     created_at := rd_created_at rd;
     provenance_chain := [smp_baseline_snapshot_id args; snapshotId] |}.

Definition merge_result_record (args : SnapshotMergeParams)
  (snapshot : Snapshot) : MergeResult :=
  let c := count_statuses (Object_values (smp_relocation_results args)) in
  {| mr_snapshot_id := snapshot_id snapshot;
     findings_preserved := n_preserved c;
     findings_relocated := n_relocated c;
     findings_new := length (smp_delta_envelope_ids args);
     findings_stale := n_stale c;
     findings_orphaned := n_orphaned c;
     conflicts_resolved := 0;
     mr_trust_score := trust_score snapshot |}.

Definition snapshotMerge_body (args : SnapshotMergeParams)
  (context : InternalToolContext) (rd : SnapshotReadings)
  : M SnapshotMergeResponse :=
  match vectorStoreManager context, embeddingManager context with
  | Some vsm, Some em =>
      store <- lift (knowledge_store vsm) ;;
      match store with
      | None => ret (merge_failure "Vector store not available")
      | Some _ =>
          match getEmbedder_default em with
          | None => ret (merge_failure "Embedder not available")
          | Some embedder =>
              let snapshot := merge_snapshot_record args rd in
              let searchText := buildSnapshotSearchText snapshot in
              embedding <- lift (embed embedder searchText) ;;
              let vectorId :=
                generateNumericVectorId (rd_vector_now rd)
                  (rd_vector_random rd) 0 in
              store_insert embedding vectorId
                (snapshot_payload snapshot searchText vectorId) ;;;
              ret {| smr_success := true; smr_error := None;
                     smr_result :=
                       Some (merge_result_record args snapshot) |}
          end
      end
  | _, _ => ret (merge_failure "Vector store not available")
  end.

Definition snapshotMerge (args : SnapshotMergeParams)
  (context : InternalToolContext) (rd : SnapshotReadings)
  : StoreState -> SnapshotMergeResponse * StoreState :=
  try_catch (snapshotMerge_body args context rd) merge_failure.

(** The snapshots a state of the store holds: what [snapshotQueryTool]
    filters on ([memoryType === 'snapshot'], same project, same id). *)
Definition stored_snapshot (p : Payload) : option Snapshot :=
  match body p with
  | SnapshotBody s => if str_eq (memoryType p) "snapshot" then Some s else None
  | _ => None
  end.

Fixpoint find_snapshot (st : StoreState) (project id : string)
  : option Snapshot :=
  match st with
  | [] => None
  | e :: rest =>
      match stored_snapshot (entry_payload e) with
      | Some s =>
          if (str_eq (snap_project_path s) project
              && str_eq (snapshot_id s) id)%bool
          then Some s else find_snapshot rest project id
      | None => find_snapshot rest project id
      end
  end.

(** ** Finding relocation ([findingRelocateTool]) *)

Inductive ChangeType := ADDED | MODIFIED | DELETED | RENAMED.

Inductive Recommendation := REC_INCREMENTAL | REC_FULL | REC_NO_CHANGES.

Record ChangedFile := {
  cf_path : string;
  cf_change_type : ChangeType;
  cf_hunks : list (nat * nat)
}.

Record DeltaManifest := {
  dm_baseline_snapshot_id : string;
  dm_target_commit : string;
  dm_changed_files : list ChangedFile;
  dm_affected_chunks : list string;
  dm_cascade_affected : list string;
  dm_semantic_affected : list string;
  dm_recommendation : Recommendation;
  dm_estimated_savings : string
}.

Record FindingRelocateParams := {
  frp_finding_id : string;
  frp_target_commit : string;
  frp_project_path : string;
  frp_strategies : option (list RelocationStrategy);
  frp_min_confidence : option Q;
  frp_delta_manifest : option DeltaManifest
}.

Record FindingRelocateResponse := {
  frr_success : bool;
  frr_error : option string;
  frr_status : RelocationStatus;
  frr_method : RelocationMethod;
  frr_confidence : Q;
  frr_strategies_tried : list StrategyTried;
  frr_finding_id : option string
}.

Definition default_strategies : list RelocationStrategy :=
  [EXACT; DRIFT; SEMANTIC; HASH_GLOBAL; FUZZY].

Definition default_min_confidence : Q := 7 # 10.

(** The three locals of one loop iteration: [confidence], [status],
    [method]. *)
Record Candidate := {
  cand_confidence : Q;
  cand_status : RelocationStatus;
  cand_method : RelocationMethod
}.

Definition initial_candidate : Candidate :=
  {| cand_confidence := 0; cand_status := ORPHANED;
     cand_method := CONTENT_CHANGED |}.

Definition tried (s : RelocationStrategy) (result : string) (c : Q)
  : StrategyTried :=
  {| st_strategy := s; st_result := result; st_confidence := c |}.

(** The filter of the SEMANTIC case: envelopes of this project. *)
Definition is_project_envelope (project : string) (h : Hit) : bool :=
  let p := hit_payload h in
  (str_eq (memoryType p) "envelope"
   && match project_path p with
      | Some pp => str_eq pp project
      | None => false
      end)%bool.

(** The body of [case 'SEMANTIC'] once [store && embedder] holds. *)
Definition semantic_attempt (args : FindingRelocateParams)
  (store : VectorStore) (embedder : Embedder) (minConfidence : Q)
  : M (Candidate * list StrategyTried) :=
  let query := "finding:" +++ frp_finding_id args in
  embedding <- lift (embed embedder query) ;;
  rawResults <- store_search store embedding 20 ;;
  let results := filter (is_project_envelope (frp_project_path args))
                        rawResults in
  match results with
  | first :: _ =>
      if negb (Qle_bool (hit_score first) minConfidence) then
        ret ({| cand_confidence := hit_score first;
                cand_status := RELOCATED;
                cand_method := SEMANTIC_SAME_FILE |},
             [tried SEMANTIC "MATCH" (hit_score first)])
      else
        ret (initial_candidate,
             [tried SEMANTIC "LOW_CONFIDENCE" (hit_score first)])
  | [] => ret (initial_candidate, [tried SEMANTIC "LOW_CONFIDENCE" 0])
  end.

(** One pass through the [switch (strategy)]: the candidate it leaves in the
    locals and the entries it pushes on [strategiesTried]. *)
Definition attempt (args : FindingRelocateParams)
  (store : option VectorStore) (embedder : option Embedder)
  (minConfidence : Q) (strategy : RelocationStrategy)
  : M (Candidate * list StrategyTried) :=
  match strategy with
  | EXACT => ret (initial_candidate, [tried EXACT "NO_MATCH" 0])
  | DRIFT =>
      match frp_delta_manifest args with
      | Some _ =>
          ret ({| cand_confidence := 95 # 100; cand_status := RELOCATED;
                  cand_method := LINE_DRIFT |},
               [tried DRIFT "MATCH" (95 # 100)])
      | None => ret (initial_candidate, [tried DRIFT "NO_DELTA_MANIFEST" 0])
      end
  | SEMANTIC =>
      match store, embedder with
      | Some store, Some embedder =>
          semantic_attempt args store embedder minConfidence
      | _, _ => ret (initial_candidate, [])
      end
  | HASH_GLOBAL => ret (initial_candidate, [tried HASH_GLOBAL "NO_MATCH" 0])
  | FUZZY => ret (initial_candidate, [tried FUZZY "NO_MATCH" 0])
  end.

(** [for (const strategy of strategies) { ...; if (confidence >=
    minConfidence) { result = ...; break; } }].  The first component is the
    candidate the loop stopped on, [None] when it ran to the end. *)
Fixpoint relocate_loop (args : FindingRelocateParams)
  (store : option VectorStore) (embedder : option Embedder)
  (minConfidence : Q) (strategies : list RelocationStrategy)
  (strategiesTried : list StrategyTried)
  : M (option Candidate * list StrategyTried) :=
  match strategies with
  | [] => ret (None, strategiesTried)
  | strategy :: rest =>
      r <- attempt args store embedder minConfidence strategy ;;
      let strategiesTried := strategiesTried ++ snd r in
      if Qle_bool minConfidence (cand_confidence (fst r))
      then ret (Some (fst r), strategiesTried)
      else relocate_loop args store embedder minConfidence rest
             strategiesTried
  end.

Definition relocate_failure (msg : string) : FindingRelocateResponse :=
  {| frr_success := false; frr_error := Some msg;
     frr_status := ORPHANED; frr_method := CONTENT_CHANGED;
     frr_confidence := 0; frr_strategies_tried := [];
     frr_finding_id := None |}.

(** [args.strategies ?? [...]] and [args.min_confidence ?? 0.7]. *)
Definition strategies_of (args : FindingRelocateParams)
  : list RelocationStrategy :=
  match frp_strategies args with
  | Some l => l
  | None => default_strategies
  end.

Definition min_confidence_of (args : FindingRelocateParams) : Q :=
  match frp_min_confidence args with
  | Some m => m
  | None => default_min_confidence
  end.

Definition findingRelocate_body (args : FindingRelocateParams)
  (context : InternalToolContext) : M FindingRelocateResponse :=
  let strategies := strategies_of args in
  let minConfidence := min_confidence_of args in
  let embedder := default_embedder (embeddingManager context) in
  store <- lift (knowledge_store_opt (vectorStoreManager context)) ;;
  r <- relocate_loop args store embedder minConfidence strategies [] ;;
  match fst r with
  | Some c =>
      ret {| frr_success := true; frr_error := None;
             frr_status := cand_status c; frr_method := cand_method c;
             frr_confidence := cand_confidence c;
             frr_strategies_tried := snd r;
             frr_finding_id := Some (frp_finding_id args) |}
  | None =>
      ret {| frr_success := true; frr_error := None;
             frr_status := STALE; frr_method := CONTENT_CHANGED;
             frr_confidence := 0;
             frr_strategies_tried := snd r;
             frr_finding_id := Some (frp_finding_id args) |}
  end.

Definition findingRelocate (args : FindingRelocateParams)
  (context : InternalToolContext)
  : StoreState -> FindingRelocateResponse * StoreState :=
  try_catch (findingRelocate_body args context) relocate_failure.

(** ** Graph tools ([graphUpdateTool], [graphPropagateTool]) *)

Definition node_type_name (t : GraphNodeType) : string :=
  match t with
  | CODE => "CODE" | FINDING => "FINDING" | SEMANTIC_NODE => "SEMANTIC"
  | CHUNK => "CHUNK"
  end.

Definition edge_type_name (t : GraphEdgeType) : string :=
  match t with
  | IMPORTS => "IMPORTS" | EVIDENCES => "EVIDENCES"
  | BELONGS_TO => "BELONGS_TO" | SIMILAR_TO => "SIMILAR_TO"
  | CONTAINS => "CONTAINS" | CALLS => "CALLS" | EXTENDS => "EXTENDS"
  | IMPLEMENTS => "IMPLEMENTS"
  end.

Inductive GraphOperation :=
| add_node | update_node | remove_node | add_edge | remove_edge | bulk_update.

Record GraphUpdateParams := {
  gup_project_path : string;
  gup_operation : GraphOperation;
  gup_node : option GraphNode;
  gup_node_id : option string;
  gup_edge : option GraphEdge;
  gup_bulk_nodes : option (list GraphNode);
  gup_bulk_edges : option (list GraphEdge);
  gup_commit : string
}.

Record GraphUpdateResponse := {
  gur_success : bool;
  gur_error : option string;
  gur_nodes_affected : nat;
  gur_edges_affected : nat
}.

Definition update_failure (msg : string) : GraphUpdateResponse :=
  {| gur_success := false; gur_error := Some msg;
     gur_nodes_affected := 0; gur_edges_affected := 0 |}.

Definition update_done (nodesAffected edgesAffected : nat)
  : GraphUpdateResponse :=
  {| gur_success := true; gur_error := None;
     gur_nodes_affected := nodesAffected;
     gur_edges_affected := edgesAffected |}.

(** [edge-${source}-${target}-${edge_type}]. *)
Definition edge_id_of (e : GraphEdge) : string :=
  "edge-" +++ source e +++ "-" +++ target e +++ "-"
    +++ edge_type_name (edge_type e).

(** [${edge_type}:${source}->${target}]. *)
Definition edge_text (e : GraphEdge) : string :=
  edge_type_name (edge_type e) +++ ":" +++ source e +++ "->" +++ target e.

(** [${node_type}:${node_id} ${JSON.stringify(properties)}]. *)
Definition node_text (n : GraphNode) : string :=
  node_type_name (node_type n) +++ ":" +++ node_id n +++ " "
    +++ properties n.

Definition node_payload (args : GraphUpdateParams) (n : GraphNode)
  (vectorId : Z) : Payload :=
  {| memoryType := "graph";
     recordType := Some "node";
     project_path := Some (gup_project_path args);
     commit := Some (gup_commit args);
     text := None;
     version := 2;
     vector_id := vectorId;
     body := NodeBody n |}.

Definition edge_payload (args : GraphUpdateParams) (e : GraphEdge)
  (vectorId : Z) : Payload :=
  {| memoryType := "graph";
     recordType := Some "edge";
     project_path := Some (gup_project_path args);
     commit := Some (gup_commit args);
     text := None;
     version := 2;
     vector_id := vectorId;
     body := EdgeBody e (edge_id_of e) |}.

(** The readings of [Date.now()] and of [Math.floor(Math.random() * 1000)]
    taken by the n-th call of [generateNumericVectorId] in one handler run. *)
Record VectorIdReadings := {
  vr_now : nat -> Z;
  vr_random : nat -> Z
}.

Definition nth_vector_id (rd : VectorIdReadings) (call : nat) (index : Z) : Z :=
  generateNumericVectorId (vr_now rd call) (vr_random rd call) index.

(** [for (const node of args.bulk_nodes)]; [call] numbers the calls of
    [generateNumericVectorId] made so far. *)
Fixpoint bulk_nodes_loop (args : GraphUpdateParams) (embedder : Embedder)
  (rd : VectorIdReadings) (nodes : list GraphNode) (call : nat)
  (nodesAffected : nat) : M nat :=
  match nodes with
  | [] => ret nodesAffected
  | node :: rest =>
      let nodeText := node_type_name (node_type node) +++ ":" +++ node_id node in
      embedding <- lift (embed embedder nodeText) ;;
      let vectorId := nth_vector_id rd call (Z.of_nat nodesAffected) in
      store_insert embedding vectorId (node_payload args node vectorId) ;;;
      bulk_nodes_loop args embedder rd rest (S call) (S nodesAffected)
  end.

Fixpoint bulk_edges_loop (args : GraphUpdateParams) (embedder : Embedder)
  (rd : VectorIdReadings) (edges : list GraphEdge) (call : nat)
  (edgesAffected : nat) : M nat :=
  match edges with
  | [] => ret edgesAffected
  | edge :: rest =>
      let edgeText := edge_text edge in
      embedding <- lift (embed embedder edgeText) ;;
      let vectorId := nth_vector_id rd call (Z.of_nat edgesAffected) in
      store_insert embedding vectorId (edge_payload args edge vectorId) ;;;
      bulk_edges_loop args embedder rd rest (S call) (S edgesAffected)
  end.

Definition graphUpdate_body (args : GraphUpdateParams)
  (context : InternalToolContext) (rd : VectorIdReadings)
  : M GraphUpdateResponse :=
  let embedder := default_embedder (embeddingManager context) in
  store <- lift (knowledge_store_opt (vectorStoreManager context)) ;;
  match gup_operation args with
  | add_node | update_node =>
      match gup_node args with
      | None => ret (update_failure "node required for add_node/update_node")
      | Some node =>
          match store, embedder with
          | Some _, Some embedder =>
              let nodeText := node_text node in
              embedding <- lift (embed embedder nodeText) ;;
              let vectorId := nth_vector_id rd 0 0 in
              store_insert embedding vectorId
                (node_payload args node vectorId) ;;;
              ret (update_done 1 0)
          | _, _ => ret (update_done 0 0)
          end
      end
  | remove_node =>
      match gup_node_id args with
      | None => ret (update_failure "node_id required for remove_node")
      | Some id =>
          if truthy id then
            match store with
            | Some _ => store_delete (KStr id) ;;; ret (update_done 1 0)
            | None => ret (update_done 0 0)
            end
          else ret (update_failure "node_id required for remove_node")
      end
  | add_edge =>
      match gup_edge args with
      | None => ret (update_failure "edge required for add_edge")
      | Some edge =>
          match store, embedder with
          | Some _, Some embedder =>
              let edgeText := edge_text edge in
              embedding <- lift (embed embedder edgeText) ;;
              let vectorId := nth_vector_id rd 0 0 in
              store_insert embedding vectorId
                (edge_payload args edge vectorId) ;;;
              ret (update_done 0 1)
          | _, _ => ret (update_done 0 0)
          end
      end
  | remove_edge =>
      match gup_edge args with
      | None => ret (update_failure "edge required for remove_edge")
      | Some edge =>
          match store with
          | Some _ =>
              store_delete (KStr (edge_id_of edge)) ;;; ret (update_done 0 1)
          | None => ret (update_done 0 0)
          end
      end
  | bulk_update =>
      match store, embedder with
      | Some _, Some embedder =>
          let nodes := match gup_bulk_nodes args with
                       | Some l => l | None => [] end in
          let edges := match gup_bulk_edges args with
                       | Some l => l | None => [] end in
          nodesAffected <- bulk_nodes_loop args embedder rd nodes 0 0 ;;
          edgesAffected <-
            bulk_edges_loop args embedder rd edges (length nodes) 0 ;;
          ret (update_done nodesAffected edgesAffected)
      | _, _ => ret (update_done 0 0)
      end
  end.

Definition graphUpdate (args : GraphUpdateParams)
  (context : InternalToolContext) (rd : VectorIdReadings)
  : StoreState -> GraphUpdateResponse * StoreState :=
  try_catch (graphUpdate_body args context rd) update_failure.

Record GraphPropagateParams := {
  gpp_project_path : string;
  gpp_dirty_chunks : list string;
  gpp_max_depth : option nat;
  gpp_edge_types : option (list GraphEdgeType);
  gpp_min_edge_weight : option Q;
  gpp_enable_semantic_ripple : option bool;
  gpp_similarity_threshold : option Q
}.

Record PropagateStats := {
  nodes_visited : nat;
  edges_traversed : nat;
  max_depth_reached : nat
}.

Record GraphPropagateResponse := {
  gpr_success : bool;
  gpr_error : option string;
  cascade_affected : list string;
  semantic_affected : list string;
  all_affected : list string;
  cascade_chains : list CascadeChain;
  stats : PropagateStats
}.

Definition propagate_failure (msg : string) : GraphPropagateResponse :=
  {| gpr_success := false; gpr_error := Some msg;
     cascade_affected := []; semantic_affected := []; all_affected := [];
     cascade_chains := [];
     stats := {| nodes_visited := 0; edges_traversed := 0;
                 max_depth_reached := 0 |} |}.

Definition default_edge_types : list GraphEdgeType :=
  [IMPORTS; CALLS; EXTENDS; IMPLEMENTS].

(** The mutable locals of the traversal. *)
Record Traversal := {
  cascadeAffected : StrSet;
  visited : StrSet;
  cascadeChains : list CascadeChain;
  nodesVisited : nat;
  edgesTraversed : nat
}.

(** [new Set(args.dirty_chunks)]. *)
Definition set_of_list (l : list string) : StrSet := fold_left set_add l [].

Definition initial_traversal (dirty_chunks : list string) : Traversal :=
  {| cascadeAffected := []; visited := set_of_list dirty_chunks;
     cascadeChains := []; nodesVisited := 0; edgesTraversed := 0 |}.

(** The filter on the raw search results: graph edges of this project. *)
Definition is_project_edge (project : string) (h : Hit) : bool :=
  let p := hit_payload h in
  (str_eq (memoryType p) "graph"
   && match recordType p with
      | Some r => str_eq r "edge"
      | None => false
      end
   && match project_path p with
      | Some pp => str_eq pp project
      | None => false
      end)%bool.

(** The edge a result carries; a payload without [source] and [target]
    compares unequal to every chunk id. *)
Definition hit_edge (h : Hit) : option GraphEdge :=
  match body (hit_payload h) with
  | EdgeBody e _ => Some e
  | _ => None
  end.

(** The body of [for (const result of results)]. *)
Definition visit_result (chunkId : string) (t : Traversal) (result : Hit)
  : Traversal :=
  match hit_edge result with
  | Some edge =>
      if (str_eq (source edge) chunkId || str_eq (target edge) chunkId)%bool
      then
        let affectedChunk :=
          if str_eq (source edge) chunkId then target edge else source edge in
        if negb (set_has (visited t) affectedChunk) then
          {| cascadeAffected := set_add (cascadeAffected t) affectedChunk;
             visited := set_add (visited t) affectedChunk;
             cascadeChains :=
               cascadeChains t ++
                 [{| source_chunk := chunkId;
                     affected_chunk := affectedChunk;
                     path := [chunkId; affectedChunk];
                     chain_edge_types := [edge_type edge];
                     depth := 1 |}];
             nodesVisited := S (nodesVisited t);
             edgesTraversed := S (edgesTraversed t) |}
        else
          {| cascadeAffected := cascadeAffected t;
             visited := visited t;
             cascadeChains := cascadeChains t;
             nodesVisited := S (nodesVisited t);
             edgesTraversed := edgesTraversed t |}
      else t
  | None => t
  end.

(** [for (const chunkId of args.dirty_chunks)]. *)
Fixpoint propagate_loop (args : GraphPropagateParams) (store : VectorStore)
  (embedder : Embedder) (edgeTypes : list GraphEdgeType)
  (chunks : list string) (t : Traversal) : M Traversal :=
  match chunks with
  | [] => ret t
  | chunkId :: rest =>
      let query :=
        "chunk:" +++ chunkId +++ " "
          +++ join " " (map edge_type_name edgeTypes) in
      embedding <- lift (embed embedder query) ;;
      rawResults <- store_search store embedding 100 ;;
      let results :=
        filter (is_project_edge (gpp_project_path args)) rawResults in
      propagate_loop args store embedder edgeTypes rest
        (fold_left (visit_result chunkId) results t)
  end.

Definition graphPropagate_body (args : GraphPropagateParams)
  (context : InternalToolContext) : M GraphPropagateResponse :=
  let maxDepth := match gpp_max_depth args with
                  | Some d => d | None => 3%nat end in
  let edgeTypes := match gpp_edge_types args with
                   | Some l => l | None => default_edge_types end in
  let minEdgeWeight := match gpp_min_edge_weight args with
                       | Some w => w | None => 2 end in
  let enableSemanticRipple := match gpp_enable_semantic_ripple args with
                              | Some b => b | None => true end in
  let similarityThreshold := match gpp_similarity_threshold args with
                             | Some s => s | None => 8 # 10 end in
  let embedder := default_embedder (embeddingManager context) in
  let semanticAffected : StrSet := [] in
  let maxDepthReached := 0%nat in
  t <- match vectorStoreManager context, embedder with
       | Some vsm, Some embedder =>
           store <- lift (knowledge_store vsm) ;;
           match store with
           | Some store =>
               propagate_loop args store embedder edgeTypes
                 (gpp_dirty_chunks args)
                 (initial_traversal (gpp_dirty_chunks args))
           | None => ret (initial_traversal (gpp_dirty_chunks args))
           end
       | _, _ => ret (initial_traversal (gpp_dirty_chunks args))
       end ;;
  ret {| gpr_success := true; gpr_error := None;
         cascade_affected := cascadeAffected t;
         semantic_affected := semanticAffected;
         all_affected :=
           gpp_dirty_chunks args ++ cascadeAffected t ++ semanticAffected;
         cascade_chains := cascadeChains t;
         stats := {| nodes_visited := nodesVisited t;
                     edges_traversed := edgesTraversed t;
                     max_depth_reached := maxDepthReached |} |}.

Definition graphPropagate (args : GraphPropagateParams)
  (context : InternalToolContext)
  : StoreState -> GraphPropagateResponse * StoreState :=
  try_catch (graphPropagate_body args context) propagate_failure.

(** ** Branch management ([branchManageTool]) *)

Definition is_alnum_or_dash (c : ascii) : bool :=
  let n := nat_of_ascii c in
  ((97 <=? n) && (n <=? 122) || (65 <=? n) && (n <=? 90)
   || (48 <=? n) && (n <=? 57) || (n =? 45))%nat%bool.

Definition to_lower (c : ascii) : ascii :=
  let n := nat_of_ascii c in
  if ((65 <=? n) && (n <=? 90))%nat%bool then ascii_of_nat (n + 32) else c.

(** [gitBranch.replace(/[^a-zA-Z0-9-]/g, '-').toLowerCase()]. *)
Fixpoint sanitize (s : string) : string :=
  match s with
  | EmptyString => EmptyString
  | String c rest =>
      String (to_lower (if is_alnum_or_dash c then c else "-"%char))
             (sanitize rest)
  end.

(** [generateBranchId(gitBranch)]; [random] is the reading of
    [Math.random().toString(36).substring(2, 8)]. *)
Definition generateBranchId (gitBranch random : string) : string :=
  "ab-" +++ sanitize gitBranch +++ "-" +++ random.

Inductive BranchOperation :=
| op_create | op_get | op_list | op_delete | op_rebase | op_merge_to_main.

Record BranchManageParams := {
  bmp_project_path : string;
  bmp_operation : BranchOperation;
  bmp_git_branch : option string;
  bmp_base_git_branch : option string;
  bmp_analysis_branch_id : option string;
  bmp_new_base_snapshot_id : option string
}.

(** The shapes of the handler's return value. *)
Inductive BranchResponse :=
| BranchFailure (error : string)           (* success: false *)
| BranchCreated (branch : AnalysisBranch)  (* success: true, branch *)
| BranchFound (branch : Payload)
| BranchNotFound                           (* success: true, branch: null *)
| BranchList (branches : list Payload) (count : nat)
| BranchDeleted (id : string)
| BranchRebased (now : Z)                  (* snap-rebased-<now> *)
| BranchMerged (now : Z).                  (* snap-merged-<now> *)


Record BranchReadings := {
  br_random_tag : string;   (* Math.random().toString(36).substring(2, 8) *)
  br_timestamp : string;    (* new Date().toISOString() *)
  br_vector_now : Z;
  br_vector_random : Z;
  br_now : Z                (* Date.now() of rebase and merge_to_main *)
}.

(** [!s] on an optional string: absent or empty. *)
Definition present (s : option string) : option string :=
  match s with
  | Some v => if truthy v then Some v else None
  | None => None
  end.

Definition branch_payload (args : BranchManageParams) (b : AnalysisBranch)
  (searchText : string) (vectorId : Z) : Payload :=
  {| memoryType := "branch";
     recordType := None;
     project_path := Some (bmp_project_path args);
     commit := None;
     text := Some searchText;
     version := 2;
     vector_id := vectorId;
     body := BranchBody b |}.

Definition payload_branch (p : Payload) : option AnalysisBranch :=
  match body p with
  | BranchBody b => Some b
  | _ => None
  end.

(** The filter of the [get] case. *)
Definition get_filter (args : BranchManageParams) (h : Hit) : bool :=
  let p := hit_payload h in
  if negb (str_eq (memoryType p) "branch") then false
  else if negb (match project_path p with
                | Some pp => str_eq pp (bmp_project_path args)
                | None => false end) then false
  else if match present (bmp_analysis_branch_id args) with
          | Some id =>
              negb (match payload_branch p with
                    | Some b => str_eq (branch_id b) id
                    | None => false end)
          | None => false end then false
  else if match present (bmp_git_branch args) with
          | Some g =>
              negb (match payload_branch p with
                    | Some b => str_eq (git_branch b) g
                    | None => false end)
          | None => false end then false
  else true.

(** The filter of the [list] case. *)
Definition list_filter (args : BranchManageParams) (h : Hit) : bool :=
  let p := hit_payload h in
  (str_eq (memoryType p) "branch"
   && match project_path p with
      | Some pp => str_eq pp (bmp_project_path args)
      | None => false end)%bool.

Definition branch_create (args : BranchManageParams)
  (store : option VectorStore) (embedder : option Embedder)
  (rd : BranchReadings) (baseGitBranch : string) : M BranchResponse :=
  match present (bmp_git_branch args) with
  | None => ret (BranchFailure "git_branch required for create operation")
  | Some gitBranch =>
      let branchId := generateBranchId gitBranch (br_random_tag rd) in
      let timestamp := br_timestamp rd in
      let branch :=
        {| branch_id := branchId;
           git_branch := gitBranch;
           base_git_branch := baseGitBranch;
           fork_point_commit := "";
           snapshots := [];
           branch_created_at := timestamp;
           branch_updated_at := timestamp |} in
      match store, embedder with
      | Some _, Some embedder =>
          let searchText :=
            "branch:" +++ gitBranch +++ " base:" +++ baseGitBranch
              +++ " project:" +++ bmp_project_path args in
          embedding <- lift (embed embedder searchText) ;;
          let vectorId :=
            generateNumericVectorId (br_vector_now rd)
              (br_vector_random rd) 0 in
          store_insert embedding vectorId
            (branch_payload args branch searchText vectorId) ;;;
          ret (BranchCreated branch)
      | _, _ => ret (BranchCreated branch)
      end
  end.

Definition branch_get (args : BranchManageParams)
  (store : option VectorStore) (embedder : option Embedder)
  : M BranchResponse :=
  match present (bmp_git_branch args), present (bmp_analysis_branch_id args)
  with
  | None, None =>
      ret (BranchFailure
             "git_branch or analysis_branch_id required for get operation")
  | _, _ =>
      match store, embedder with
      | Some store, Some embedder =>
          let query :=
            match bmp_analysis_branch_id args with
            | Some id => id
            | None =>
                "branch:" +++ match bmp_git_branch args with
                              | Some g => g
                              | None => "undefined"
                              end
            end in
          embedding <- lift (embed embedder query) ;;
          rawResults <- store_search store embedding 20 ;;
          match filter (get_filter args) rawResults with
          | first :: _ => ret (BranchFound (hit_payload first))
          | [] => ret BranchNotFound
          end
      | _, _ => ret BranchNotFound
      end
  end.

Definition branch_list (args : BranchManageParams)
  (store : option VectorStore) (embedder : option Embedder)
  : M BranchResponse :=
  match store, embedder with
  | Some store, Some embedder =>
      let query :=
        "project:" +++ bmp_project_path args +++ " analysis branches" in
      embedding <- lift (embed embedder query) ;;
      rawResults <- store_search store embedding 200 ;;
      let results := filter (list_filter args) rawResults in
      ret (BranchList (map hit_payload results) (length results))
  | _, _ => ret (BranchList [] 0)
  end.

Definition branchManage_body (args : BranchManageParams)
  (context : InternalToolContext) (rd : BranchReadings) : M BranchResponse :=
  let embedder := default_embedder (embeddingManager context) in
  store <- lift (knowledge_store_opt (vectorStoreManager context)) ;;
  let baseGitBranch :=
    match bmp_base_git_branch args with
    | Some b => b
    | None => "main"
    end in
  match bmp_operation args with
  | op_create => branch_create args store embedder rd baseGitBranch
  | op_get => branch_get args store embedder
  | op_list => branch_list args store embedder
  | op_delete =>
      match present (bmp_analysis_branch_id args) with
      | None =>
          ret (BranchFailure
                 "analysis_branch_id required for delete operation")
      | Some id =>
          match store with
          | Some _ => store_delete (KStr id) ;;; ret (BranchDeleted id)
          | None => ret (BranchDeleted id)
          end
      end
  | op_rebase =>
      match present (bmp_analysis_branch_id args),
            present (bmp_new_base_snapshot_id args) with
      | Some _, Some _ => ret (BranchRebased (br_now rd))
      | _, _ =>
          ret (BranchFailure
                 "analysis_branch_id and new_base_snapshot_id required for rebase")
      end
  | op_merge_to_main =>
      match present (bmp_analysis_branch_id args) with
      | Some _ => ret (BranchMerged (br_now rd))
      | None =>
          ret (BranchFailure
                 "analysis_branch_id required for merge_to_main")
      end
  end.

Definition branchManage (args : BranchManageParams)
  (context : InternalToolContext) (rd : BranchReadings)
  : StoreState -> BranchResponse * StoreState :=
  try_catch (branchManage_body args context rd) BranchFailure.







(** ** Fake collaborators, for concrete runs *)

(** An embedder that maps every text to the empty vector. *)
Definition fake_embedder : Embedder := {| embed := fun _ => Ok [] |}.

(** A store whose search returns its entries in insertion order, each with
    score 1, cut at [k]. *)
Definition scan_store : VectorStore :=
  {| search := fun st _ k =>
       Ok (firstn k
             (map (fun e => {| hit_score := 1;
                               hit_payload := entry_payload e |}) st)) |}.

Definition full_context : InternalToolContext :=
  {| vectorStoreManager :=
       Some {| getStore_knowledge := Ok (Some scan_store);
               getStore_default := Ok (Some scan_store) |};
     embeddingManager :=
       Some {| getEmbedder_default := Some fake_embedder |} |}.

Definition no_services : InternalToolContext :=
  {| vectorStoreManager := None; embeddingManager := None |}.

(** ** Vocabulary of the properties *)

(** The vector services a storing handler needs are all there and the
    embedding of [searchText] returns [v]. *)
Definition services_ready (context : InternalToolContext)
  (searchText : string) (v : Vector) : Prop :=
  exists vsm em store embedder,
    vectorStoreManager context = Some vsm
    /\ embeddingManager context = Some em
    /\ knowledge_store vsm = Ok (Some store)
    /\ getEmbedder_default em = Some embedder
    /\ embed embedder searchText = Ok v.

Definition status_eqb (a b : RelocationStatus) : bool :=
  match a, b with
  | PRESERVED, PRESERVED | RELOCATED, RELOCATED
  | STALE, STALE | ORPHANED, ORPHANED => true
  | _, _ => false
  end.

(** The number of results with a given status. *)
Definition count_with (s : RelocationStatus) (l : list RelocationResult)
  : nat :=
  length (filter (fun r => status_eqb (status r) s) l).




Definition merge_success (mr : MergeResult) : SnapshotMergeResponse :=
  {| smr_success := true; smr_error := None; smr_result := Some mr |}.

(** What one strategy leaves behind in a given state of the store: its
    candidate and the trace entries it pushes. *)
Definition attempt_in (args : FindingRelocateParams)
  (store : option VectorStore) (embedder : option Embedder) (st : StoreState)
  (strategy : RelocationStrategy) : outcome (Candidate * list StrategyTried) :=
  fst (attempt args store embedder (min_confidence_of args) strategy st).

(** A strategy runs and leaves a confidence below [min_confidence]. *)
Definition declines (args : FindingRelocateParams)
  (store : option VectorStore) (embedder : option Embedder) (st : StoreState)
  (strategy : RelocationStrategy) : Prop :=
  exists c entries,
    attempt_in args store embedder st strategy = Ok (c, entries)
    /\ Qle_bool (min_confidence_of args) (cand_confidence c) = false.

(** The trace entries of a run of strategies. *)
Definition entries_of (args : FindingRelocateParams)
  (store : option VectorStore) (embedder : option Embedder) (st : StoreState)
  (l : list RelocationStrategy) : list StrategyTried :=
  flat_map (fun s => match attempt_in args store embedder st s with
                     | Ok (_, entries) => entries
                     | Throw _ => []
                     end) l.

Definition relocate_success (args : FindingRelocateParams)
  (s : RelocationStatus) (m : RelocationMethod) (c : Q)
  (trace : list StrategyTried) : FindingRelocateResponse :=
  {| frr_success := true; frr_error := None;
     frr_status := s; frr_method := m; frr_confidence := c;
     frr_strategies_tried := trace;
     frr_finding_id := Some (frp_finding_id args) |}.

(** The chunk a result adds for [chunkId]: the other end of an edge that
    touches it. *)
Definition neighbour_via (chunkId : string) (h : Hit) : option string :=
  match hit_edge h with
  | Some edge =>
      if str_eq (source edge) chunkId then Some (target edge)
      else if str_eq (target edge) chunkId then Some (source edge)
      else None
  | None => None
  end.

(** The filtered search results the propagation loop sees for a chunk. *)
Definition search_results (args : GraphPropagateParams) (store : VectorStore)
  (embedder : Embedder) (st : StoreState) (chunkId : string)
  : outcome (list Hit) :=
  let edgeTypes := match gpp_edge_types args with
                   | Some l => l | None => default_edge_types end in
  match embed embedder
          ("chunk:" +++ chunkId +++ " "
             +++ join " " (map edge_type_name edgeTypes)) with
  | Ok embedding =>
      match search store st embedding 100 with
      | Ok rawResults =>
          Ok (filter (is_project_edge (gpp_project_path args)) rawResults)
      | Throw msg => Throw msg
      end
  | Throw msg => Throw msg
  end.

(** The store and the embedder a graph or branch handler works with. *)
Definition graph_services (context : InternalToolContext)
  (store : VectorStore) (embedder : Embedder) : Prop :=
  exists vsm,
    vectorStoreManager context = Some vsm
    /\ knowledge_store vsm = Ok (Some store)
    /\ default_embedder (embeddingManager context) = Some embedder.

Definition has_key (st : StoreState) (k : Key) : Prop :=
  In k (map entry_key st).

Definition new_entry (v : Vector) (id : Z) (p : Payload) : Entry :=
  {| entry_key := KNum id; entry_vector := v; entry_payload := p |}.

(** The invariant of the traversal: the affected chunks are distinct, each
    was visited, and a chunk is visited when it is dirty or affected. *)
Definition traversal_ok (dirty : list string) (t : Traversal) : Prop :=
  NoDup (cascadeAffected t)
  /\ forall x, In x (visited t) <-> In x dirty \/ In x (cascadeAffected t).

(** The same propagation request with other limits. *)
Definition with_limits (args : GraphPropagateParams) (depth : option nat)
  (minWeight : option Q) (ripple : option bool) (threshold : option Q)
  : GraphPropagateParams :=
  {| gpp_project_path := gpp_project_path args;
     gpp_dirty_chunks := gpp_dirty_chunks args;
     gpp_max_depth := depth;
     gpp_edge_types := gpp_edge_types args;
     gpp_min_edge_weight := minWeight;
     gpp_enable_semantic_ripple := ripple;
     gpp_similarity_threshold := threshold |}.

(** The branch record a [create] call builds and the text it embeds. *)
Definition new_branch (args : BranchManageParams) (rd : BranchReadings)
  (gitBranch : string) : AnalysisBranch :=
  {| branch_id := generateBranchId gitBranch (br_random_tag rd);
     git_branch := gitBranch;
     base_git_branch := match bmp_base_git_branch args with
                        | Some b => b
                        | None => "main"
                        end;
     fork_point_commit := "";
     snapshots := [];
     branch_created_at := br_timestamp rd;
     branch_updated_at := br_timestamp rd |}.

Definition branch_search_text (args : BranchManageParams)
  (gitBranch : string) : string :=
  "branch:" +++ gitBranch +++ " base:"
    +++ match bmp_base_git_branch args with
        | Some b => b
        | None => "main"
        end
    +++ " project:" +++ bmp_project_path args.

(** ** Fixtures of the concrete runs *)

Definition plain_result (s : RelocationStatus) (m : RelocationMethod) (c : Q)
  : RelocationResult :=
  {| status := s; new_location := None; method := m; rr_confidence := c;
     strategies_tried := [] |}.

Definition perfect_score : TrustScore :=
  {| overall := 10; level := HIGH;
     components := {| coverage := 1; freshness := 1; confidence := 1 |} |}.

Definition sample_readings : SnapshotReadings :=
  {| rd_start := 1700000000000;
     rd_id_date := "2026-11-01T19:26:05.123Z";
     rd_created_at := "2026-11-01T19:26:05.124Z";
     rd_duration_now := 1700000001400;
     rd_vector_now := 1700000001401;
     rd_vector_random := 417 |}.

(** A baseline snapshot that is itself the child of [snap-root]. *)
Definition baseline_snapshot : Snapshot :=
  {| snapshot_id := "snap-base";
     snap_project_path := "/repo";
     git_commit := "1111111aaaa";
     snap_git_branch := "main";
     workflow_id := "wf-1";
     workflow_goal := AUDIT;
     analysis_mode := INCREMENTAL;
     baseline_snapshot_id := Some "snap-root";
     chunk_manifest := [];
     findings := ["f1"];
     trust_score := perfect_score;
     duration_seconds := 3;
     created_at := "2026-10-31T08:00:00.000Z";
     provenance_chain := ["snap-root"; "snap-base"] |}.

Definition baseline_store : StoreState :=
  [{| entry_key := KNum 1699999999000123;
      entry_vector := [];
      entry_payload :=
        snapshot_payload baseline_snapshot
          (buildSnapshotSearchText baseline_snapshot) 1699999999000123 |}].





(** A merge onto [snap-base] with nothing relocated. *)
Definition merge_onto_baseline : SnapshotMergeParams :=
  {| smp_baseline_snapshot_id := "snap-base";
     smp_delta_envelope_ids := ["e1"];
     smp_relocation_results :=
       [("f1", plain_result PRESERVED EXACT_MATCH 1)];
     smp_target_commit := "2222222bbbb";
     smp_project_path := "/repo";
     smp_conflict_strategy := None;
     smp_workflow_id := "wf-2";
     smp_workflow_goal := AUDIT |}.

Definition create_on_baseline : SnapshotCreateParams :=
  {| scp_project_path := "/repo";
     scp_git_commit := "2222222bbbb";
     scp_git_branch := "main";
     scp_workflow_id := "wf-2";
     scp_workflow_goal := AUDIT;
     scp_analysis_mode := INCREMENTAL;
     scp_baseline_snapshot_id := Some "snap-base";
     scp_chunk_manifest := [];
     scp_findings := ["f1"; "e1"];
     scp_trust_score := perfect_score;
     scp_duration_seconds := None |}.


(** A relocation by EXACT, then DRIFT, that accepts any confidence. *)
Definition relocate_exact_any : FindingRelocateParams :=
  {| frp_finding_id := "f1";
     frp_target_commit := "2222222bbbb";
     frp_project_path := "/repo";
     frp_strategies := Some [EXACT; DRIFT];
     frp_min_confidence := Some 0;
     frp_delta_manifest := None |}.

(** A relocation with the default strategies that accepts any confidence. *)
Definition relocate_default_any : FindingRelocateParams :=
  {| frp_finding_id := "f1";
     frp_target_commit := "2222222bbbb";
     frp_project_path := "/repo";
     frp_strategies := None;
     frp_min_confidence := Some 0;
     frp_delta_manifest := None |}.

Definition empty_manifest : DeltaManifest :=
  {| dm_baseline_snapshot_id := "snap-base";
     dm_target_commit := "2222222bbbb";
     dm_changed_files := [];
     dm_affected_chunks := [];
     dm_cascade_affected := [];
     dm_semantic_affected := [];
     dm_recommendation := REC_NO_CHANGES;
     dm_estimated_savings := "100%" |}.

(** A relocation with all defaults and a delta manifest. *)
Definition relocate_with_manifest : FindingRelocateParams :=
  {| frp_finding_id := "f1";
     frp_target_commit := "2222222bbbb";
     frp_project_path := "/repo";
     frp_strategies := None;
     frp_min_confidence := None;
     frp_delta_manifest := Some empty_manifest |}.

(** A relocation with all defaults and no delta manifest. *)
Definition relocate_plain : FindingRelocateParams :=
  {| frp_finding_id := "f1";
     frp_target_commit := "2222222bbbb";
     frp_project_path := "/repo";
     frp_strategies := None;
     frp_min_confidence := None;
     frp_delta_manifest := None |}.


Definition import_edge (from to : string) (w : Q) : GraphEdge :=
  {| source := from; target := to; edge_type := IMPORTS;
     weight := Some w; edge_confidence := None; primary := None |}.

Definition similar_edge (from to : string) (c : Q) : GraphEdge :=
  {| source := from; target := to; edge_type := SIMILAR_TO;
     weight := None; edge_confidence := Some c; primary := None |}.

Definition graph_args (op : GraphOperation) (e : option GraphEdge)
  : GraphUpdateParams :=
  {| gup_project_path := "/repo"; gup_operation := op; gup_node := None;
     gup_node_id := None; gup_edge := e; gup_bulk_nodes := None;
     gup_bulk_edges := None; gup_commit := "2222222bbbb" |}.

Definition stored_edge (e : GraphEdge) (id : Z) : Entry :=
  new_entry [] id (edge_payload (graph_args add_edge (Some e)) e id).

(** The graph of the scenario: A imports B with weight 3, B imports C with
    weight 1. *)
Definition scenario_graph : StoreState :=
  [stored_edge (import_edge "A" "B" 3) 1700000000000001;
   stored_edge (import_edge "B" "C" 1) 1700000000001002].

Definition propagate_args (depth : option nat) : GraphPropagateParams :=
  {| gpp_project_path := "/repo";
     gpp_dirty_chunks := ["A"];
     gpp_max_depth := depth;
     gpp_edge_types := None;
     gpp_min_edge_weight := Some 2;
     gpp_enable_semantic_ripple := Some true;
     gpp_similarity_threshold := Some (8 # 10) |}.

(** A graph with one similarity edge from A, of confidence 0.9. *)
Definition similarity_graph : StoreState :=
  [stored_edge (similar_edge "A" "X" (9 # 10)) 1700000000000001].

Definition readings_at (now random : Z) : VectorIdReadings :=
  {| vr_now := fun _ => now; vr_random := fun _ => random |}.

Definition feature_branch : AnalysisBranch :=
  {| branch_id := "ab-feature-x-k3j9qa";
     git_branch := "feature/x";
     base_git_branch := "main";
     fork_point_commit := "";
     snapshots := [];
     branch_created_at := "2026-10-31T08:00:00.000Z";
     branch_updated_at := "2026-10-31T08:00:00.000Z" |}.

Definition create_feature : BranchManageParams :=
  {| bmp_project_path := "/repo";
     bmp_operation := op_create;
     bmp_git_branch := Some "feature/x";
     bmp_base_git_branch := None;
     bmp_analysis_branch_id := None;
     bmp_new_base_snapshot_id := None |}.

(** A store that already holds an analysis branch for [feature/x]. *)
Definition branch_store : StoreState :=
  [new_entry [] 1699999999000555
     (branch_payload create_feature feature_branch
        "branch:feature/x base:main project:/repo" 1699999999000555)].

Definition branch_readings : BranchReadings :=
  {| br_random_tag := "z81mpd";
     br_timestamp := "2026-11-01T19:26:05.123Z";
     br_vector_now := 1700000001401;
     br_vector_random := 417;
     br_now := 1700000001500 |}.

(** What the scanning store returns for the scenario graph. *)
Definition scenario_hits (chunkId : string) : list Hit :=
  match search_results (propagate_args (Some 3%nat)) scan_store fake_embedder
          scenario_graph chunkId with
  | Ok l => l
  | Throw _ => []
  end.




(** ** Further vocabulary *)


(** A strategy that pushes an entry on the trace when it runs: all but
    SEMANTIC without the store or the embedder. *)
Definition pushes (store : option VectorStore) (embedder : option Embedder)
  (s : RelocationStrategy) : bool :=
  match s with
  | SEMANTIC =>
      match store, embedder with
      | Some _, Some _ => true
      | _, _ => false
      end
  | _ => true
  end.

(** The shape of a cascade chain record: one hop from a dirty chunk. *)
Definition chain_shape (dirty : list string) (c : CascadeChain) : Prop :=
  depth c = 1%nat
  /\ path c = [source_chunk c; affected_chunk c]
  /\ In (source_chunk c) dirty
  /\ length (chain_edge_types c) = 1%nat.

(** What the chain log and the counters of a traversal keep in step with
    the affected set. *)
Definition chains_ok (dirty : list string) (t : Traversal) : Prop :=
  map affected_chunk (cascadeChains t) = cascadeAffected t
  /\ (forall x, In x (cascadeAffected t) -> In x (visited t))
  /\ Forall (chain_shape dirty) (cascadeChains t)
  /\ edgesTraversed t = length (cascadeAffected t)
  /\ (edgesTraversed t <= nodesVisited t)%nat.

(** A character of [a-z0-9-]. *)
Definition lower_alnum_or_dash (c : ascii) : bool :=
  let n := nat_of_ascii c in
  ((97 <=? n) && (n <=? 122) || (48 <=? n) && (n <=? 57) || (n =? 45))%nat%bool.

Fixpoint string_forallb (f : ascii -> bool) (s : string) : bool :=
  match s with
  | EmptyString => true
  | String c rest => (f c && string_forallb f rest)%bool
  end.





(** One character through [replace(/[^a-zA-Z0-9-]/g, '-').toLowerCase()]. *)
Definition sanitize_char (c : ascii) : ascii :=
  to_lower (if is_alnum_or_dash c then c else "-"%char).

(** A payload that is a branch record of a project. *)
Definition project_branch (project : string) (p : Payload) : Prop :=
  memoryType p = "branch" /\ project_path p = Some project.

Definition branch_args (op : BranchOperation) (gitBranch id base : option string)
  : BranchManageParams :=
  {| bmp_project_path := "/repo";
     bmp_operation := op;
     bmp_git_branch := gitBranch;
     bmp_base_git_branch := None;
     bmp_analysis_branch_id := id;
     bmp_new_base_snapshot_id := base |}.

(** ** Envelope tools ([envelope-tools.ts]) *)

Inductive ValidationStatus := V_PENDING | V_VERIFIED | V_PARTIAL | V_REJECTED.

(** The findings object of an envelope: its own keys and its
    [JSON.stringify] rendering, the two things the tools read of it. *)
Record EnvelopeFindings := {
  finding_keys : list string;
  findings_json : string
}.

(** [workflow_goal] and [confidence] arrive as strings and are checked
    against the lists of valid names. *)
Record EnvelopeStoreParams := {
  esp_tier : Q;
  esp_agent : string;
  esp_project : string;
  esp_workflow_id : string;
  esp_workflow_goal : string;
  esp_chunk_id : string;
  esp_chunk_index : Z;
  esp_total_chunks : Z;
  esp_git_commit : string;
  esp_confidence : string;
  esp_findings : option EnvelopeFindings;
  esp_findings_count : option Z;
  esp_chunk_path : option string;
  esp_git_branch : option string;
  esp_external_refs : option (list string)
}.

Record Envelope := {
  envelope_id : string;
  env_tier : Q;
  env_agent : string;
  env_project : string;
  env_workflow_id : string;
  env_workflow_goal : string;
  env_chunk_id : string;
  env_chunk_index : Z;
  env_total_chunks : Z;
  env_chunk_path : option string;
  env_git_commit : string;
  env_git_branch : option string;
  env_confidence : string;
  validation_status : ValidationStatus;
  env_findings : EnvelopeFindings;
  findings_count : Z;
  external_refs : option (list string);
  env_created_at : string;
  env_updated_at : string
}.

(** The failures of the envelope store tool.  The first five are the
    messages of [validateEnvelopeParams] ("Invalid workflow_goal. ...",
    "Invalid confidence. ...", "tier must be an integer between 0 and 8",
    "chunk_index (i) must be less than total_chunks (n)", "findings cannot
    be empty"); [NoVectorStore] is "Vector store not available"; [Thrown]
    carries the message of a caught exception. *)
Inductive EnvelopeError :=
| InvalidGoal
| InvalidConfidence
| TierOutOfRange
| ChunkIndexTooLarge (chunk_index total_chunks : Z)
| EmptyFindings
| NoVectorStore
| Thrown (msg : string).

Definition validGoals : list string := ["AUDIT"; "DOCUMENT"; "BUILD_FRONTEND"].

Definition validConfidence : list string := ["HIGH"; "MEDIUM"; "LOW"].

(** [list.includes(x)]. *)
Definition includes (l : list string) (x : string) : bool :=
  existsb (String.eqb x) l.

(** [!params.findings || Object.keys(params.findings).length === 0]. *)
Definition findings_empty (f : option EnvelopeFindings) : bool :=
  match f with
  | None => true
  | Some f => Nat.eqb (length (finding_keys f)) 0
  end.

(** [validateEnvelopeParams]: [None] is [{ valid: true }], [Some e] is
    [{ valid: false, error }]. *)
Definition validateEnvelopeParams (params : EnvelopeStoreParams)
  : option EnvelopeError :=
  if negb (includes validGoals (esp_workflow_goal params)) then
    Some InvalidGoal
  else if negb (includes validConfidence (esp_confidence params)) then
    Some InvalidConfidence
  else if (negb (Qle_bool 0 (esp_tier params))
           || negb (Qle_bool (esp_tier params) 8))%bool then
    Some TierOutOfRange
  else if (esp_total_chunks params <=? esp_chunk_index params)%Z then
    Some (ChunkIndexTooLarge (esp_chunk_index params)
            (esp_total_chunks params))
  else if findings_empty (esp_findings params) then Some EmptyFindings
  else None.

(** [generateEnvelopeId()]. *)
Definition generateEnvelopeId (iso random : string) : string :=
  "env-" +++ slice0 14 (strip_date_marks iso) +++ "-" +++ random.

Definition buildEnvelopeSearchText (e : Envelope) : string :=
  let parts := [] in
  let parts := if truthy (env_agent e)
               then parts ++ ["agent:" +++ env_agent e] else parts in
  let parts := if truthy (env_workflow_goal e)
               then parts ++ ["goal:" +++ env_workflow_goal e] else parts in
  let parts := if truthy (env_chunk_id e)
               then parts ++ ["chunk:" +++ env_chunk_id e] else parts in
  let parts := if truthy (env_project e)
               then parts ++ ["project:" +++ env_project e] else parts in
  let parts := parts ++ [slice0 500 (findings_json (env_findings e))] in
  join " " parts.

(** The stored payload: the envelope's fields, [text], [memoryType],
    [version] and [vector_id].  An envelope has a [project] field and no
    [project_path], a [git_commit] and no [commit]. *)
Definition envelope_payload (e : Envelope) (searchText : string)
  (vectorId : Z) : Payload :=
  {| memoryType := "envelope";
     recordType := None;
     project_path := None;
     commit := None;
     text := Some searchText;
     version := 2;
     vector_id := vectorId;
     body := EnvelopeBody (envelope_id e) |}.

Record EnvelopeReadings := {
  er_id_date : string;     (* new Date() inside generateEnvelopeId *)
  er_random_tag : string;  (* Math.random().toString(36).substring(2, 8) *)
  er_timestamp : string;   (* new Date().toISOString() *)
  er_vector_now : Z;
  er_vector_random : Z
}.

Record EnvelopeStoreResponse := {
  esr_success : bool;
  esr_error : option EnvelopeError;
  esr_envelope_id : option string;
  esr_envelope : option Envelope;
  esr_stored : bool;
  esr_warning : option string
}.

Definition envelope_failure (e : EnvelopeError) : EnvelopeStoreResponse :=
  {| esr_success := false; esr_error := Some e; esr_envelope_id := None;
     esr_envelope := None; esr_stored := false; esr_warning := None |}.

Definition envelope_stored (e : Envelope) (warning : option string)
  : EnvelopeStoreResponse :=
  {| esr_success := true; esr_error := None;
     esr_envelope_id := Some (envelope_id e); esr_envelope := Some e;
     esr_stored := true; esr_warning := warning |}.

Definition build_envelope (args : EnvelopeStoreParams)
  (findings : EnvelopeFindings) (rd : EnvelopeReadings) : Envelope :=
  {| envelope_id := generateEnvelopeId (er_id_date rd) (er_random_tag rd);
     env_tier := esp_tier args;
     env_agent := esp_agent args;
     env_project := esp_project args;
     env_workflow_id := esp_workflow_id args;
     env_workflow_goal := esp_workflow_goal args;
     env_chunk_id := esp_chunk_id args;
     env_chunk_index := esp_chunk_index args;
     env_total_chunks := esp_total_chunks args;
     env_chunk_path := esp_chunk_path args;
     env_git_commit := esp_git_commit args;
     env_git_branch := esp_git_branch args;
     env_confidence := esp_confidence args;
     validation_status := V_PENDING;
     env_findings := findings;
     findings_count :=
       match esp_findings_count args with
       | Some n => n
       | None => Z.of_nat (length (finding_keys findings))
       end;
     external_refs := esp_external_refs args;
     env_created_at := er_timestamp rd;
     env_updated_at := er_timestamp rd |}.

Definition envelopeStore_body (args : EnvelopeStoreParams)
  (context : InternalToolContext) (rd : EnvelopeReadings)
  : M EnvelopeStoreResponse :=
  match validateEnvelopeParams args with
  | Some e => ret (envelope_failure e)
  | None =>
      match esp_findings args with
      | None => ret (envelope_failure EmptyFindings)
      | Some findings =>
          let envelope := build_envelope args findings rd in
          let searchText := buildEnvelopeSearchText envelope in
          match vectorStoreManager context, embeddingManager context with
          | Some vsm, Some em =>
              store <- lift (knowledge_store vsm) ;;
              match store with
              | None => ret (envelope_failure NoVectorStore)
              | Some _ =>
                  match getEmbedder_default em with
                  | None =>
                      ret (envelope_stored envelope
                             (Some "Stored without vector embedding (no embedder)"))
                  | Some embedder =>
                      embedding <- lift (embed embedder searchText) ;;
                      let vectorId :=
                        generateNumericVectorId (er_vector_now rd)
                          (er_vector_random rd) 0 in
                      store_insert embedding vectorId
                        (envelope_payload envelope searchText vectorId) ;;;
                      ret (envelope_stored envelope None)
                  end
              end
          | _, _ =>
              ret (envelope_stored envelope
                     (Some "Stored without vector embedding (services unavailable)"))
          end
      end
  end.

Definition envelopeStore (args : EnvelopeStoreParams)
  (context : InternalToolContext) (rd : EnvelopeReadings)
  : StoreState -> EnvelopeStoreResponse * StoreState :=
  try_catch (envelopeStore_body args context rd)
    (fun msg => envelope_failure (Thrown msg)).

(** [p.envelope_id], [None] on a payload that has no such field. *)
Definition payload_envelope_id (p : Payload) : option string :=
  match body p with
  | EnvelopeBody id => Some id
  | _ => None
  end.

(** The predicate of [results.find(...)] in the get and delete tools. *)
Definition is_envelope (id : string) (h : Hit) : bool :=
  (str_eq (memoryType (hit_payload h)) "envelope"
   && match payload_envelope_id (hit_payload h) with
      | Some i => str_eq i id
      | None => false
      end)%bool.

(** The answers of [envelopeGetTool]. *)
Inductive EnvelopeGetResponse :=
| GetFailure (msg : string)   (* success: false, found: false *)
| GetNotFound (id : string)   (* success: true, found: false *)
| GetFound (envelope : Payload).

Definition envelopeGet_body (envelope_id : string)
  (context : InternalToolContext) : M EnvelopeGetResponse :=
  match vectorStoreManager context, embeddingManager context with
  | Some vsm, Some em =>
      store <- lift (knowledge_store vsm) ;;
      match store with
      | None => ret (GetFailure "Vector store not available")
      | Some store =>
          match getEmbedder_default em with
          | None => ret (GetFailure "Embedder not available")
          | Some embedder =>
              idEmbedding <- lift (embed embedder envelope_id) ;;
              results <- store_search store idEmbedding 50 ;;
              match find (is_envelope envelope_id) results with
              | None => ret (GetNotFound envelope_id)
              | Some exactMatch => ret (GetFound (hit_payload exactMatch))
              end
          end
      end
  | _, _ => ret (GetFailure "Vector store not available")
  end.

Definition envelopeGet (envelope_id : string) (context : InternalToolContext)
  : StoreState -> EnvelopeGetResponse * StoreState :=
  try_catch (envelopeGet_body envelope_id context) GetFailure.

(** The answers of [envelopeDeleteTool]: a failure, with the envelope id
    where the source reports it, or the deletion with the vector id. *)
Inductive EnvelopeDeleteResponse :=
| DeleteFailure (envelope_id : option string) (msg : string)
| Deleted (envelope_id : string) (vector_id : Z).

Definition envelopeDelete_body (envelope_id : string)
  (context : InternalToolContext) : M EnvelopeDeleteResponse :=
  match vectorStoreManager context, embeddingManager context with
  | Some vsm, Some em =>
      store <- lift (knowledge_store vsm) ;;
      match store with
      | None => ret (DeleteFailure None "Vector store not available")
      | Some store =>
          match getEmbedder_default em with
          | None => ret (DeleteFailure None "Embedder not available")
          | Some embedder =>
              idEmbedding <- lift (embed embedder envelope_id) ;;
              results <- store_search store idEmbedding 100 ;;
              match find (is_envelope envelope_id) results with
              | None =>
                  ret (DeleteFailure (Some envelope_id) "Envelope not found")
              | Some exactMatch =>
                  let vectorId := vector_id (hit_payload exactMatch) in
                  if Z.eqb vectorId 0 then
                    ret (DeleteFailure (Some envelope_id)
                           "Envelope has no vector_id - cannot delete")
                  else
                    store_delete (KNum vectorId) ;;;
                    ret (Deleted envelope_id vectorId)
              end
          end
      end
  | _, _ =>
      ret (DeleteFailure None
             "Vector store or embedding manager not available")
  end.

Definition envelopeDelete (envelope_id : string)
  (context : InternalToolContext)
  : StoreState -> EnvelopeDeleteResponse * StoreState :=
  try_catch (envelopeDelete_body envelope_id context)
    (DeleteFailure (Some envelope_id)).

(** ** Fixtures of the envelope runs *)

(** The double quote character. *)
Definition dq : string := String (ascii_of_nat 34) EmptyString.

Definition sample_findings : EnvelopeFindings :=
  {| finding_keys := ["issues"];
     findings_json := "{" +++ dq +++ "issues" +++ dq +++ ":[]}" |}.

Definition sample_envelope_args (tier : Q) (index total : Z)
  : EnvelopeStoreParams :=
  {| esp_tier := tier;
     esp_agent := "auditor";
     esp_project := "/repo";
     esp_workflow_id := "wf-1";
     esp_workflow_goal := "AUDIT";
     esp_chunk_id := "chunk-1";
     esp_chunk_index := index;
     esp_total_chunks := total;
     esp_git_commit := "2222222bbbb";
     esp_confidence := "HIGH";
     esp_findings := Some sample_findings;
     esp_findings_count := None;
     esp_chunk_path := None;
     esp_git_branch := None;
     esp_external_refs := None |}.

Definition envelope_readings : EnvelopeReadings :=
  {| er_id_date := "2026-11-01T19:26:05.123Z";
     er_random_tag := "q7x2ab";
     er_timestamp := "2026-11-01T19:26:05.124Z";
     er_vector_now := 1700000001401;
     er_vector_random := 417 |}.

(** ** Snapshot queries ([snapshotQueryTool]) *)

Inductive SnapshotQueryType :=
| by_id | latest_for_branch | by_commit | by_date_range | q_provenance_chain.

(** [limit] is a count, a natural number here. *)
Record SnapshotQueryParams := {
  sqp_project_path : string;
  sqp_query_type : SnapshotQueryType;
  sqp_snapshot_id : option string;
  sqp_branch : option string;
  sqp_commit : option string;
  sqp_start_date : option string;
  sqp_end_date : option string;
  sqp_include_findings : option bool;
  sqp_limit : option nat
}.

(** [a === b] on fields that may be [undefined]. *)
Definition opt_str_eq (a b : option string) : bool :=
  match a, b with
  | Some x, Some y => str_eq x y
  | None, None => true
  | _, _ => false
  end.

(** The fields of a payload the query reads.  Snapshot records have them
    all; a branch record has [git_branch] and [created_at]; node and edge
    records have none.  An envelope record is kept by its id alone
    ([EnvelopeBody]), so its [git_branch], [git_commit], [created_at] and
    [findings] cannot be read here; the query passes over every payload
    whose [memoryType] is not 'snapshot', and the envelope tool writes
    'envelope'. *)
Definition payload_snapshot_id (p : Payload) : option string :=
  match body p with
  | SnapshotBody s => Some (snapshot_id s)
  | _ => None
  end.

Definition payload_git_branch (p : Payload) : option string :=
  match body p with
  | SnapshotBody s => Some (snap_git_branch s)
  | BranchBody b => Some (git_branch b)
  | _ => None
  end.

Definition payload_git_commit (p : Payload) : option string :=
  match body p with
  | SnapshotBody s => Some (git_commit s)
  | _ => None
  end.

Definition payload_created_at (p : Payload) : option string :=
  match body p with
  | SnapshotBody s => Some (created_at s)
  | BranchBody b => Some (branch_created_at b)
  | _ => None
  end.

Definition payload_findings (p : Payload) : option (list string) :=
  match body p with
  | SnapshotBody s => Some (findings s)
  | _ => None
  end.

Definition payload_provenance_chain (p : Payload) : option (list string) :=
  match body p with
  | SnapshotBody s => Some (provenance_chain s)
  | _ => None
  end.

(** The function [buildFilterFn()] returns. *)
Definition snapshot_filter (args : SnapshotQueryParams) (r : Hit) : bool :=
  let p := hit_payload r in
  if negb (str_eq (memoryType p) "snapshot") then false
  else if negb (opt_str_eq (project_path p) (Some (sqp_project_path args)))
  then false
  else if match sqp_query_type args with
          | by_id =>
              negb (opt_str_eq (payload_snapshot_id p) (sqp_snapshot_id args))
          | _ => false
          end then false
  else if match sqp_query_type args with
          | latest_for_branch =>
              negb (opt_str_eq (payload_git_branch p) (sqp_branch args))
          | _ => false
          end then false
  else if match sqp_query_type args with
          | by_commit =>
              negb (opt_str_eq (payload_git_commit p) (sqp_commit args))
          | _ => false
          end then false
  else true.

(** What the [map] after the filter returns for a result: the payload as
    stored, or [{...snapshot, findings_count: n, findings: undefined}]. *)
Inductive SnapshotItem :=
| Whole (p : Payload)
| Stripped (p : Payload) (findings_count : nat).

Definition item_payload (i : SnapshotItem) : Payload :=
  match i with
  | Whole p => p
  | Stripped p _ => p
  end.

(** [!args.include_findings && snapshot.findings]: an array is truthy, also
    when it is empty. *)
Definition query_item (args : SnapshotQueryParams) (r : Hit) : SnapshotItem :=
  let snapshot := hit_payload r in
  let include_findings :=
    match sqp_include_findings args with
    | Some b => b
    | None => false
    end in
  match payload_findings snapshot with
  | Some fs =>
      if negb include_findings then Stripped snapshot (length fs)
      else Whole snapshot
  | None => Whole snapshot
  end.

(** [targetSnapshot.provenance_chain || [targetSnapshot.snapshot_id]]; the
    id of a record without one is [undefined]. *)
Definition item_chain (i : SnapshotItem) : list (option string) :=
  match payload_provenance_chain (item_payload i) with
  | Some chain => map Some chain
  | None => [payload_snapshot_id (item_payload i)]
  end.

(** [new Date(x.created_at).getTime()], [None] for [NaN]; [getTime] is the
    date parser of the platform. *)
Definition item_time (getTime : string -> option Z) (i : SnapshotItem)
  : option Z :=
  match payload_created_at (item_payload i) with
  | Some s => getTime s
  | None => None
  end.

(** The comparator [(a, b) => time(b) - time(a)]; a [NaN] difference counts
    as 0 in a sort. *)
Definition newest_first (getTime : string -> option Z) (a b : SnapshotItem)
  : Z :=
  match item_time getTime b, item_time getTime a with
  | Some tb, Some ta => (tb - ta)%Z
  | _, _ => 0%Z
  end.

(** [Array.prototype.sort(cmp)]: a stable sort, here by insertion.  For a
    comparator that is not a consistent order the result depends on the
    engine; the model then still is the insertion sort. *)
Fixpoint sort_insert {A} (cmp : A -> A -> Z) (x : A) (l : list A) : list A :=
  match l with
  | [] => [x]
  | y :: rest =>
      if (cmp y x <=? 0)%Z then y :: sort_insert cmp x rest
      else x :: y :: rest
  end.

Definition Array_sort {A} (cmp : A -> A -> Z) (l : list A) : list A :=
  fold_left (fun acc x => sort_insert cmp x acc) l [].

Record SnapshotQueryResponse := {
  sqr_success : bool;
  sqr_error : option string;
  sqr_provenance_chain : option (list (option string));
  sqr_snapshots : list SnapshotItem;
  sqr_count : nat;
  sqr_total_available : option nat
}.

Definition query_failure (msg : string) : SnapshotQueryResponse :=
  {| sqr_success := false; sqr_error := Some msg;
     sqr_provenance_chain := None; sqr_snapshots := []; sqr_count := 0;
     sqr_total_available := None |}.

(** The [switch (args.query_type)]: the early return of a query that lacks
    its argument, or else the text to embed. *)
Definition query_text (args : SnapshotQueryParams)
  : SnapshotQueryResponse + string :=
  let queryText := "project:" +++ sqp_project_path args in
  match sqp_query_type args with
  | by_id =>
      match present (sqp_snapshot_id args) with
      | None => inl (query_failure "snapshot_id required for by_id query")
      | Some id => inr id
      end
  | latest_for_branch =>
      match present (sqp_branch args) with
      | None =>
          inl (query_failure "branch required for latest_for_branch query")
      | Some b => inr ("branch:" +++ b +++ " " +++ queryText)
      end
  | by_commit =>
      match present (sqp_commit args) with
      | None => inl (query_failure "commit required for by_commit query")
      | Some c => inr ("commit:" +++ c +++ " " +++ queryText)
      end
  | by_date_range => inr (queryText +++ " analysis snapshot")
  | q_provenance_chain =>
      match present (sqp_snapshot_id args) with
      | None =>
          inl (query_failure
                 "snapshot_id required for provenance_chain query")
      | Some id => inr id
      end
  end.

Definition is_provenance_query (t : SnapshotQueryType) : bool :=
  match t with q_provenance_chain => true | _ => false end.

Definition is_latest_query (t : SnapshotQueryType) : bool :=
  match t with latest_for_branch => true | _ => false end.

(** The part of the handler after the search. *)
Definition query_answer (getTime : string -> option Z)
  (args : SnapshotQueryParams) (limit : nat) (rawResults : list Hit)
  : SnapshotQueryResponse :=
  let results := map (query_item args)
                     (filter (snapshot_filter args) rawResults) in
  match is_provenance_query (sqp_query_type args), results with
  | true, targetSnapshot :: _ =>
      {| sqr_success := true; sqr_error := None;
         sqr_provenance_chain := Some (item_chain targetSnapshot);
         sqr_snapshots := firstn 1 results;
         sqr_count := 1;
         sqr_total_available := None |}
  | _, _ =>
      let results :=
        if is_latest_query (sqp_query_type args)
        then firstn 1 (Array_sort (newest_first getTime) results)
        else results in
      {| sqr_success := true; sqr_error := None;
         sqr_provenance_chain := None;
         sqr_snapshots := firstn limit results;
         sqr_count := Nat.min (length results) limit;
         sqr_total_available := Some (length results) |}
  end.

Local Open Scope handler_scope.

Definition snapshotQuery_body (getTime : string -> option Z)
  (args : SnapshotQueryParams) (context : InternalToolContext)
  : M SnapshotQueryResponse :=
  match vectorStoreManager context, embeddingManager context with
  | Some vsm, Some em =>
      store <- lift (knowledge_store vsm) ;;
      match store with
      | None => ret (query_failure "Vector store not available")
      | Some store =>
          match getEmbedder_default em with
          | None => ret (query_failure "Embedder not available")
          | Some embedder =>
              let limit := match sqp_limit args with
                           | Some l => l | None => 10%nat end in
              match query_text args with
              | inl early => ret early
              | inr queryText =>
                  embedding <- lift (embed embedder queryText) ;;
                  rawResults <- store_search store embedding (limit * 3) ;;
                  ret (query_answer getTime args limit rawResults)
              end
          end
      end
  | _, _ => ret (query_failure "Vector store not available")
  end.

Definition snapshotQuery (getTime : string -> option Z)
  (args : SnapshotQueryParams) (context : InternalToolContext)
  : StoreState -> SnapshotQueryResponse * StoreState :=
  try_catch (snapshotQuery_body getTime args context) query_failure.

(** What the filter lets through. *)
Definition answers_query (args : SnapshotQueryParams) (p : Payload) : Prop :=
  memoryType p = "snapshot"
  /\ project_path p = Some (sqp_project_path args)
  /\ (sqp_query_type args = by_id ->
      payload_snapshot_id p = sqp_snapshot_id args)
  /\ (sqp_query_type args = latest_for_branch ->
      payload_git_branch p = sqp_branch args)
  /\ (sqp_query_type args = by_commit ->
      payload_git_commit p = sqp_commit args).

(** The head of a list is a greatest element for [t]. *)
Definition top_first {A} (t : A -> Z) (l : list A) : Prop :=
  match l with
  | [] => True
  | h :: _ => forall x, In x l -> (t x <= t h)%Z
  end.

(** ** Delta computation ([deltaComputeTool]) *)

Record DeltaComputeParams := {
  dcp_project : string;
  dcp_baseline_snapshot_id : string;
  dcp_target_commit : option string;
  dcp_cascade_depth : option nat;
  dcp_enable_semantic_ripple : option bool;
  dcp_similarity_threshold : option Q
}.

(** The answers of [deltaComputeTool]: a failure, or the manifest with the
    fields the handler repeats beside it. *)
Inductive DeltaComputeResponse :=
| DeltaFailure (msg : string)
| DeltaComputed (delta_manifest : DeltaManifest)
    (recommendation : Recommendation) (affected_chunks : list string)
    (cascade_chains : list CascadeChain) (estimated_savings : string).

(** The predicate of [rawResults.filter(...)]: a snapshot with the baseline
    id, of whatever project. *)
Definition is_baseline (id : string) (r : Hit) : bool :=
  let p := hit_payload r in
  (str_eq (memoryType p) "snapshot"
   && opt_str_eq (payload_snapshot_id p) (Some id))%bool.

Definition placeholder_manifest (args : DeltaComputeParams) : DeltaManifest :=
  let targetCommit := match dcp_target_commit args with
                      | Some c => c | None => "HEAD" end in
  {| dm_baseline_snapshot_id := dcp_baseline_snapshot_id args;
     dm_target_commit := targetCommit;
     dm_changed_files := [];
     dm_affected_chunks := [];
     dm_cascade_affected := [];
     dm_semantic_affected := [];
     dm_recommendation := REC_NO_CHANGES;
     dm_estimated_savings := "100%" |}.

Definition delta_done (deltaManifest : DeltaManifest) : DeltaComputeResponse :=
  DeltaComputed deltaManifest (dm_recommendation deltaManifest)
    (dm_affected_chunks deltaManifest) [] (dm_estimated_savings deltaManifest).

Definition deltaCompute_body (args : DeltaComputeParams)
  (context : InternalToolContext) : M DeltaComputeResponse :=
  let embedder := default_embedder (embeddingManager context) in
  let deltaManifest := placeholder_manifest args in
  match vectorStoreManager context, embeddingManager context, embedder with
  | Some vsm, Some _, Some embedder =>
      store <- lift (knowledge_store vsm) ;;
      match store with
      | Some store =>
          baselineQuery <-
            lift (embed embedder (dcp_baseline_snapshot_id args)) ;;
          rawResults <- store_search store baselineQuery 10 ;;
          match filter (is_baseline (dcp_baseline_snapshot_id args))
                       rawResults with
          | [] =>
              ret (DeltaFailure ("Baseline snapshot not found: "
                                 +++ dcp_baseline_snapshot_id args))
          | _ :: _ => ret (delta_done deltaManifest)
          end
      | None => ret (delta_done deltaManifest)
      end
  | _, _, _ => ret (delta_done deltaManifest)
  end.

Definition deltaCompute (args : DeltaComputeParams)
  (context : InternalToolContext)
  : StoreState -> DeltaComputeResponse * StoreState :=
  try_catch (deltaCompute_body args context) DeltaFailure.

(** ** Sessions: the tools called one after another on one store *)





(** ** Fixtures of the query and delta runs *)

(** A date parser for the fixtures: month and day of a [2026-MM-DD...]
    stamp as the number [MMDD]. *)
Definition digit_at (n : nat) (s : string) : option Z :=
  match String.get n s with
  | Some c => Some (Z.of_nat (nat_of_ascii c - 48))
  | None => None
  end.

Definition stamp_number (s : string) : option Z :=
  match digit_at 5 s, digit_at 6 s, digit_at 8 s, digit_at 9 s with
  | Some a, Some b, Some c, Some d =>
      Some (a * 1000 + b * 100 + c * 10 + d)%Z
  | _, _, _, _ => None
  end.

Definition query_args (t : SnapshotQueryType) (id branch : option string)
  : SnapshotQueryParams :=
  {| sqp_project_path := "/repo"; sqp_query_type := t;
     sqp_snapshot_id := id; sqp_branch := branch; sqp_commit := None;
     sqp_start_date := None; sqp_end_date := None;
     sqp_include_findings := None; sqp_limit := None |}.

(** The query with other dates. *)
Definition with_dates (args : SnapshotQueryParams)
  (start_date end_date : option string) : SnapshotQueryParams :=
  {| sqp_project_path := sqp_project_path args;
     sqp_query_type := sqp_query_type args;
     sqp_snapshot_id := sqp_snapshot_id args;
     sqp_branch := sqp_branch args;
     sqp_commit := sqp_commit args;
     sqp_start_date := start_date;
     sqp_end_date := end_date;
     sqp_include_findings := sqp_include_findings args;
     sqp_limit := sqp_limit args |}.

Definition later_snapshot : Snapshot :=
  {| snapshot_id := "snap-later";
     snap_project_path := "/repo";
     git_commit := "2222222bbbb";
     snap_git_branch := "main";
     workflow_id := "wf-2";
     workflow_goal := AUDIT;
     analysis_mode := INCREMENTAL;
     baseline_snapshot_id := Some "snap-base";
     chunk_manifest := [];
     findings := ["f1"; "f2"];
     trust_score := perfect_score;
     duration_seconds := 2;
     created_at := "2026-11-01T09:30:00.000Z";
     provenance_chain := ["snap-base"; "snap-later"] |}.

Definition two_snapshots : StoreState :=
  baseline_store
  ++ [{| entry_key := KNum 1699999999500321;
         entry_vector := [];
         entry_payload :=
           snapshot_payload later_snapshot
             (buildSnapshotSearchText later_snapshot) 1699999999500321 |}].

Definition delta_args (baseline : string) : DeltaComputeParams :=
  {| dcp_project := "/repo"; dcp_baseline_snapshot_id := baseline;
     dcp_target_commit := None; dcp_cascade_depth := None;
     dcp_enable_semantic_ripple := None;
     dcp_similarity_threshold := None |}.
(** * Properties *)

(** ** Trust score *)

Section TrustScore.














(** Scores at a rounding tie and at the thresholds of the levels. *)
Example score_tie_rounds_up :
  overall (computeMixedTrustScore 2 0 1 0 1) == 8
  /\ level (computeMixedTrustScore 2 0 1 0 1) = HIGH.
Proof. split; reflexivity. Qed.

Example score_all_stale :
  overall (computeMixedTrustScore 0 0 3 0 0) == 21 # 10
  /\ level (computeMixedTrustScore 0 0 3 0 0) = LOW.
Proof. split; reflexivity. Qed.

Example score_half_kept :
  overall (computeMixedTrustScore 1 0 1 0 0) == 56 # 10
  /\ level (computeMixedTrustScore 1 0 1 0 0) = MEDIUM.
Proof. split; reflexivity. Qed.

End TrustScore.

(** ** Snapshot merge and create *)

Section SnapshotMerge.



(** Each counter counts the results of its own status. *)
Lemma fold_count_each (l : list RelocationResult) (c : StatusCounts) :
  let c' := fold_left count_status l c in
  n_preserved c' = (n_preserved c + count_with PRESERVED l)%nat
  /\ n_relocated c' = (n_relocated c + count_with RELOCATED l)%nat
  /\ n_stale c' = (n_stale c + count_with STALE l)%nat
  /\ n_orphaned c' = (n_orphaned c + count_with ORPHANED l)%nat.
Proof.
  revert c. induction l as [|r l IH]; intros c; simpl.
  - unfold count_with; simpl. lia.
  - specialize (IH (count_status c r)). simpl in IH.
    destruct IH as (Hp & Hr & Hs & Ho).
    rewrite Hp, Hr, Hs, Ho. unfold count_status, count_with. simpl.
    destruct (status r); simpl; lia.
Qed.





(** What a merge does when the vector services are there. *)
Lemma snapshotMerge_ready (args : SnapshotMergeParams)
  (context : InternalToolContext) (rd : SnapshotReadings) (st : StoreState)
  (v : Vector) :
  let snapshot := merge_snapshot_record args rd in
  let searchText := buildSnapshotSearchText snapshot in
  let vectorId :=
    generateNumericVectorId (rd_vector_now rd) (rd_vector_random rd) 0 in
  services_ready context searchText v ->
  snapshotMerge args context rd st
  = (merge_success (merge_result_record args snapshot),
     kv_insert v vectorId (snapshot_payload snapshot searchText vectorId) st).
Proof.
  intros snapshot searchText vectorId
    (vsm & em & store & embedder & Hv & He & Hs & Hg & Hemb).
  unfold snapshotMerge, try_catch, snapshotMerge_body.
  rewrite Hv, He. unfold bind, lift at 1. rewrite Hs, Hg.
  unfold lift. fold snapshot. fold searchText. rewrite Hemb.
  reflexivity.
Qed.

(** The score a merge returns is the one of its five counts. *)
Lemma merge_trust_score (args : SnapshotMergeParams)
  (context : InternalToolContext) (rd : SnapshotReadings) (st : StoreState)
  (v : Vector) :
  let rr := smp_relocation_results args in
  services_ready context
    (buildSnapshotSearchText (merge_snapshot_record args rd)) v ->
  exists mr,
    smr_result (fst (snapshotMerge args context rd st)) = Some mr
    /\ mr_trust_score mr
       = computeMixedTrustScore
           (count_with PRESERVED (Object_values rr))
           (count_with RELOCATED (Object_values rr))
           (count_with STALE (Object_values rr))
           (count_with ORPHANED (Object_values rr))
           (length (smp_delta_envelope_ids args)).
Proof.
  intros rr Hready.
  rewrite (snapshotMerge_ready args context rd st v Hready).
  eexists. split; [reflexivity|]. simpl.
  pose proof (fold_count_each (Object_values rr)
    {| n_preserved := 0; n_relocated := 0; n_stale := 0; n_orphaned := 0 |})
    as (Hp & Hr & Hs & Ho).
  simpl in Hp, Hr, Hs, Ho. unfold count_statuses. fold rr.
  now rewrite Hp, Hr, Hs, Ho.
Qed.

Lemma services_ready_full (searchText : string) :
  services_ready full_context searchText [].
Proof.
  unfold services_ready, full_context. simpl.
  do 4 eexists. repeat split; reflexivity.
Qed.









End SnapshotMerge.

(** ** Provenance chains *)

Section Provenance.

(** A create call either fails or answers with the record it built. *)
Lemma snapshotCreate_cases (args : SnapshotCreateParams)
  (context : InternalToolContext) (rd : SnapshotReadings) (st : StoreState) :
  let r := fst (snapshotCreate args context rd st) in
  (scr_success r = false /\ scr_snapshot r = None)
  \/ (scr_success r = true
      /\ scr_snapshot r = Some (create_snapshot_record args rd)).
Proof.
  unfold snapshotCreate, try_catch, snapshotCreate_body.
  destruct (vectorStoreManager context) as [vsm|];
    [|right; split; reflexivity].
  destruct (embeddingManager context) as [em|];
    [|right; split; reflexivity].
  unfold bind, lift at 1.
  destruct (knowledge_store vsm) as [[store|]|msg];
    [| left; split; reflexivity | left; split; reflexivity].
  destruct (getEmbedder_default em) as [embedder|];
    [|right; split; reflexivity].
  unfold lift.
  destruct (embed embedder _) as [emb|msg];
    [right | left]; split; reflexivity.
Qed.

Lemma snapshotCreate_no_services (args : SnapshotCreateParams)
  (rd : SnapshotReadings) (st : StoreState) :
  scr_success (fst (snapshotCreate args no_services rd st)) = true.
Proof. reflexivity. Qed.

Lemma create_chain_last (baseline : option string) (id : string) :
  last (create_provenance_chain baseline id) "" = id.
Proof.
  unfold create_provenance_chain.
  destruct baseline as [b|]; [destruct (truthy b)|]; reflexivity.
Qed.

(** C7 (amended).  A merge that finds its vector services stores a snapshot
    whose provenance chain is the two-element list of the baseline id and
    the new id; a create call that succeeds returns a snapshot whose chain
    is the baseline id, when one is given and not empty, followed by the
    new id.  In both the chain ends in the snapshot's own id; the merged
    chain is the baseline's chain with the new id appended exactly when the
    baseline's chain is the single baseline id. *)
Theorem provenance_chain_two_links (margs : SnapshotMergeParams)
  (cargs : SnapshotCreateParams) (context : InternalToolContext)
  (rd : SnapshotReadings) (st : StoreState) (v : Vector) :
  let merged := merge_snapshot_record margs rd in
  let searchText := buildSnapshotSearchText merged in
  let vectorId :=
    generateNumericVectorId (rd_vector_now rd) (rd_vector_random rd) 0 in
  (services_ready context searchText v ->
   exists mr,
     snapshotMerge margs context rd st
     = (merge_success mr,
        kv_insert v vectorId (snapshot_payload merged searchText vectorId) st)
     /\ mr_snapshot_id mr = snapshot_id merged
     /\ provenance_chain merged
        = [smp_baseline_snapshot_id margs; snapshot_id merged]
     /\ forall baseline_chain : list string,
          provenance_chain merged = baseline_chain ++ [snapshot_id merged]
          <-> baseline_chain = [smp_baseline_snapshot_id margs])
  /\ (scr_success (fst (snapshotCreate cargs context rd st)) = true ->
      exists created,
        scr_snapshot (fst (snapshotCreate cargs context rd st)) = Some created
        /\ provenance_chain created
           = match present (scp_baseline_snapshot_id cargs) with
             | Some b => [b; snapshot_id created]
             | None => [snapshot_id created]
             end
        /\ last (provenance_chain created) "" = snapshot_id created).
Proof.
  intros merged searchText vectorId. split.
  - intros Hready. exists (merge_result_record margs merged).
    split; [now apply snapshotMerge_ready|].
    split; [reflexivity|]. split; [reflexivity|].
    intros chain. simpl. split.
    + intros H.
      change [smp_baseline_snapshot_id margs;
              generateSnapshotId (rd_id_date rd) (smp_target_commit margs)]
        with ([smp_baseline_snapshot_id margs]
              ++ [generateSnapshotId (rd_id_date rd)
                    (smp_target_commit margs)]) in H.
      apply app_inj_tail in H. now destruct H as [<- _].
    + intros ->. reflexivity.
  - intros Hok.
    destruct (snapshotCreate_cases cargs context rd st) as [[Hf _] | [_ Hs]].
    + simpl in Hf. rewrite Hf in Hok. discriminate.
    + simpl in Hs. exists (create_snapshot_record cargs rd).
      split; [exact Hs|]. split.
      * simpl. unfold create_provenance_chain, present.
        destruct (scp_baseline_snapshot_id cargs) as [b|];
          [destruct (truthy b)|]; reflexivity.
      * simpl. apply create_chain_last.
Qed.

Lemma provenance_chain_two_links_witness :
  (exists mr st',
     snapshotMerge merge_onto_baseline full_context sample_readings
       baseline_store = (merge_success mr, st')
     /\ provenance_chain (merge_snapshot_record merge_onto_baseline
                            sample_readings)
        = ["snap-base"; "snap-20261101192605-2222222"])
  /\ (exists created,
        scr_snapshot (fst (snapshotCreate create_on_baseline full_context
                             sample_readings baseline_store)) = Some created
        /\ provenance_chain created
           = ["snap-base"; "snap-20261101192605-2222222"]).
Proof.
  destruct (provenance_chain_two_links merge_onto_baseline create_on_baseline
              full_context sample_readings baseline_store [])
    as [Hmerge Hcreate].
  split.
  - destruct Hmerge as (mr & Hrun & _ & Hchain & _).
    + apply services_ready_full.
    + exists mr. eexists. split; [exact Hrun | exact Hchain].
  - destruct Hcreate as (created & Hs & Hchain & _).
    + reflexivity.
    + exists created. split; [exact Hs|].
      rewrite Hchain. simpl in Hs. inversion Hs. reflexivity.
Defined.

(** C7, as stated, fails: the baseline [snap-base] has the chain
    [snap-root; snap-base]; the snapshot merged onto it has the chain
    [snap-base; new id], which drops [snap-root]. *)
Lemma provenance_chain_counterexample :
  find_snapshot baseline_store "/repo" "snap-base" = Some baseline_snapshot
  /\ provenance_chain baseline_snapshot = ["snap-root"; "snap-base"]
  /\ exists mr st' merged,
       snapshotMerge merge_onto_baseline full_context sample_readings
         baseline_store = (merge_success mr, st')
       /\ find_snapshot st' "/repo" (mr_snapshot_id mr) = Some merged
       /\ provenance_chain merged
          = ["snap-base"; "snap-20261101192605-2222222"]
       /\ provenance_chain merged
          <> provenance_chain baseline_snapshot ++ [snapshot_id merged].
Proof.
  split; [reflexivity|]. split; [reflexivity|].
  do 3 eexists. split; [reflexivity|]. split; [reflexivity|].
  split; [reflexivity | discriminate].
Qed.

End Provenance.

(** ** Finding relocation *)

Section Relocation.

Variable args : FindingRelocateParams.
Variable store : option VectorStore.
Variable embedder : option Embedder.

Let minConfidence := min_confidence_of args.

(** No strategy writes to the store. *)
Lemma attempt_reads_only (s : RelocationStrategy) (st : StoreState) :
  snd (attempt args store embedder minConfidence s st) = st.
Proof.
  destruct s; simpl; try reflexivity.
  - destruct (frp_delta_manifest args); reflexivity.
  - destruct store as [vs|]; [|reflexivity].
    destruct embedder as [em|]; [|reflexivity].
    unfold semantic_attempt, bind, lift, store_search.
    destruct (embed em _) as [emb|msg]; [|reflexivity].
    destruct (search vs st emb 20) as [raw|msg]; [|reflexivity].
    destruct (filter _ raw) as [|first rest]; [reflexivity|].
    destruct (negb _); reflexivity.
Qed.

Lemma attempt_split (s : RelocationStrategy) (st : StoreState) :
  attempt args store embedder minConfidence s st
  = (attempt_in args store embedder st s, st).
Proof.
  unfold attempt_in. fold minConfidence.
  rewrite <- (attempt_reads_only s st) at 3.
  now destruct (attempt args store embedder minConfidence s st).
Qed.

(** The candidates a strategy can leave: the untouched locals, the drift
    match, or a semantic match above the threshold. *)
Lemma attempt_candidates (s : RelocationStrategy) (st : StoreState)
  (c : Candidate) (entries : list StrategyTried) :
  attempt_in args store embedder st s = Ok (c, entries) ->
  c = initial_candidate
  \/ (s = DRIFT /\ frp_delta_manifest args <> None
      /\ c = {| cand_confidence := 95 # 100; cand_status := RELOCATED;
                cand_method := LINE_DRIFT |})
  \/ (s = SEMANTIC /\ store <> None /\ embedder <> None
      /\ cand_status c = RELOCATED /\ cand_method c = SEMANTIC_SAME_FILE
      /\ ~ cand_confidence c <= minConfidence).
Proof.
  unfold attempt_in. fold minConfidence.
  destruct s; simpl.
  - intros H; inversion H; now left.
  - destruct (frp_delta_manifest args) eqn:E; simpl; intros H; inversion H.
    + right; left. repeat split. discriminate.
    + now left.
  - destruct store as [vs|]; [|intros H; inversion H; now left].
    destruct embedder as [em|]; [|intros H; inversion H; now left].
    unfold semantic_attempt, bind, lift, store_search.
    destruct (embed em _) as [emb|msg]; [|discriminate].
    destruct (search vs st emb 20) as [raw|msg]; [|discriminate].
    destruct (filter _ raw) as [|first rest];
      [intros H; inversion H; now left|].
    destruct (Qle_bool (hit_score first) minConfidence) eqn:E; simpl;
      intros H; inversion H; subst; [now left|].
    right; right. repeat split; try discriminate.
    simpl. intros Hle. apply Qle_bool_iff in Hle. congruence.
  - intros H; inversion H; now left.
  - intros H; inversion H; now left.
Qed.

Lemma entries_of_cons (st : StoreState) (s : RelocationStrategy)
  (l : list RelocationStrategy) (c : Candidate) (entries : list StrategyTried) :
  attempt_in args store embedder st s = Ok (c, entries) ->
  entries_of args store embedder st (s :: l)
  = entries ++ entries_of args store embedder st l.
Proof. intros H. unfold entries_of. simpl. now rewrite H. Qed.

(** The loop stops on the first strategy that reaches the threshold, with
    the trace of the strategies run so far. *)
Lemma relocate_loop_halts (st : StoreState) (pre post : list RelocationStrategy)
  (s : RelocationStrategy) (c : Candidate) (entries tried0 : list StrategyTried) :
  Forall (declines args store embedder st) pre ->
  attempt_in args store embedder st s = Ok (c, entries) ->
  Qle_bool minConfidence (cand_confidence c) = true ->
  relocate_loop args store embedder minConfidence (pre ++ s :: post) tried0 st
  = (Ok (Some c, tried0 ++ entries_of args store embedder st pre ++ entries),
     st).
Proof.
  intros Hpre Hs Hq. revert tried0.
  induction Hpre as [|s' pre (c' & e' & Ha & Hlow) _ IH]; intros tried0.
  - simpl. unfold bind. rewrite attempt_split, Hs. simpl. now rewrite Hq.
  - rewrite (entries_of_cons st s' _ c' e' Ha).
    simpl. unfold bind. rewrite attempt_split, Ha. simpl.
    fold minConfidence in Hlow. rewrite Hlow.
    rewrite IH. now rewrite <- !app_assoc.
Qed.

(** It runs to the end when every strategy declines. *)
Lemma relocate_loop_exhausts (st : StoreState) (l : list RelocationStrategy)
  (tried0 : list StrategyTried) :
  Forall (declines args store embedder st) l ->
  relocate_loop args store embedder minConfidence l tried0 st
  = (Ok (None, tried0 ++ entries_of args store embedder st l), st).
Proof.
  intros Hl. revert tried0.
  induction Hl as [|s' l (c' & e' & Ha & Hlow) _ IH]; intros tried0.
  - simpl. now rewrite app_nil_r.
  - rewrite (entries_of_cons st s' _ c' e' Ha).
    simpl. unfold bind. rewrite attempt_split, Ha. simpl.
    fold minConfidence in Hlow. rewrite Hlow.
    rewrite IH. now rewrite <- !app_assoc.
Qed.

(** Whatever the loop stops on was left by one of its strategies. *)
Lemma relocate_loop_origin (st st' : StoreState) (l : list RelocationStrategy)
  (tried0 trace : list StrategyTried) (c : Candidate) :
  relocate_loop args store embedder minConfidence l tried0 st
  = (Ok (Some c, trace), st') ->
  exists s entries,
    In s l /\ attempt_in args store embedder st s = Ok (c, entries)
    /\ Qle_bool minConfidence (cand_confidence c) = true.
Proof.
  revert tried0. induction l as [|s l IH]; intros tried0; simpl.
  - discriminate.
  - unfold bind. rewrite attempt_split.
    destruct (attempt_in args store embedder st s) as [[c' e']|msg] eqn:Ha;
      [|discriminate].
    simpl. destruct (Qle_bool minConfidence (cand_confidence c')) eqn:Hq.
    + intros H; inversion H; subst. exists s, e'. now repeat split; [left|..].
    + intros H. destruct (IH _ H) as (s0 & e0 & Hin & Hatt & Hq0).
      exists s0, e0. repeat split; [now right | assumption..].
Qed.

End Relocation.

Section RelocationHandler.

Variable args : FindingRelocateParams.
Variable context : InternalToolContext.
Variable st : StoreState.
Variable store : option VectorStore.

Let embedder := default_embedder (embeddingManager context).

Hypothesis store_resolved :
  knowledge_store_opt (vectorStoreManager context) = Ok store.

(** The handler's answer, from the outcome of its loop. *)
Lemma findingRelocate_run :
  fst (findingRelocate args context st)
  = match fst (relocate_loop args store embedder (min_confidence_of args)
                 (strategies_of args) [] st) with
    | Ok (Some c, trace) =>
        relocate_success args (cand_status c) (cand_method c)
          (cand_confidence c) trace
    | Ok (None, trace) => relocate_success args STALE CONTENT_CHANGED 0 trace
    | Throw msg => relocate_failure msg
    end.
Proof.
  unfold findingRelocate, try_catch, findingRelocate_body.
  unfold bind at 1. unfold lift. rewrite store_resolved.
  unfold bind. fold embedder.
  destruct (relocate_loop args store embedder (min_confidence_of args)
              (strategies_of args) [] st) as [[[[c|] trace]|msg] st'];
    reflexivity.
Qed.

Lemma relocate_halts_on (pre post : list RelocationStrategy)
  (s : RelocationStrategy) (c : Candidate) (entries : list StrategyTried) :
  strategies_of args = pre ++ s :: post ->
  Forall (declines args store embedder st) pre ->
  attempt_in args store embedder st s = Ok (c, entries) ->
  min_confidence_of args <= cand_confidence c ->
  fst (findingRelocate args context st)
  = relocate_success args (cand_status c) (cand_method c) (cand_confidence c)
      (entries_of args store embedder st pre ++ entries).
Proof.
  intros Hl Hpre Hs Hq. rewrite findingRelocate_run, Hl.
  rewrite (relocate_loop_halts args store embedder st pre post s c entries []
             Hpre Hs); [reflexivity|].
  now apply Qle_bool_iff.
Qed.

Lemma relocate_falls_through :
  Forall (declines args store embedder st) (strategies_of args) ->
  fst (findingRelocate args context st)
  = relocate_success args STALE CONTENT_CHANGED 0
      (entries_of args store embedder st (strategies_of args)).
Proof.
  intros Hall. rewrite findingRelocate_run.
  now rewrite (relocate_loop_exhausts args store embedder st _ [] Hall).
Qed.

(** Where an answer that is not the fall-through comes from. *)
Lemma relocate_origin :
  let r := fst (findingRelocate args context st) in
  frr_success r = true ->
  (frr_status r = STALE /\ frr_method r = CONTENT_CHANGED
   /\ frr_confidence r = 0)
  \/ exists s c entries,
       In s (strategies_of args)
       /\ attempt_in args store embedder st s = Ok (c, entries)
       /\ Qle_bool (min_confidence_of args) (cand_confidence c) = true
       /\ frr_status r = cand_status c /\ frr_method r = cand_method c
       /\ frr_confidence r = cand_confidence c.
Proof.
  intros r. subst r. rewrite findingRelocate_run.
  destruct (relocate_loop args store embedder (min_confidence_of args)
              (strategies_of args) [] st) as [[[[c|] trace]|msg] st'] eqn:E;
    simpl; intros Hok.
  - right. destruct (relocate_loop_origin args store embedder st st' _ _ _ _ E)
      as (s & entries & Hin & Ha & Hq).
    exists s, c, entries. now repeat split.
  - left. now repeat split.
  - discriminate.
Qed.

Lemma relocate_never_preserved :
  frr_status (fst (findingRelocate args context st)) <> PRESERVED.
Proof.
  destruct (frr_success (fst (findingRelocate args context st))) eqn:Hok.
  - destruct (relocate_origin Hok)
      as [(Hs & _) | (s & c & e & _ & Ha & _ & Hs & _)].
    + rewrite Hs. discriminate.
    + rewrite Hs.
      destruct (attempt_candidates args store embedder s st c e Ha)
        as [-> | [(_ & _ & ->) | (_ & _ & _ & -> & _)]]; discriminate.
  - revert Hok. rewrite findingRelocate_run.
    destruct (fst (relocate_loop _ _ _ _ _ _ _)) as [[[c|] trace]|msg];
      simpl; discriminate.
Qed.

(** With a positive threshold, no delta manifest and no vector services,
    every strategy declines. *)
Lemma all_decline_without_inputs (l : list RelocationStrategy) :
  0 < min_confidence_of args ->
  frp_delta_manifest args = None ->
  store = None \/ embedder = None ->
  Forall (declines args store embedder st) l.
Proof.
  intros Hpos Hdm Hsvc.
  assert (Hlow : Qle_bool (min_confidence_of args) 0 = false).
  { destruct (Qle_bool (min_confidence_of args) 0) eqn:E; [|reflexivity].
    apply Qle_bool_iff in E. lra. }
  apply Forall_forall. intros s _. unfold declines, attempt_in.
  destruct s; simpl.
  - do 2 eexists. split; [reflexivity | exact Hlow].
  - rewrite Hdm. do 2 eexists. split; [reflexivity | exact Hlow].
  - destruct Hsvc as [-> | ->]; [|destruct store];
      do 2 eexists; (split; [reflexivity | exact Hlow]).
  - do 2 eexists. split; [reflexivity | exact Hlow].
  - do 2 eexists. split; [reflexivity | exact Hlow].
Qed.

End RelocationHandler.

(** C3 (amended).  For every relocation call whose store lookup returns,
    the pipeline answers with the status, method and confidence left by the
    first strategy in order whose confidence reaches [min_confidence], and
    its trace holds the entries of the strategies up to that one and of none
    after it; if every strategy runs and stays below [min_confidence] the
    answer is STALE with method CONTENT_CHANGED and confidence 0.  The EXACT
    strategy always records NO_MATCH with confidence 0, and no call answers
    PRESERVED. *)
Theorem relocation_first_qualifying (args : FindingRelocateParams)
  (context : InternalToolContext) (st : StoreState)
  (store : option VectorStore) :
  let embedder := default_embedder (embeddingManager context) in
  knowledge_store_opt (vectorStoreManager context) = Ok store ->
  (forall pre s post c entries,
     strategies_of args = pre ++ s :: post ->
     Forall (declines args store embedder st) pre ->
     attempt_in args store embedder st s = Ok (c, entries) ->
     min_confidence_of args <= cand_confidence c ->
     fst (findingRelocate args context st)
     = relocate_success args (cand_status c) (cand_method c)
         (cand_confidence c)
         (entries_of args store embedder st pre ++ entries))
  /\ (Forall (declines args store embedder st) (strategies_of args) ->
      fst (findingRelocate args context st)
      = relocate_success args STALE CONTENT_CHANGED 0
          (entries_of args store embedder st (strategies_of args)))
  /\ attempt_in args store embedder st EXACT
     = Ok (initial_candidate, [tried EXACT "NO_MATCH" 0])
  /\ frr_status (fst (findingRelocate args context st)) <> PRESERVED.
Proof.
  intros embedder Hstore. repeat split.
  - intros pre s post c entries. now apply relocate_halts_on.
  - now apply relocate_falls_through.
  - now apply relocate_never_preserved with (store := store).
Qed.

Lemma relocation_first_qualifying_witness :
  fst (findingRelocate relocate_with_manifest no_services [])
  = relocate_success relocate_with_manifest RELOCATED LINE_DRIFT (95 # 100)
      [tried EXACT "NO_MATCH" 0; tried DRIFT "MATCH" (95 # 100)]
  /\ fst (findingRelocate relocate_plain no_services [])
     = relocate_success relocate_plain STALE CONTENT_CHANGED 0
         [tried EXACT "NO_MATCH" 0; tried DRIFT "NO_DELTA_MANIFEST" 0;
          tried HASH_GLOBAL "NO_MATCH" 0; tried FUZZY "NO_MATCH" 0].
Proof.
  split.
  - destruct (relocation_first_qualifying relocate_with_manifest no_services
                [] None eq_refl) as (Hfirst & _).
    apply (Hfirst [EXACT] DRIFT [SEMANTIC; HASH_GLOBAL; FUZZY]
             {| cand_confidence := 95 # 100; cand_status := RELOCATED;
                cand_method := LINE_DRIFT |}
             [tried DRIFT "MATCH" (95 # 100)]).
    + reflexivity.
    + repeat constructor. do 2 eexists. split; reflexivity.
    + reflexivity.
    + vm_compute. discriminate.
  - destruct (relocation_first_qualifying relocate_plain no_services
                [] None eq_refl) as (_ & Hnone & _).
    apply Hnone.
    repeat constructor; do 2 eexists; split; reflexivity.
Defined.

(** C3, as stated, fails: with [min_confidence = 0] the EXACT strategy is
    the first whose confidence reaches the threshold and the pipeline stops
    on it without running DRIFT, yet the answer is ORPHANED with confidence
    0, not PRESERVED with confidence 1. *)
Lemma exact_halt_counterexample :
  let r := fst (findingRelocate relocate_exact_any no_services []) in
  frr_success r = true
  /\ frr_strategies_tried r = [tried EXACT "NO_MATCH" 0]
  /\ frr_status r = ORPHANED
  /\ frr_status r <> PRESERVED
  /\ ~ frr_confidence r == 1.
Proof.
  simpl. repeat split; try reflexivity; try discriminate.
Qed.

(** C10 (amended).  For every relocation call whose store lookup returns:
    EXACT, HASH_GLOBAL and FUZZY always record NO_MATCH with confidence 0;
    DRIFT records MATCH with RELOCATED, LINE_DRIFT and confidence 0.95 when
    a delta manifest is given and NO_DELTA_MANIFEST otherwise; SEMANTIC does
    nothing without both the store and the embedder.  When [min_confidence]
    is positive, a successful answer other than STALE, CONTENT_CHANGED, 0 is
    either the drift match, with a delta manifest given, or a semantic
    match, with the store and the embedder there; and a call with no delta
    manifest and without the store or the embedder answers STALE,
    CONTENT_CHANGED, confidence 0. *)
Theorem relocation_stub_strategies (args : FindingRelocateParams)
  (context : InternalToolContext) (st : StoreState)
  (store : option VectorStore) :
  let embedder := default_embedder (embeddingManager context) in
  let r := fst (findingRelocate args context st) in
  knowledge_store_opt (vectorStoreManager context) = Ok store ->
  (forall s, s = EXACT \/ s = HASH_GLOBAL \/ s = FUZZY ->
     attempt_in args store embedder st s
     = Ok (initial_candidate, [tried s "NO_MATCH" 0]))
  /\ (frp_delta_manifest args <> None ->
      attempt_in args store embedder st DRIFT
      = Ok ({| cand_confidence := 95 # 100; cand_status := RELOCATED;
               cand_method := LINE_DRIFT |},
            [tried DRIFT "MATCH" (95 # 100)]))
  /\ (frp_delta_manifest args = None ->
      attempt_in args store embedder st DRIFT
      = Ok (initial_candidate, [tried DRIFT "NO_DELTA_MANIFEST" 0]))
  /\ (store = None \/ embedder = None ->
      attempt_in args store embedder st SEMANTIC
      = Ok (initial_candidate, []))
  /\ (0 < min_confidence_of args -> frr_success r = true ->
      (frr_status r = STALE /\ frr_method r = CONTENT_CHANGED
       /\ frr_confidence r = 0)
      \/ (frp_delta_manifest args <> None
          /\ frr_status r = RELOCATED /\ frr_method r = LINE_DRIFT
          /\ frr_confidence r = 95 # 100)
      \/ (store <> None /\ embedder <> None
          /\ frr_status r = RELOCATED /\ frr_method r = SEMANTIC_SAME_FILE))
  /\ (0 < min_confidence_of args ->
      frp_delta_manifest args = None ->
      store = None \/ embedder = None ->
      r = relocate_success args STALE CONTENT_CHANGED 0
            (entries_of args store embedder st (strategies_of args))).
Proof.
  intros embedder r Hstore. subst r. repeat split.
  - intros s [-> | [-> | ->]]; reflexivity.
  - intros Hdm. unfold attempt_in. simpl.
    destruct (frp_delta_manifest args); [reflexivity | contradiction].
  - intros Hdm. unfold attempt_in. simpl. now rewrite Hdm.
  - intros [-> | Hemb]; unfold attempt_in; simpl; [reflexivity|].
    fold embedder. rewrite Hemb. now destruct store.
  - intros Hpos Hok.
    destruct (relocate_origin args context st store Hstore Hok)
      as [Hstale | (s & c & e & _ & Ha & Hq & Hs & Hm & Hc)];
      [now left|].
    right. rewrite Hs, Hm, Hc.
    destruct (attempt_candidates args store _ s st c e Ha)
      as [-> | [(_ & Hdm & ->) | (_ & Hst & Hem & Hcs & Hcm & _)]].
    + exfalso. apply Qle_bool_iff in Hq. simpl in Hq. lra.
    + left. now repeat split.
    + right. now repeat split.
  - intros Hpos Hdm Hsvc. apply relocate_falls_through; [exact Hstore|].
    now apply all_decline_without_inputs.
Qed.

Lemma relocation_stub_strategies_witness :
  fst (findingRelocate relocate_plain no_services [])
  = relocate_success relocate_plain STALE CONTENT_CHANGED 0
      [tried EXACT "NO_MATCH" 0; tried DRIFT "NO_DELTA_MANIFEST" 0;
       tried HASH_GLOBAL "NO_MATCH" 0; tried FUZZY "NO_MATCH" 0]
  /\ attempt_in relocate_with_manifest None None [] DRIFT
     = Ok ({| cand_confidence := 95 # 100; cand_status := RELOCATED;
              cand_method := LINE_DRIFT |},
           [tried DRIFT "MATCH" (95 # 100)]).
Proof.
  split.
  - destruct (relocation_stub_strategies relocate_plain no_services [] None
                eq_refl) as (_ & _ & _ & _ & _ & Hstale).
    apply Hstale; [reflexivity | reflexivity | now left].
  - destruct (relocation_stub_strategies relocate_with_manifest no_services
                [] None eq_refl) as (_ & Hdrift & _).
    apply Hdrift. discriminate.
Defined.

(** C10, as stated, fails: with [min_confidence = 0], no delta manifest and
    no vector services, the default strategies answer ORPHANED, not STALE. *)
Lemma no_inputs_counterexample :
  let r := fst (findingRelocate relocate_default_any no_services []) in
  frp_delta_manifest relocate_default_any = None
  /\ vectorStoreManager no_services = None
  /\ embeddingManager no_services = None
  /\ frr_success r = true
  /\ frr_status r = ORPHANED
  /\ frr_status r <> STALE.
Proof.
  simpl. repeat split; try reflexivity; discriminate.
Qed.

(** ** Cascade propagation *)

Section Cascade.

Lemma set_has_In (s : StrSet) (x : string) : set_has s x = true <-> In x s.
Proof.
  unfold set_has. rewrite existsb_exists. split.
  - intros (y & Hin & E). apply String.eqb_eq in E. now subst.
  - intros Hin. exists x. split; [assumption | apply String.eqb_refl].
Qed.

Lemma set_has_false (s : StrSet) (x : string) :
  set_has s x = false <-> ~ In x s.
Proof.
  rewrite <- set_has_In. destruct (set_has s x); split; congruence.
Qed.

Lemma set_add_In (s : StrSet) (x y : string) :
  In y (set_add s x) <-> In y s \/ y = x.
Proof.
  unfold set_add. destruct (set_has s x) eqn:E.
  - apply set_has_In in E. split; [now left|]. intros [H | ->]; assumption.
  - rewrite in_app_iff. simpl. intuition.
Qed.

Lemma set_add_NoDup (s : StrSet) (x : string) :
  NoDup s -> NoDup (set_add s x).
Proof.
  intros Hnd. unfold set_add. destruct (set_has s x) eqn:E; [assumption|].
  apply set_has_false in E.
  apply NoDup_app; [assumption | repeat constructor; intros [] |].
  intros y Hy [<- | []]. contradiction.
Qed.

Lemma set_of_list_In (l : list string) (x : string) :
  In x (set_of_list l) <-> In x l.
Proof.
  unfold set_of_list.
  assert (G : forall acc, In x (fold_left set_add l acc) <-> In x acc \/ In x l).
  { induction l as [|y l IH]; intros acc; simpl; [intuition|].
    rewrite IH, set_add_In. intuition. }
  rewrite G. simpl. intuition.
Qed.

Lemma initial_traversal_ok (dirty : list string) :
  traversal_ok dirty (initial_traversal dirty).
Proof.
  split; simpl; [constructor|].
  intros x. rewrite set_of_list_In. intuition.
Qed.

(** What one result does to the traversal. *)
Lemma visit_result_step (chunkId : string) (t : Traversal) (h : Hit) :
  match neighbour_via chunkId h with
  | Some x =>
      if set_has (visited t) x
      then cascadeAffected (visit_result chunkId t h) = cascadeAffected t
           /\ visited (visit_result chunkId t h) = visited t
      else cascadeAffected (visit_result chunkId t h)
           = set_add (cascadeAffected t) x
           /\ visited (visit_result chunkId t h) = set_add (visited t) x
  | None => visit_result chunkId t h = t
  end.
Proof.
  unfold neighbour_via, visit_result.
  destruct (hit_edge h) as [edge|]; [|reflexivity].
  destruct (str_eq (source edge) chunkId) eqn:Es; simpl.
  - destruct (set_has (visited t) (target edge)); simpl; split; reflexivity.
  - destruct (str_eq (target edge) chunkId) eqn:Et; simpl; [|reflexivity].
    destruct (set_has (visited t) (source edge)); simpl; split; reflexivity.
Qed.

Lemma visit_result_ok (dirty : list string) (chunkId : string)
  (t : Traversal) (h : Hit) :
  traversal_ok dirty t ->
  traversal_ok dirty (visit_result chunkId t h)
  /\ forall x,
       In x (cascadeAffected (visit_result chunkId t h))
       <-> In x (cascadeAffected t)
           \/ (~ In x dirty /\ neighbour_via chunkId h = Some x).
Proof.
  intros [Hnd Hvis].
  pose proof (visit_result_step chunkId t h) as Hstep.
  destruct (neighbour_via chunkId h) as [y|].
  - destruct (set_has (visited t) y) eqn:Ev.
    + destruct Hstep as [Hc Hv]. apply set_has_In in Ev. split.
      * split; [now rewrite Hc|]. intros x. now rewrite Hv, Hc.
      * intros x. rewrite Hc. split; [now left|].
        intros [H | [Hnd' E]]; [assumption|]. inversion E; subst.
        apply Hvis in Ev. now destruct Ev.
    + destruct Hstep as [Hc Hv]. apply set_has_false in Ev. split.
      * split; [rewrite Hc; now apply set_add_NoDup|].
        intros x. rewrite Hv, Hc, !set_add_In, Hvis. intuition.
      * intros x. rewrite Hc, set_add_In. split.
        -- intros [H | ->]; [now left|]. right. split; [|reflexivity].
           intros Hd. apply Ev, Hvis. now left.
        -- intros [H | [_ E]]; [now left|]. inversion E. now right.
  - rewrite Hstep. split; [now split|].
    intros x. split; [now left|]. intros [H | [_ E]]; [assumption|discriminate].
Qed.

Lemma visit_results_ok (dirty : list string) (chunkId : string)
  (hits : list Hit) (t : Traversal) :
  traversal_ok dirty t ->
  traversal_ok dirty (fold_left (visit_result chunkId) hits t)
  /\ forall x,
       In x (cascadeAffected (fold_left (visit_result chunkId) hits t))
       <-> In x (cascadeAffected t)
           \/ (~ In x dirty
               /\ exists h, In h hits /\ neighbour_via chunkId h = Some x).
Proof.
  revert t. induction hits as [|h hits IH]; intros t Hok; simpl.
  - split; [assumption|]. intros x. split; [now left|].
    intros [H | (_ & h & [] & _)]. assumption.
  - destruct (visit_result_ok dirty chunkId t h Hok) as [Hok' Hmem].
    destruct (IH _ Hok') as [Hok'' Hmem'']. split; [assumption|].
    intros x. rewrite Hmem'', Hmem. split.
    + intros [[H | [Hd E]] | (Hd & h' & Hin & E)].
      * now left.
      * right. split; [assumption|]. exists h. split; [now left | assumption].
      * right. split; [assumption|]. exists h'. split; [now right | assumption].
    + intros [H | (Hd & h' & [<- | Hin] & E)].
      * left. now left.
      * left. right. now split.
      * right. split; [assumption|]. now exists h'.
Qed.

Lemma propagate_loop_ok (args : GraphPropagateParams) (store : VectorStore)
  (embedder : Embedder) (st : StoreState) (dirty : list string)
  (results : string -> list Hit) (chunks : list string) (t : Traversal) :
  let edgeTypes := match gpp_edge_types args with
                   | Some l => l | None => default_edge_types end in
  (forall d, In d chunks ->
     search_results args store embedder st d = Ok (results d)) ->
  traversal_ok dirty t ->
  exists t',
    propagate_loop args store embedder edgeTypes chunks t st = (Ok t', st)
    /\ traversal_ok dirty t'
    /\ forall x,
         In x (cascadeAffected t')
         <-> In x (cascadeAffected t)
             \/ (~ In x dirty
                 /\ exists d h, In d chunks /\ In h (results d)
                                /\ neighbour_via d h = Some x).
Proof.
  intros edgeTypes. revert t.
  induction chunks as [|d chunks IH]; intros t Hres Hok.
  - exists t. split; [reflexivity|]. split; [assumption|].
    intros x. split; [now left|]. intros [H | (_ & d & h & [] & _)].
    assumption.
  - pose proof (Hres d (or_introl eq_refl)) as Hd.
    unfold search_results in Hd. fold edgeTypes in Hd.
    simpl. unfold bind, lift, store_search.
    destruct (embed embedder _) as [emb|msg]; [|discriminate].
    destruct (search store st emb 100) as [raw|msg]; [|discriminate].
    inversion Hd as [Hraw]. clear Hd. rewrite Hraw.
    destruct (visit_results_ok dirty d (results d) t Hok) as [Hok' Hmem].
    destruct (IH (fold_left (visit_result d) (results d) t)
                (fun d' Hin => Hres d' (or_intror Hin)) Hok')
      as (t' & Hrun & Hok'' & Hmem').
    exists t'. split; [exact Hrun|]. split; [assumption|].
    intros x. rewrite Hmem', Hmem. split.
    + intros [[H | (Hnd & h & Hin & E)] | (Hnd & d' & h & Hin & Hh & E)].
      * now left.
      * right. split; [assumption|]. exists d, h. now repeat split; [left|..].
      * right. split; [assumption|]. exists d', h.
        now repeat split; [right|..].
    + intros [H | (Hnd & d' & h & [<- | Hin] & Hh & E)].
      * left. now left.
      * left. right. split; [assumption|]. now exists h.
      * right. split; [assumption|]. now exists d', h.
Qed.

(** The handler's answer when its services are there and every search
    returns. *)
Lemma graphPropagate_run (args : GraphPropagateParams)
  (context : InternalToolContext) (st : StoreState) (store : VectorStore)
  (embedder : Embedder) (results : string -> list Hit) :
  graph_services context store embedder ->
  (forall d, In d (gpp_dirty_chunks args) ->
     search_results args store embedder st d = Ok (results d)) ->
  exists t,
    traversal_ok (gpp_dirty_chunks args) t
    /\ (forall x,
          In x (cascadeAffected t)
          <-> ~ In x (gpp_dirty_chunks args)
              /\ exists d h, In d (gpp_dirty_chunks args) /\ In h (results d)
                             /\ neighbour_via d h = Some x)
    /\ graphPropagate args context st
       = ({| gpr_success := true; gpr_error := None;
             cascade_affected := cascadeAffected t;
             semantic_affected := [];
             all_affected := gpp_dirty_chunks args ++ cascadeAffected t ++ [];
             cascade_chains := cascadeChains t;
             stats := {| nodes_visited := nodesVisited t;
                         edges_traversed := edgesTraversed t;
                         max_depth_reached := 0 |} |}, st).
Proof.
  intros (vsm & Hv & Hs & He) Hres.
  destruct (propagate_loop_ok args store embedder st (gpp_dirty_chunks args)
              results (gpp_dirty_chunks args)
              (initial_traversal (gpp_dirty_chunks args)) Hres
              (initial_traversal_ok _)) as (t & Hrun & Hok & Hmem).
  exists t. split; [assumption|]. split.
  - intros x. rewrite Hmem. simpl. intuition.
  - unfold graphPropagate, try_catch, graphPropagate_body.
    rewrite Hv, He. unfold bind at 1. unfold bind at 1. unfold lift.
    rewrite Hs. rewrite Hrun. reflexivity.
Qed.

(** The loop reads of its arguments the project path only. *)
Lemma propagate_loop_project (a1 a2 : GraphPropagateParams)
  (store : VectorStore) (embedder : Embedder)
  (edgeTypes : list GraphEdgeType) (chunks : list string) (t : Traversal)
  (st : StoreState) :
  gpp_project_path a1 = gpp_project_path a2 ->
  propagate_loop a1 store embedder edgeTypes chunks t st
  = propagate_loop a2 store embedder edgeTypes chunks t st.
Proof.
  intros Hp. revert t. induction chunks as [|d chunks IH]; intros t.
  - reflexivity.
  - simpl. unfold bind, lift, store_search.
    destruct (embed embedder _) as [emb|msg]; [|reflexivity].
    destruct (search store st emb 100) as [raw|msg]; [|reflexivity].
    rewrite Hp. apply IH.
Qed.

(** The limits of a request have no effect on its answer. *)
Lemma graphPropagate_limits (args : GraphPropagateParams)
  (context : InternalToolContext) (st : StoreState) (depth : option nat)
  (minWeight : option Q) (ripple : option bool) (threshold : option Q) :
  graphPropagate (with_limits args depth minWeight ripple threshold) context st
  = graphPropagate args context st.
Proof.
  unfold graphPropagate, try_catch, graphPropagate_body. simpl.
  destruct (vectorStoreManager context) as [vsm|]; [|reflexivity].
  destruct (default_embedder (embeddingManager context)) as [em|];
    [|reflexivity].
  unfold bind, lift.
  destruct (knowledge_store vsm) as [[store|]|msg]; try reflexivity.
  rewrite (propagate_loop_project
             (with_limits args depth minWeight ripple threshold) args);
    reflexivity.
Qed.

(** Without the store manager or the embedder nothing is searched. *)
Lemma propagate_without_services (args : GraphPropagateParams)
  (context : InternalToolContext) (st : StoreState) :
  vectorStoreManager context = None
  \/ default_embedder (embeddingManager context) = None ->
  cascade_affected (fst (graphPropagate args context st)) = []
  /\ gpr_success (fst (graphPropagate args context st)) = true.
Proof.
  unfold graphPropagate, try_catch, graphPropagate_body.
  intros [-> | ->]; [split; reflexivity|].
  destruct (vectorStoreManager context); split; reflexivity.
Qed.

(** No call, whatever its outcome, reports a semantically affected chunk. *)
Lemma semantic_affected_empty (args : GraphPropagateParams)
  (context : InternalToolContext) (st : StoreState) :
  let r := fst (graphPropagate args context st) in
  semantic_affected r = []
  /\ max_depth_reached (stats r) = 0%nat
  /\ (gpr_success r = true ->
      all_affected r = gpp_dirty_chunks args ++ cascade_affected r).
Proof.
  unfold graphPropagate, try_catch, graphPropagate_body.
  set (body := match vectorStoreManager context with
               | Some _ => _ | None => _ end).
  unfold bind. destruct (body st) as [[t|msg] st']; simpl.
  - repeat split. intros _. now rewrite app_nil_r.
  - repeat split. discriminate.
Qed.

End Cascade.

Lemma graph_services_full : graph_services full_context scan_store fake_embedder.
Proof. eexists. repeat split; reflexivity. Qed.

(** C4 (amended).  When the store and the embedder are there and every
    search returns, cascade propagation adds to [cascade_affected], once
    each, exactly the chunks that are not dirty and are the other end of an
    edge record of the project, returned by the search for a dirty chunk,
    that has this dirty chunk as source or as target: one hop, in either
    direction, whatever the edge's type and weight.  [max_depth] and
    [min_edge_weight] have no effect on the answer. *)
Theorem cascade_is_one_hop (args : GraphPropagateParams)
  (context : InternalToolContext) (st : StoreState) (store : VectorStore)
  (embedder : Embedder) (results : string -> list Hit) :
  let r := fst (graphPropagate args context st) in
  graph_services context store embedder ->
  (forall d, In d (gpp_dirty_chunks args) ->
     search_results args store embedder st d = Ok (results d)) ->
  gpr_success r = true
  /\ NoDup (cascade_affected r)
  /\ (forall x,
        In x (cascade_affected r)
        <-> ~ In x (gpp_dirty_chunks args)
            /\ exists d h, In d (gpp_dirty_chunks args) /\ In h (results d)
                           /\ neighbour_via d h = Some x)
  /\ (forall depth minWeight,
        graphPropagate
          (with_limits args depth minWeight (gpp_enable_semantic_ripple args)
             (gpp_similarity_threshold args)) context st
        = graphPropagate args context st).
Proof.
  intros r Hsvc Hres. subst r.
  destruct (graphPropagate_run args context st store embedder results
              Hsvc Hres) as (t & [Hnd _] & Hmem & Hrun).
  rewrite Hrun. simpl.
  split; [reflexivity|]. split; [assumption|]. split; [exact Hmem|].
  intros depth minWeight. rewrite <- Hrun. apply graphPropagate_limits.
Qed.

Lemma cascade_is_one_hop_witness :
  let r := fst (graphPropagate (propagate_args (Some 3%nat)) full_context
                  scenario_graph) in
  gpr_success r = true /\ In "B" (cascade_affected r)
  /\ ~ In "C" (cascade_affected r).
Proof.
  destruct (cascade_is_one_hop (propagate_args (Some 3%nat)) full_context
              scenario_graph scan_store fake_embedder scenario_hits)
    as (Hok & _ & Hmem & _).
  - exact graph_services_full.
  - intros d [<- | []]. reflexivity.
  - split; [exact Hok|]. split.
    + apply Hmem. split.
      * simpl. intros [E | []]. discriminate.
      * exists "A". eexists. split; [now left|].
        split; [left; reflexivity | reflexivity].
    + intros HC. apply Hmem in HC.
      destruct HC as (_ & d & h & [<- | []] & Hh & E).
      destruct Hh as [<- | [<- | []]]; discriminate.
Defined.

(** The scenario of the specification, on the scanning store. *)
Example cascade_scenario :
  cascade_affected
    (fst (graphPropagate (propagate_args (Some 3%nat)) full_context
            scenario_graph)) = ["B"].
Proof. reflexivity. Qed.

(** C4, as stated, fails: with [max_depth = 0] the dirty chunk A still
    brings in its neighbour B. *)
Lemma max_depth_zero_counterexample :
  let r := fst (graphPropagate (propagate_args (Some 0%nat)) full_context
                  scenario_graph) in
  gpp_max_depth (propagate_args (Some 0%nat)) = Some 0%nat
  /\ gpr_success r = true
  /\ cascade_affected r = ["B"]
  /\ cascade_affected r <> [].
Proof. simpl. repeat split; discriminate. Qed.

(** C5 (amended).  No call reports a semantically affected chunk:
    [semantic_affected] is always empty, a successful call returns
    [all_affected] as the dirty chunks followed by [cascade_affected], and
    [enable_semantic_ripple] and [similarity_threshold] have no effect on
    the answer. *)
Theorem semantic_ripple_absent (args : GraphPropagateParams)
  (context : InternalToolContext) (st : StoreState) :
  let r := fst (graphPropagate args context st) in
  semantic_affected r = []
  /\ (gpr_success r = true ->
      all_affected r = gpp_dirty_chunks args ++ cascade_affected r)
  /\ (forall ripple threshold,
        graphPropagate
          (with_limits args (gpp_max_depth args) (gpp_min_edge_weight args)
             ripple threshold) context st
        = graphPropagate args context st).
Proof.
  destruct (semantic_affected_empty args context st) as (Hs & _ & Hall).
  split; [assumption|]. split; [assumption|].
  intros ripple threshold. apply graphPropagate_limits.
Qed.

Lemma semantic_ripple_absent_witness :
  all_affected (fst (graphPropagate (propagate_args (Some 3%nat))
                       full_context similarity_graph)) = ["A"; "X"].
Proof.
  destruct (semantic_ripple_absent (propagate_args (Some 3%nat)) full_context
              similarity_graph) as (_ & Hall & _).
  rewrite Hall; reflexivity.
Defined.

(** C5, as stated, fails: the store returns a SIMILAR_TO edge from the dirty
    chunk A to X with confidence 0.9, above the threshold 0.8, and the
    ripple is enabled; [semantic_affected] is empty and X is counted in
    [cascade_affected]. *)
Lemma semantic_ripple_counterexample :
  let args := propagate_args (Some 3%nat) in
  let r := fst (graphPropagate args full_context similarity_graph) in
  gpp_enable_semantic_ripple args = Some true
  /\ gpp_similarity_threshold args = Some (8 # 10)
  /\ gpr_success r = true
  /\ semantic_affected r = []
  /\ cascade_affected r = ["X"].
Proof. simpl. repeat split. Qed.

(** ** The store under repeated writes *)

Section StoreWrites.

Lemma key_eqb_eq (a b : Key) : key_eqb a b = true <-> a = b.
Proof.
  destruct a, b; simpl; try (split; discriminate).
  - rewrite Z.eqb_eq. split; congruence.
  - rewrite String.eqb_eq. split; congruence.
Qed.

Lemma key_eqb_refl (a : Key) : key_eqb a a = true.
Proof. now apply key_eqb_eq. Qed.


Lemma kv_delete_twice (k : Key) (st : StoreState) :
  kv_delete k (kv_delete k st) = kv_delete k st.
Proof.
  unfold kv_delete. induction st as [|e st IH]; simpl; [reflexivity|].
  destruct (key_eqb (entry_key e) k) eqn:E; simpl; [assumption|].
  rewrite E. simpl. now rewrite IH.
Qed.


(** In the key-value model the same insert under the same key, twice, is
    the insert once. *)
Lemma kv_insert_twice (v : Vector) (id : Z) (p : Payload) (st : StoreState) :
  kv_insert v id p (kv_insert v id p st) = kv_insert v id p st.
Proof.
  unfold kv_insert at 1. unfold kv_insert at 1. unfold kv_delete at 1.
  rewrite filter_app. fold (kv_delete (KNum id) (kv_delete (KNum id) st)).
  rewrite kv_delete_twice. simpl. rewrite Z.eqb_refl. simpl.
  now rewrite app_nil_r.
Qed.







End StoreWrites.

(** An add without the store or without the embedder writes nothing. *)
Lemma add_without_services (args : GraphUpdateParams)
  (context : InternalToolContext) (rd : VectorIdReadings) (st : StoreState)
  (store : option VectorStore) :
  knowledge_store_opt (vectorStoreManager context) = Ok store ->
  store = None \/ default_embedder (embeddingManager context) = None ->
  (gup_operation args = add_edge /\ gup_edge args <> None)
  \/ ((gup_operation args = add_node \/ gup_operation args = update_node)
      /\ gup_node args <> None) ->
  graphUpdate args context rd st = (update_done 0 0, st).
Proof.
  intros Hs Hnone Hop.
  unfold graphUpdate, try_catch, graphUpdate_body.
  unfold bind at 1. unfold lift at 1. rewrite Hs.
  destruct Hop as [[-> He] | [[-> | ->] Hn]].
  - destruct (gup_edge args) as [e|]; [|contradiction].
    destruct Hnone as [-> | ->]; [reflexivity | now destruct store].
  - destruct (gup_node args) as [n|]; [|contradiction].
    destruct Hnone as [-> | ->]; [reflexivity | now destruct store].
  - destruct (gup_node args) as [n|]; [|contradiction].
    destruct Hnone as [-> | ->]; [reflexivity | now destruct store].
Qed.




(** ** Branch creation *)

Section BranchCreate.

Variable args : BranchManageParams.
Variable context : InternalToolContext.
Variable rd : BranchReadings.
Variable st : StoreState.
Variable gitBranch : string.

Hypothesis is_create : bmp_operation args = op_create.
Hypothesis branch_given : present (bmp_git_branch args) = Some gitBranch.

Let branch := new_branch args rd gitBranch.
Let searchText := branch_search_text args gitBranch.
Let vectorId :=
  generateNumericVectorId (br_vector_now rd) (br_vector_random rd) 0.



End BranchCreate.




(** * Further properties of the tools *)

(** ** Relocation and propagation read the store only *)

Lemma relocate_loop_state (args : FindingRelocateParams)
  (store : option VectorStore) (embedder : option Embedder) (m : Q)
  (l : list RelocationStrategy) (tried0 : list StrategyTried)
  (st : StoreState) :
  m = min_confidence_of args ->
  snd (relocate_loop args store embedder m l tried0 st) = st.
Proof.
  intros ->. revert tried0. induction l as [|s l IH]; intros tried0.
  - reflexivity.
  - simpl. unfold bind. rewrite attempt_split.
    destruct (attempt_in args store embedder st s) as [[c e]|msg];
      [|reflexivity].
    simpl. destruct (Qle_bool _ _); [reflexivity | apply IH].
Qed.

Lemma propagate_loop_state (args : GraphPropagateParams) (store : VectorStore)
  (embedder : Embedder) (edgeTypes : list GraphEdgeType)
  (chunks : list string) (t : Traversal) (st : StoreState) :
  snd (propagate_loop args store embedder edgeTypes chunks t st) = st.
Proof.
  revert t. induction chunks as [|d chunks IH]; intros t.
  - reflexivity.
  - simpl. unfold bind, lift, store_search.
    destruct (embed embedder _) as [emb|msg]; [|reflexivity].
    destruct (search store st emb 100) as [raw|msg]; [|reflexivity].
    apply IH.
Qed.

(** X1.  Neither a relocation nor a propagation changes the store, whatever
    the context, the arguments and the outcome of the call. *)
Theorem relocate_and_propagate_read_only (rargs : FindingRelocateParams)
  (pargs : GraphPropagateParams) (context : InternalToolContext)
  (st : StoreState) :
  snd (findingRelocate rargs context st) = st
  /\ snd (graphPropagate pargs context st) = st.
Proof.
  split.
  - unfold findingRelocate, try_catch, findingRelocate_body.
    unfold bind at 1. unfold lift.
    destruct (knowledge_store_opt (vectorStoreManager context))
      as [store|msg]; [|reflexivity].
    unfold bind.
    pose proof (relocate_loop_state rargs store
                  (default_embedder (embeddingManager context))
                  (min_confidence_of rargs) (strategies_of rargs) [] st
                  eq_refl) as Hst.
    destruct (relocate_loop _ _ _ _ _ _ _) as [[[[c|] trace]|msg] st'];
      simpl in *; assumption.
  - unfold graphPropagate, try_catch, graphPropagate_body. unfold bind.
    destruct (vectorStoreManager context) as [vsm|]; [|reflexivity].
    destruct (default_embedder (embeddingManager context)) as [em|];
      [|reflexivity].
    unfold lift.
    destruct (knowledge_store vsm) as [[store|]|msg]; try reflexivity.
    pose proof (propagate_loop_state pargs store em
                  (match gpp_edge_types pargs with
                   | Some l => l | None => default_edge_types end)
                  (gpp_dirty_chunks pargs)
                  (initial_traversal (gpp_dirty_chunks pargs)) st) as Hst.
    destruct (propagate_loop _ _ _ _ _ _ _) as [[t|msg] st'];
      simpl in *; assumption.
Qed.

(** ** What a relocation answers *)

(** X2.  A relocation that fails answers ORPHANED, CONTENT_CHANGED,
    confidence 0 with an empty trace; one that succeeds with a status other
    than STALE carries a confidence that reaches [min_confidence]. *)
Theorem relocation_answer_bounds (args : FindingRelocateParams)
  (context : InternalToolContext) (st : StoreState) :
  let r := fst (findingRelocate args context st) in
  (frr_success r = false ->
   frr_status r = ORPHANED /\ frr_method r = CONTENT_CHANGED
   /\ frr_confidence r = 0 /\ frr_strategies_tried r = [])
  /\ (frr_success r = true -> frr_status r <> STALE ->
      min_confidence_of args <= frr_confidence r).
Proof.
  intros r. subst r.
  destruct (knowledge_store_opt (vectorStoreManager context))
    as [store|msg] eqn:Hstore.
  - split.
    + rewrite (findingRelocate_run args context st store Hstore).
      destruct (fst (relocate_loop _ _ _ _ _ _ _)) as [[[c|] trace]|m];
        simpl; intros H; try discriminate. now repeat split.
    + intros Hok Hns.
      destruct (relocate_origin args context st store Hstore Hok)
        as [(Hs & _) | (s & c & e & _ & _ & Hq & _ & _ & Hc)];
        [contradiction|].
      rewrite Hc. now apply Qle_bool_iff.
  - assert (E : fst (findingRelocate args context st) = relocate_failure msg).
    { unfold findingRelocate, try_catch, findingRelocate_body.
      unfold bind at 1. unfold lift. now rewrite Hstore. }
    rewrite E. simpl. split; [now repeat split | discriminate].
Qed.

Lemma relocation_answer_bounds_witness :
  min_confidence_of relocate_with_manifest
  <= frr_confidence (fst (findingRelocate relocate_with_manifest
                            no_services [])).
Proof.
  destruct (relocation_answer_bounds relocate_with_manifest no_services [])
    as [_ H].
  apply H; [reflexivity | discriminate].
Defined.

(** A strategy that runs pushes one entry under its own name, or none. *)
Lemma attempt_entries (args : FindingRelocateParams)
  (store : option VectorStore) (embedder : option Embedder) (st : StoreState)
  (s : RelocationStrategy) (c : Candidate) (e : list StrategyTried) :
  attempt_in args store embedder st s = Ok (c, e) ->
  map st_strategy e = if pushes store embedder s then [s] else [].
Proof.
  unfold attempt_in. destruct s; simpl.
  - intros H; inversion H; reflexivity.
  - destruct (frp_delta_manifest args); intros H; inversion H; reflexivity.
  - destruct store as [vs|]; [|intros H; inversion H; reflexivity].
    destruct embedder as [em|]; [|intros H; inversion H; reflexivity].
    unfold semantic_attempt, bind, lift, store_search.
    destruct (embed em _) as [emb|msg]; [|discriminate].
    destruct (search vs st emb 20) as [raw|msg]; [|discriminate].
    destruct (filter _ raw) as [|first rest];
      [intros H; inversion H; reflexivity|].
    destruct (negb _); intros H; inversion H; reflexivity.
  - intros H; inversion H; reflexivity.
  - intros H; inversion H; reflexivity.
Qed.

Lemma relocate_loop_trace (args : FindingRelocateParams)
  (store : option VectorStore) (embedder : option Embedder)
  (l : list RelocationStrategy) (tried0 trace : list StrategyTried)
  (st st' : StoreState) (res : option Candidate) :
  relocate_loop args store embedder (min_confidence_of args) l tried0 st
  = (Ok (res, trace), st') ->
  exists k,
    (k <= length l)%nat
    /\ map st_strategy trace
       = map st_strategy tried0 ++ filter (pushes store embedder) (firstn k l)
    /\ (res = None -> k = length l).
Proof.
  revert tried0. induction l as [|s l IH]; intros tried0; simpl.
  - intros H; inversion H; subst. exists 0%nat.
    split; [lia|]. split; [now rewrite app_nil_r | reflexivity].
  - unfold bind. rewrite attempt_split.
    destruct (attempt_in args store embedder st s) as [[c e]|msg] eqn:Ha;
      [|discriminate].
    pose proof (attempt_entries args store embedder st s c e Ha) as He.
    simpl. destruct (Qle_bool _ _).
    + intros H; inversion H; subst. exists 1%nat.
      split; [lia|]. split; [|discriminate].
      rewrite map_app, He. simpl.
      destruct (pushes store embedder s); reflexivity.
    + intros H. destruct (IH _ H) as (k & Hk & Htr & Hnone).
      exists (S k). split; [lia|]. split.
      * rewrite Htr, map_app, He, <- app_assoc. simpl.
        destruct (pushes store embedder s); reflexivity.
      * intros E. now rewrite (Hnone E).
Qed.

(** X3.  The trace of a relocation lists, in order, the names of a prefix
    of the requested strategies, SEMANTIC left out when the store or the
    embedder is missing; when the answer is STALE the prefix is the whole
    list. *)
Theorem relocation_trace_prefix (args : FindingRelocateParams)
  (context : InternalToolContext) (st : StoreState)
  (store : option VectorStore) :
  let embedder := default_embedder (embeddingManager context) in
  let r := fst (findingRelocate args context st) in
  knowledge_store_opt (vectorStoreManager context) = Ok store ->
  exists k,
    (k <= length (strategies_of args))%nat
    /\ map st_strategy (frr_strategies_tried r)
       = filter (pushes store embedder) (firstn k (strategies_of args))
    /\ (frr_status r = STALE -> k = length (strategies_of args)).
Proof.
  intros embedder r Hstore. subst r.
  rewrite (findingRelocate_run args context st store Hstore).
  destruct (relocate_loop args store
              (default_embedder (embeddingManager context))
              (min_confidence_of args) (strategies_of args) [] st)
    as [[[[c|] trace]|msg] st'] eqn:E; simpl.
  - destruct (relocate_loop_trace _ _ _ _ _ _ _ _ _ E) as (k & Hk & Htr & _).
    exists k. split; [assumption|]. split; [assumption|].
    intros Hs.
    destruct (relocate_loop_origin args store _ st st' _ _ _ _ E)
      as (s & e & _ & Ha & _).
    destruct (attempt_candidates args store _ s st c e Ha)
      as [-> | [(_ & _ & ->) | (_ & _ & _ & Hr & _)]];
      simpl in Hs; congruence.
  - destruct (relocate_loop_trace _ _ _ _ _ _ _ _ _ E) as (k & Hk & Htr & Hn).
    exists k. split; [assumption|]. split; [assumption|].
    intros _. now apply Hn.
  - exists 0%nat. split; [lia|]. split; [reflexivity | discriminate].
Qed.

Lemma relocation_trace_prefix_witness :
  map st_strategy
    (frr_strategies_tried (fst (findingRelocate relocate_plain no_services [])))
  = [EXACT; DRIFT; HASH_GLOBAL; FUZZY].
Proof.
  destruct (relocation_trace_prefix relocate_plain no_services [] None eq_refl)
    as (k & _ & Htr & Hall).
  rewrite Htr, (Hall eq_refl). reflexivity.
Defined.

(** ** The chain log of a propagation *)

Lemma initial_chains_ok (dirty : list string) :
  chains_ok dirty (initial_traversal dirty).
Proof.
  unfold chains_ok. simpl. repeat split; try constructor. intros x [].
Qed.

Lemma visit_result_chains (dirty : list string) (chunkId : string)
  (t : Traversal) (h : Hit) :
  In chunkId dirty -> chains_ok dirty t ->
  chains_ok dirty (visit_result chunkId t h).
Proof.
  intros Hd (Hmap & Hsub & Hshape & Hedges & Hle).
  unfold visit_result.
  destruct (hit_edge h) as [edge|]; [|now repeat split].
  destruct (str_eq (source edge) chunkId || str_eq (target edge) chunkId)%bool;
    [|now repeat split].
  set (x := if str_eq (source edge) chunkId then target edge else source edge).
  destruct (set_has (visited t) x) eqn:Ev; simpl.
  - unfold chains_ok. simpl. repeat split; try assumption. lia.
  - assert (Hx : ~ In x (cascadeAffected t)).
    { intros Hin. apply Hsub in Hin. apply set_has_In in Hin. congruence. }
    assert (Hadd : set_add (cascadeAffected t) x = cascadeAffected t ++ [x]).
    { unfold set_add. apply set_has_false in Hx. now rewrite Hx. }
    unfold chains_ok. simpl. rewrite Hadd. repeat split.
    + rewrite map_app, Hmap. reflexivity.
    + intros y Hy. apply set_add_In. apply in_app_or in Hy.
      destruct Hy as [Hy | [<- | []]]; [left; now apply Hsub | now right].
    + apply Forall_app. split; [assumption|].
      repeat constructor. exact Hd.
    + rewrite length_app. simpl. lia.
    + lia.
Qed.

Lemma visit_results_chains (dirty : list string) (chunkId : string)
  (hits : list Hit) (t : Traversal) :
  In chunkId dirty -> chains_ok dirty t ->
  chains_ok dirty (fold_left (visit_result chunkId) hits t).
Proof.
  intros Hd. revert t. induction hits as [|h hits IH]; intros t Hok.
  - exact Hok.
  - simpl. apply IH. now apply visit_result_chains.
Qed.

Lemma propagate_loop_chains (args : GraphPropagateParams)
  (store : VectorStore) (embedder : Embedder)
  (edgeTypes : list GraphEdgeType) (dirty chunks : list string)
  (t t' : Traversal) (st st' : StoreState) :
  incl chunks dirty -> chains_ok dirty t ->
  propagate_loop args store embedder edgeTypes chunks t st = (Ok t', st') ->
  chains_ok dirty t'.
Proof.
  revert t. induction chunks as [|d chunks IH]; intros t Hincl Hok; simpl.
  - intros H; inversion H; now subst.
  - unfold bind, lift, store_search.
    destruct (embed embedder _) as [emb|msg]; [|discriminate].
    destruct (search store st emb 100) as [raw|msg]; [|discriminate].
    apply IH.
    + intros x Hx. apply Hincl. now right.
    + apply visit_results_chains; [|assumption]. apply Hincl. now left.
Qed.

(** X4.  In every answer of a propagation the chain log has one record per
    affected chunk, in the same order; each record is a single hop (depth 1,
    a two-element path, one edge type) that starts at a dirty chunk;
    [edges_traversed] is the number of affected chunks and is at most
    [nodes_visited]. *)
Theorem cascade_chains_shape (args : GraphPropagateParams)
  (context : InternalToolContext) (st : StoreState) :
  let r := fst (graphPropagate args context st) in
  map affected_chunk (cascade_chains r) = cascade_affected r
  /\ Forall (chain_shape (gpp_dirty_chunks args)) (cascade_chains r)
  /\ edges_traversed (stats r) = length (cascade_affected r)
  /\ (edges_traversed (stats r) <= nodes_visited (stats r))%nat.
Proof.
  assert (Hfinal : forall t,
    chains_ok (gpp_dirty_chunks args) t ->
    map affected_chunk (cascadeChains t) = cascadeAffected t
    /\ Forall (chain_shape (gpp_dirty_chunks args)) (cascadeChains t)
    /\ edgesTraversed t = length (cascadeAffected t)
    /\ (edgesTraversed t <= nodesVisited t)%nat).
  { intros t (H1 & _ & H3 & H4 & H5). now repeat split. }
  pose proof (initial_chains_ok (gpp_dirty_chunks args)) as Hinit.
  unfold graphPropagate, try_catch, graphPropagate_body. unfold bind.
  destruct (vectorStoreManager context) as [vsm|]; [|now apply Hfinal].
  destruct (default_embedder (embeddingManager context)) as [em|];
    [|now apply Hfinal].
  unfold lift.
  destruct (knowledge_store vsm) as [[store|]|msg];
    [| now apply Hfinal | simpl; repeat split; constructor].
  destruct (propagate_loop _ _ _ _ _ _ _) as [[t|msg] st'] eqn:E.
  - apply Hfinal.
    apply (propagate_loop_chains _ _ _ _ _ _ _ _ _ _ (incl_refl _) Hinit E).
  - simpl. repeat split; constructor.
Qed.

(** ** Keys of the store and the graph removals *)









(** ** Bulk updates *)










(** X7.  A graph update that lacks the argument of its operation fails with
    the message naming it, and an add without the store or without the
    embedder succeeds with nothing affected; in both cases nothing is
    written. *)
Theorem graph_update_writes_nothing (args : GraphUpdateParams)
  (context : InternalToolContext) (rd : VectorIdReadings) (st : StoreState)
  (store : option VectorStore) :
  knowledge_store_opt (vectorStoreManager context) = Ok store ->
  (gup_operation args = add_node \/ gup_operation args = update_node ->
   gup_node args = None ->
   graphUpdate args context rd st
   = (update_failure "node required for add_node/update_node", st))
  /\ (gup_operation args = remove_node -> present (gup_node_id args) = None ->
      graphUpdate args context rd st
      = (update_failure "node_id required for remove_node", st))
  /\ (gup_operation args = add_edge -> gup_edge args = None ->
      graphUpdate args context rd st
      = (update_failure "edge required for add_edge", st))
  /\ (gup_operation args = remove_edge -> gup_edge args = None ->
      graphUpdate args context rd st
      = (update_failure "edge required for remove_edge", st))
  /\ (store = None \/ default_embedder (embeddingManager context) = None ->
      (gup_operation args = add_edge /\ gup_edge args <> None)
      \/ ((gup_operation args = add_node \/ gup_operation args = update_node)
          /\ gup_node args <> None) ->
      graphUpdate args context rd st = (update_done 0 0, st)).
Proof.
  intros Hs.
  assert (Hrun : forall k : option VectorStore -> M GraphUpdateResponse,
            try_catch (bind (lift (knowledge_store_opt
                                     (vectorStoreManager context))) k)
              update_failure st
            = try_catch (k store) update_failure st).
  { intros k. unfold try_catch, bind, lift. now rewrite Hs. }
  split; [|split; [|split; [|split]]].
  - intros [Hop | Hop] Hn; unfold graphUpdate, graphUpdate_body;
      rewrite Hrun, Hop, Hn; reflexivity.
  - intros Hop Hid. unfold graphUpdate, graphUpdate_body.
    rewrite Hrun, Hop. unfold present in Hid.
    destruct (gup_node_id args) as [i|]; [|reflexivity].
    destruct (truthy i); [discriminate | reflexivity].
  - intros Hop He. unfold graphUpdate, graphUpdate_body.
    rewrite Hrun, Hop, He. reflexivity.
  - intros Hop He. unfold graphUpdate, graphUpdate_body.
    rewrite Hrun, Hop, He. reflexivity.
  - intros Hnone Hop. now apply add_without_services with (store := store).
Qed.

Lemma graph_update_writes_nothing_witness :
  graphUpdate (graph_args add_edge None) full_context (readings_at 5 1)
    scenario_graph
  = (update_failure "edge required for add_edge", scenario_graph)
  /\ graphUpdate (graph_args add_edge (Some (import_edge "A" "B" 3)))
       no_services (readings_at 5 1) scenario_graph
     = (update_done 0 0, scenario_graph).
Proof.
  split.
  - destruct (graph_update_writes_nothing (graph_args add_edge None)
                full_context (readings_at 5 1) scenario_graph
                (Some scan_store) eq_refl) as (_ & _ & Hedge & _).
    now apply Hedge.
  - destruct (graph_update_writes_nothing
                (graph_args add_edge (Some (import_edge "A" "B" 3)))
                no_services (readings_at 5 1) scenario_graph None eq_refl)
      as (_ & _ & _ & _ & Hnone).
    apply Hnone; [now left|]. left. split; [reflexivity | discriminate].
Defined.

(** ** Branch ids *)

Lemma sanitize_char_class (c : ascii) :
  lower_alnum_or_dash (sanitize_char c) = true.
Proof. destruct c as [[] [] [] [] [] [] [] []]; reflexivity. Qed.

Lemma sanitize_char_twice (c : ascii) :
  sanitize_char (sanitize_char c) = sanitize_char c.
Proof. destruct c as [[] [] [] [] [] [] [] []]; reflexivity. Qed.

Lemma sanitize_cons (c : ascii) (s : string) :
  sanitize (String c s) = String (sanitize_char c) (sanitize s).
Proof. reflexivity. Qed.

(** X8.  The sanitized git branch name that goes into a branch id has the
    length of the name, consists of lower-case letters, digits and dashes
    only, and sanitizing it again changes nothing. *)
Theorem branch_id_alphabet (gitBranch : string) :
  String.length (sanitize gitBranch) = String.length gitBranch
  /\ string_forallb lower_alnum_or_dash (sanitize gitBranch) = true
  /\ sanitize (sanitize gitBranch) = sanitize gitBranch.
Proof.
  induction gitBranch as [|c s (IHlen & IHcls & IHtwice)].
  - repeat split.
  - rewrite sanitize_cons. split; [|split].
    + simpl. now rewrite IHlen.
    + cbn [string_forallb]. now rewrite sanitize_char_class, IHcls.
    + rewrite sanitize_cons, sanitize_char_twice. now rewrite IHtwice.
Qed.

Example branch_id_sample :
  generateBranchId "Feature/Login_v2" "k3j9qa" = "ab-feature-login-v2-k3j9qa".
Proof. reflexivity. Qed.

(** ** Branch operations other than create *)




(** X10.  The branch a [get] returns is a branch record of the requested
    project that has the requested git branch name and the requested branch
    id, as far as they are given; the branches a [list] returns are all
    branch records of the requested project, and [count] is their number. *)
Theorem branch_lookup_sound (args : BranchManageParams)
  (context : InternalToolContext) (rd : BranchReadings) (st : StoreState) :
  (forall p, fst (branchManage args context rd st) = BranchFound p ->
     project_branch (bmp_project_path args) p
     /\ (forall g, present (bmp_git_branch args) = Some g ->
           exists b, payload_branch p = Some b /\ git_branch b = g)
     /\ (forall id, present (bmp_analysis_branch_id args) = Some id ->
           exists b, payload_branch p = Some b /\ branch_id b = id))
  /\ (forall ps n, fst (branchManage args context rd st) = BranchList ps n ->
        n = length ps /\ Forall (project_branch (bmp_project_path args)) ps).
Proof.
  assert (Hget : forall h, get_filter args h = true ->
    project_branch (bmp_project_path args) (hit_payload h)
    /\ (forall g, present (bmp_git_branch args) = Some g ->
          exists b, payload_branch (hit_payload h) = Some b
                    /\ git_branch b = g)
    /\ (forall id, present (bmp_analysis_branch_id args) = Some id ->
          exists b, payload_branch (hit_payload h) = Some b
                    /\ branch_id b = id)).
  { intros h. unfold get_filter, project_branch, str_eq.
    destruct (String.eqb_spec (memoryType (hit_payload h)) "branch")
      as [Hm|]; [simpl | discriminate].
    destruct (project_path (hit_payload h)) as [pp|]; [|discriminate].
    destruct (String.eqb_spec pp (bmp_project_path args)) as [->|];
      [simpl | discriminate].
    destruct (present (bmp_analysis_branch_id args)) as [id|];
      destruct (present (bmp_git_branch args)) as [g|];
      destruct (payload_branch (hit_payload h)) as [b|]; simpl;
      try discriminate.
    - destruct (String.eqb_spec (branch_id b) id); [simpl | discriminate].
      destruct (String.eqb_spec (git_branch b) g); [|discriminate].
      intros _. repeat split; try assumption.
      + intros g' E; inversion E; subst. now exists b.
      + intros i' E; inversion E; subst. now exists b.
    - destruct (String.eqb_spec (branch_id b) id); [simpl | discriminate].
      intros _. repeat split; try assumption; [discriminate|].
      intros i' E; inversion E; subst. now exists b.
    - destruct (String.eqb_spec (git_branch b) g); [|discriminate].
      intros _. repeat split; try assumption; [|discriminate].
      intros g' E; inversion E; subst. now exists b.
    - intros _. repeat split; try assumption; discriminate.
    - intros _. repeat split; try assumption; discriminate. }
  assert (Hlist : forall h, list_filter args h = true ->
    project_branch (bmp_project_path args) (hit_payload h)).
  { intros h. unfold list_filter, project_branch, str_eq.
    destruct (String.eqb_spec (memoryType (hit_payload h)) "branch")
      as [Hm|]; [simpl | discriminate].
    destruct (project_path (hit_payload h)) as [pp|]; [|discriminate].
    destruct (String.eqb_spec pp (bmp_project_path args)) as [->|];
      [|discriminate].
    now split. }
  unfold branchManage, try_catch, branchManage_body.
  unfold bind at 1. unfold lift at 1. unfold bind at 2. unfold lift at 1.
  destruct (knowledge_store_opt (vectorStoreManager context))
    as [store|msg]; [|split; intros; discriminate].
  set (em := default_embedder (embeddingManager context)).
  destruct (bmp_operation args).
  - unfold branch_create.
    destruct (present (bmp_git_branch args));
      [|split; intros; discriminate].
    destruct store; [|split; intros; discriminate].
    destruct em as [e|]; [|split; intros; discriminate].
    unfold bind, lift, store_insert.
    destruct (embed e _); split; intros; discriminate.
  - unfold branch_get.
    destruct (present (bmp_git_branch args)) eqn:Eg,
             (present (bmp_analysis_branch_id args)) eqn:Ei.
    4: split; intros; discriminate.
    all: destruct store as [vs|]; [|split; intros; discriminate].
    all: destruct em as [e|]; [|split; intros; discriminate].
    all: unfold bind, lift, store_search.
    all: destruct (embed e _) as [emb|msg]; [|split; intros; discriminate].
    all: destruct (search vs st emb 20) as [raw|msg];
      [|split; intros; discriminate].
    all: destruct (filter (get_filter args) raw) as [|first rest] eqn:Ef;
      [split; intros; discriminate|].
    all: assert (Hfirst : get_filter args first = true)
      by (assert (Hin : In first (filter (get_filter args) raw))
            by (rewrite Ef; now left);
          now apply filter_In in Hin).
    all: split; [|intros; discriminate].
    all: intros p Hp; inversion Hp; subst;
      rewrite ?Eg, ?Ei in *; now apply Hget.
  - unfold branch_list.
    destruct store as [vs|];
      [|split; [intros; discriminate|];
        intros ps n H; inversion H; split; [reflexivity | constructor]].
    destruct em as [e|];
      [|split; [intros; discriminate|];
        intros ps n H; inversion H; split; [reflexivity | constructor]].
    unfold bind, lift, store_search.
    destruct (embed e _) as [emb|msg]; [|split; intros; discriminate].
    destruct (search vs st emb 200) as [raw|msg];
      [|split; intros; discriminate].
    split; [intros; discriminate|].
    intros ps n H. inversion H; subst. split; [now rewrite length_map|].
    apply Forall_forall. intros p Hp. apply in_map_iff in Hp.
    destruct Hp as (h & <- & Hh). apply filter_In in Hh.
    now apply Hlist.
  - destruct (present (bmp_analysis_branch_id args));
      [|split; intros; discriminate].
    destruct store; split; intros; discriminate.
  - destruct (present (bmp_analysis_branch_id args)),
             (present (bmp_new_base_snapshot_id args));
      split; intros; discriminate.
  - destruct (present (bmp_analysis_branch_id args));
      split; intros; discriminate.
Qed.

Lemma branch_lookup_sound_witness :
  exists p,
    fst (branchManage (branch_args op_get (Some "feature/x") None None)
           full_context branch_readings branch_store) = BranchFound p
    /\ project_branch "/repo" p
    /\ exists b, payload_branch p = Some b /\ git_branch b = "feature/x".
Proof.
  destruct (branch_lookup_sound
              (branch_args op_get (Some "feature/x") None None)
              full_context branch_readings branch_store) as [Hget _].
  eexists. split; [reflexivity|].
  destruct (Hget _ eq_refl) as (Hp & Hg & _).
  split; [exact Hp | now apply Hg].
Defined.




(** ** What the snapshot writers report *)

(** X12.  A snapshot create reports [stored] exactly when it has inserted
    the snapshot it returns, under the numeric vector id it generated;
    otherwise the store is unchanged.  Without the store manager or the
    embedding manager it still succeeds, unstored.  A merge has inserted its
    snapshot exactly when it succeeds; a failed merge leaves the store
    unchanged. *)
Theorem snapshot_writes_as_reported (cargs : SnapshotCreateParams)
  (margs : SnapshotMergeParams) (context : InternalToolContext)
  (rd : SnapshotReadings) (st : StoreState) :
  let vectorId :=
    generateNumericVectorId (rd_vector_now rd) (rd_vector_random rd) 0 in
  let created := create_snapshot_record cargs rd in
  let merged := merge_snapshot_record margs rd in
  let c := snapshotCreate cargs context rd st in
  let m := snapshotMerge margs context rd st in
  (scr_stored (fst c) = true ->
   scr_snapshot (fst c) = Some created
   /\ exists v,
        snd c = kv_insert v vectorId
                  (snapshot_payload created (buildSnapshotSearchText created)
                     vectorId) st)
  /\ (scr_stored (fst c) = false -> snd c = st)
  /\ (vectorStoreManager context = None \/ embeddingManager context = None ->
      scr_success (fst c) = true /\ scr_stored (fst c) = false
      /\ scr_snapshot (fst c) = Some created)
  /\ (smr_success (fst m) = true ->
      exists v,
        snd m = kv_insert v vectorId
                  (snapshot_payload merged (buildSnapshotSearchText merged)
                     vectorId) st)
  /\ (smr_success (fst m) = false -> snd m = st /\ smr_result (fst m) = None).
Proof.
  intros vectorId created merged c m. subst c m.
  assert (Hc :
    (scr_stored (fst (snapshotCreate cargs context rd st)) = false
     /\ snd (snapshotCreate cargs context rd st) = st)
    \/ (scr_stored (fst (snapshotCreate cargs context rd st)) = true
        /\ scr_snapshot (fst (snapshotCreate cargs context rd st))
           = Some created
        /\ exists v,
             snd (snapshotCreate cargs context rd st)
             = kv_insert v vectorId
                 (snapshot_payload created (buildSnapshotSearchText created)
                    vectorId) st)).
  { unfold snapshotCreate, try_catch, snapshotCreate_body.
    destruct (vectorStoreManager context) as [vsm|];
      [|left; split; reflexivity].
    destruct (embeddingManager context) as [em|];
      [|left; split; reflexivity].
    unfold bind at 1. unfold lift at 1.
    destruct (knowledge_store vsm) as [[store|]|msg];
      [| left; split; reflexivity | left; split; reflexivity].
    destruct (getEmbedder_default em) as [embedder|];
      [|left; split; reflexivity].
    unfold bind, lift, store_insert.
    destruct (embed embedder _) as [v|msg]; [|left; split; reflexivity].
    right. split; [reflexivity|]. split; [reflexivity|]. now exists v. }
  assert (Hm :
    (smr_success (fst (snapshotMerge margs context rd st)) = false
     /\ snd (snapshotMerge margs context rd st) = st
     /\ smr_result (fst (snapshotMerge margs context rd st)) = None)
    \/ (smr_success (fst (snapshotMerge margs context rd st)) = true
        /\ exists v,
             snd (snapshotMerge margs context rd st)
             = kv_insert v vectorId
                 (snapshot_payload merged (buildSnapshotSearchText merged)
                    vectorId) st)).
  { unfold snapshotMerge, try_catch, snapshotMerge_body.
    destruct (vectorStoreManager context) as [vsm|];
      [|left; repeat split].
    destruct (embeddingManager context) as [em|];
      [|left; repeat split].
    unfold bind at 1. unfold lift at 1.
    destruct (knowledge_store vsm) as [[store|]|msg];
      [| left; repeat split | left; repeat split].
    destruct (getEmbedder_default em) as [embedder|];
      [|left; repeat split].
    unfold bind, lift, store_insert.
    destruct (embed embedder _) as [v|msg]; [|left; repeat split].
    right. split; [reflexivity|]. now exists v. }
  split; [|split; [|split; [|split]]].
  - intros H. destruct Hc as [[Hf _] | (_ & Hs & Hv)]; [congruence|].
    now split.
  - intros H. destruct Hc as [[_ Hst] | (Ht & _)]; [assumption | congruence].
  - unfold snapshotCreate, try_catch, snapshotCreate_body.
    intros [-> | ->]; [now repeat split|].
    destruct (vectorStoreManager context); now repeat split.
  - intros H. destruct Hm as [(Hf & _) | (_ & Hv)]; [congruence | assumption].
  - intros H. destruct Hm as [(_ & Hst & Hr) | (Ht & _)];
      [now split | congruence].
Qed.

Lemma snapshot_writes_as_reported_witness :
  snd (snapshotCreate create_on_baseline no_services sample_readings
         baseline_store) = baseline_store
  /\ length (snd (snapshotCreate create_on_baseline full_context
                    sample_readings baseline_store)) = 2%nat
  /\ snd (snapshotMerge merge_onto_baseline no_services sample_readings
            baseline_store) = baseline_store.
Proof.
  destruct (snapshot_writes_as_reported create_on_baseline merge_onto_baseline
              no_services sample_readings baseline_store)
    as (_ & Hunstored & _ & _ & Hfailed).
  destruct (snapshot_writes_as_reported create_on_baseline merge_onto_baseline
              full_context sample_readings baseline_store)
    as (Hstored & _).
  split; [now apply Hunstored|]. split.
  - destruct (Hstored eq_refl) as (_ & v & Hv). rewrite Hv. reflexivity.
  - now apply Hfailed.
Defined.

(** ** Envelope validation and storage *)

Lemma includes_In (l : list string) (x : string) :
  includes l x = true <-> In x l.
Proof.
  unfold includes. rewrite existsb_exists. split.
  - intros (y & Hin & E). apply String.eqb_eq in E. now subst.
  - intros Hin. exists x. split; [assumption | apply String.eqb_refl].
Qed.

(** The five tests of the validation, read as one condition. *)
Lemma validateEnvelopeParams_spec (params : EnvelopeStoreParams) :
  validateEnvelopeParams params = None
  <-> (In (esp_workflow_goal params) validGoals
       /\ In (esp_confidence params) validConfidence
       /\ 0 <= esp_tier params /\ esp_tier params <= 8
       /\ (esp_chunk_index params < esp_total_chunks params)%Z
       /\ exists f, esp_findings params = Some f /\ finding_keys f <> []).
Proof.
  unfold validateEnvelopeParams.
  destruct (includes validGoals (esp_workflow_goal params)) eqn:Eg; cbn [negb orb].
  2: { split; [discriminate|]. intros (H & _).
       apply includes_In in H. congruence. }
  destruct (includes validConfidence (esp_confidence params)) eqn:Ec; cbn [negb orb].
  2: { split; [discriminate|]. intros (_ & H & _).
       apply includes_In in H. congruence. }
  destruct (Qle_bool 0 (esp_tier params)) eqn:E0; cbn [negb orb].
  2: { split; [discriminate|]. intros (_ & _ & H & _).
       apply Qle_bool_iff in H. congruence. }
  destruct (Qle_bool (esp_tier params) 8) eqn:E8; cbn [negb orb].
  2: { split; [discriminate|]. intros (_ & _ & _ & H & _).
       apply Qle_bool_iff in H. congruence. }
  destruct (Z.leb_spec (esp_total_chunks params) (esp_chunk_index params))
    as [Hi|Hi].
  { split; [discriminate|]. intros (_ & _ & _ & _ & H & _). lia. }
  apply includes_In in Eg, Ec. apply Qle_bool_iff in E0, E8.
  unfold findings_empty. destruct (esp_findings params) as [f|].
  - destruct (finding_keys f) as [|k ks] eqn:Ek; cbn [length Nat.eqb].
    + split; [discriminate|].
      intros (_ & _ & _ & _ & _ & f' & Hf & Hne). inversion Hf; subst.
      congruence.
    + split; [|reflexivity]. intros _. repeat split; try assumption.
      exists f. split; [reflexivity|]. rewrite Ek. discriminate.
  - split; [discriminate|].
    intros (_ & _ & _ & _ & _ & f' & Hf & _). discriminate.
Qed.

(** X13.  [validateEnvelopeParams] accepts exactly the parameters with a
    valid workflow goal and confidence name, a tier between 0 and 8, a
    chunk index below the number of chunks and at least one finding key;
    it sets no lower bound on the chunk index, and a rejection names the
    first failing test in the order goal, confidence, tier. *)
Theorem envelope_validation (params : EnvelopeStoreParams) :
  (validateEnvelopeParams params = None
   <-> (In (esp_workflow_goal params) validGoals
        /\ In (esp_confidence params) validConfidence
        /\ 0 <= esp_tier params /\ esp_tier params <= 8
        /\ (esp_chunk_index params < esp_total_chunks params)%Z
        /\ exists f, esp_findings params = Some f /\ finding_keys f <> []))
  /\ (~ In (esp_workflow_goal params) validGoals ->
      validateEnvelopeParams params = Some InvalidGoal)
  /\ (In (esp_workflow_goal params) validGoals ->
      ~ In (esp_confidence params) validConfidence ->
      validateEnvelopeParams params = Some InvalidConfidence)
  /\ (In (esp_workflow_goal params) validGoals ->
      In (esp_confidence params) validConfidence ->
      ~ (0 <= esp_tier params /\ esp_tier params <= 8) ->
      validateEnvelopeParams params = Some TierOutOfRange).
Proof.
  split; [apply validateEnvelopeParams_spec|].
  unfold validateEnvelopeParams.
  destruct (includes validGoals (esp_workflow_goal params)) eqn:Eg;
    cbn [negb orb].
  2: { split; [reflexivity|]. split; intros H; apply includes_In in H;
       congruence. }
  apply includes_In in Eg.
  split; [intros H; contradiction|].
  destruct (includes validConfidence (esp_confidence params)) eqn:Ec;
    cbn [negb orb].
  2: { split; [reflexivity|]. intros _ H. apply includes_In in H.
       congruence. }
  apply includes_In in Ec.
  split; [intros _ H; contradiction|].
  intros _ _ Hout.
  destruct (Qle_bool 0 (esp_tier params)) eqn:E0; cbn [negb orb];
    [|reflexivity].
  destruct (Qle_bool (esp_tier params) 8) eqn:E8; cbn [negb orb];
    [|reflexivity].
  apply Qle_bool_iff in E0, E8. exfalso. apply Hout. now split.
Qed.

Lemma envelope_validation_witness :
  validateEnvelopeParams (sample_envelope_args 3 (-1) 4) = None.
Proof.
  apply (proj1 (envelope_validation _)). simpl.
  split; [now left|]. split; [now left|].
  split; [discriminate|]. split; [discriminate|]. split; [lia|].
  exists sample_findings. split; [reflexivity | discriminate].
Defined.

(** The store tool after a successful validation. *)
Lemma envelopeStore_valid (args : EnvelopeStoreParams)
  (context : InternalToolContext) (rd : EnvelopeReadings) (st : StoreState)
  (f : EnvelopeFindings) :
  validateEnvelopeParams args = None -> esp_findings args = Some f ->
  let e := build_envelope args f rd in
  let vectorId :=
    generateNumericVectorId (er_vector_now rd) (er_vector_random rd) 0 in
  (exists w, envelopeStore args context rd st = (envelope_stored e w, st)
             /\ (vectorStoreManager context = None
                 \/ embeddingManager context = None
                 \/ exists em, embeddingManager context = Some em
                               /\ getEmbedder_default em = None))
  \/ (exists v,
        envelopeStore args context rd st
        = (envelope_stored e None,
           kv_insert v vectorId
             (envelope_payload e (buildEnvelopeSearchText e) vectorId) st))
  \/ (exists err,
        envelopeStore args context rd st = (envelope_failure err, st)
        /\ (err = NoVectorStore \/ exists msg, err = Thrown msg)).
Proof.
  intros Hval Hf e vectorId.
  unfold envelopeStore, try_catch, envelopeStore_body.
  rewrite Hval, Hf. fold e.
  destruct (vectorStoreManager context) as [vsm|].
  2: { left. eexists. split; [reflexivity | now left]. }
  destruct (embeddingManager context) as [em|].
  2: { left. eexists. split; [reflexivity | right; now left]. }
  unfold bind at 1. unfold lift at 1.
  destruct (knowledge_store vsm) as [[store|]|msg].
  - destruct (getEmbedder_default em) as [embedder|] eqn:Eem.
    + unfold bind, lift, store_insert.
      destruct (embed embedder _) as [v|msg].
      * right; left. now exists v.
      * right; right. eexists. split; [reflexivity|]. right. now exists msg.
    + left. eexists. split; [reflexivity|]. right; right. now exists em.
  - right; right. eexists. split; [reflexivity | now left].
  - right; right. eexists. split; [reflexivity|]. right. now exists msg.
Qed.

(** X14.  The envelope store tool rejects invalid parameters with the
    validation error, unstored, and writes nothing.  An envelope it returns
    is PENDING, carries the validated tier and chunk position, one time
    stamp for creation and update, and as findings count the given count
    or else the number of finding keys. *)
Theorem envelope_store_validates (args : EnvelopeStoreParams)
  (context : InternalToolContext) (rd : EnvelopeReadings) (st : StoreState) :
  let r := envelopeStore args context rd st in
  (forall err, validateEnvelopeParams args = Some err ->
     r = (envelope_failure err, st))
  /\ (forall e, esr_envelope (fst r) = Some e ->
        esr_success (fst r) = true
        /\ esr_envelope_id (fst r) = Some (envelope_id e)
        /\ validation_status e = V_PENDING
        /\ 0 <= env_tier e /\ env_tier e <= 8
        /\ (env_chunk_index e < env_total_chunks e)%Z
        /\ env_created_at e = env_updated_at e
        /\ finding_keys (env_findings e) <> []
        /\ findings_count e
           = match esp_findings_count args with
             | Some n => n
             | None => Z.of_nat (length (finding_keys (env_findings e)))
             end).
Proof.
  intros r. subst r. split.
  - intros err Herr. unfold envelopeStore, try_catch, envelopeStore_body.
    now rewrite Herr.
  - intros e He.
    destruct (validateEnvelopeParams args) as [err|] eqn:Hval.
    + revert He. unfold envelopeStore, try_catch, envelopeStore_body.
      rewrite Hval. discriminate.
    + pose proof (proj1 (validateEnvelopeParams_spec args) Hval)
        as (_ & _ & H0 & H8 & Hidx & f & Hf & Hne).
      destruct (envelopeStore_valid args context rd st f Hval Hf)
        as [(w & Hrun & _) | [(v & Hrun) | (err & Hrun & _)]];
        rewrite Hrun in He |- *; simpl in He; inversion He; subst;
        now repeat split.
Qed.

Lemma envelope_store_validates_witness :
  envelopeStore (sample_envelope_args 9 0 4) full_context envelope_readings []
  = (envelope_failure TierOutOfRange, [])
  /\ envelopeStore (sample_envelope_args 3 4 4) full_context
       envelope_readings []
     = (envelope_failure (ChunkIndexTooLarge 4 4), []).
Proof.
  split.
  - destruct (envelope_store_validates (sample_envelope_args 9 0 4)
                full_context envelope_readings []) as [Hrej _].
    now apply Hrej.
  - destruct (envelope_store_validates (sample_envelope_args 3 4 4)
                full_context envelope_readings []) as [Hrej _].
    now apply Hrej.
Defined.




(** ** Envelope lookup and deletion *)

Lemma is_envelope_sound (id : string) (h : Hit) :
  is_envelope id h = true ->
  memoryType (hit_payload h) = "envelope"
  /\ payload_envelope_id (hit_payload h) = Some id.
Proof.
  unfold is_envelope, str_eq. intros H.
  apply andb_true_iff in H. destruct H as [Hm Hi].
  apply String.eqb_eq in Hm. split; [assumption|].
  destruct (payload_envelope_id (hit_payload h)) as [i|]; [|discriminate].
  apply String.eqb_eq in Hi. now subst.
Qed.

Lemma envelopeGet_run (id : string) (context : InternalToolContext)
  (st : StoreState) (store : VectorStore) (embedder : Embedder) (v : Vector)
  (hits : list Hit) :
  graph_services context store embedder ->
  embed embedder id = Ok v ->
  search store st v 50 = Ok hits ->
  envelopeGet id context st
  = (match find (is_envelope id) hits with
     | Some h => GetFound (hit_payload h)
     | None => GetNotFound id
     end, st).
Proof.
  intros (vsm & Hv & Hs & He) Hemb Hsearch.
  unfold envelopeGet, try_catch, envelopeGet_body. rewrite Hv.
  destruct (embeddingManager context) as [em|]; [|discriminate].
  simpl in He. unfold bind at 1. unfold lift at 1. rewrite Hs, He.
  unfold bind, lift, store_search. rewrite Hemb, Hsearch.
  now destruct (find (is_envelope id) hits).
Qed.

(** X16.  The envelope get tool never writes; what it returns as found is
    an envelope record with the requested id; with its services there, it
    returns the first envelope with that id among the 50 search results,
    and reports an id that is not among them as not found, which is a
    success. *)
Theorem envelope_get_sound (id : string) (context : InternalToolContext)
  (st : StoreState) :
  let r := envelopeGet id context st in
  snd r = st
  /\ (forall p, fst r = GetFound p ->
        memoryType p = "envelope" /\ payload_envelope_id p = Some id)
  /\ (forall store embedder v hits,
        graph_services context store embedder ->
        embed embedder id = Ok v ->
        search store st v 50 = Ok hits ->
        fst r = match find (is_envelope id) hits with
                | Some h => GetFound (hit_payload h)
                | None => GetNotFound id
                end).
Proof.
  intros r. subst r. split; [|split].
  - unfold envelopeGet, try_catch, envelopeGet_body.
    destruct (vectorStoreManager context) as [vsm|]; [|reflexivity].
    destruct (embeddingManager context) as [em|]; [|reflexivity].
    unfold bind at 1. unfold lift at 1.
    destruct (knowledge_store vsm) as [[store|]|msg]; try reflexivity.
    destruct (getEmbedder_default em) as [embedder|]; [|reflexivity].
    unfold bind, lift, store_search.
    destruct (embed embedder id) as [emb|msg]; [|reflexivity].
    destruct (search store st emb 50) as [results|msg]; [|reflexivity].
    now destruct (find (is_envelope id) results).
  - unfold envelopeGet, try_catch, envelopeGet_body.
    destruct (vectorStoreManager context) as [vsm|]; [|discriminate].
    destruct (embeddingManager context) as [em|]; [|discriminate].
    unfold bind at 1. unfold lift at 1.
    destruct (knowledge_store vsm) as [[store|]|msg]; try discriminate.
    destruct (getEmbedder_default em) as [embedder|]; [|discriminate].
    unfold bind, lift, store_search.
    destruct (embed embedder id) as [emb|msg]; [|discriminate].
    destruct (search store st emb 50) as [results|msg]; [|discriminate].
    destruct (find (is_envelope id) results) as [h|] eqn:Hfind;
      [|discriminate].
    intros p Hp. inversion Hp; subst.
    apply find_some in Hfind. now apply is_envelope_sound.
  - intros store embedder v hits Hsvc Hemb Hsearch.
    now rewrite (envelopeGet_run id context st store embedder v hits).
Qed.

Lemma envelope_get_sound_witness :
  let stored :=
    snd (envelopeStore (sample_envelope_args 3 0 4) full_context
           envelope_readings []) in
  exists p,
    fst (envelopeGet "env-20261101192605-q7x2ab" full_context stored)
    = GetFound p
    /\ payload_envelope_id p = Some "env-20261101192605-q7x2ab"
    /\ fst (envelopeGet "env-missing" full_context stored)
       = GetNotFound "env-missing".
Proof.
  intros stored.
  destruct (envelope_get_sound "env-20261101192605-q7x2ab" full_context
              stored) as (_ & Hfound & _).
  destruct (envelope_get_sound "env-missing" full_context stored)
    as (_ & _ & Hrun).
  eexists. split; [reflexivity|]. split.
  - now apply (Hfound _ eq_refl).
  - apply (Hrun scan_store fake_embedder [] _ graph_services_full eq_refl
             eq_refl).
Defined.

Lemma kv_delete_gone (k : Key) (st : StoreState) :
  ~ has_key (kv_delete k st) k.
Proof.
  unfold has_key, kv_delete. intros Hin. apply in_map_iff in Hin.
  destruct Hin as (e & Hk & He). apply filter_In in He.
  destruct He as [_ Hne]. rewrite Hk, key_eqb_refl in Hne. discriminate.
Qed.


Lemma envelopeDelete_run (id : string) (context : InternalToolContext)
  (st : StoreState) (store : VectorStore) (embedder : Embedder) (v : Vector)
  (hits : list Hit) :
  graph_services context store embedder ->
  embed embedder id = Ok v ->
  search store st v 100 = Ok hits ->
  envelopeDelete id context st
  = match find (is_envelope id) hits with
    | None => (DeleteFailure (Some id) "Envelope not found", st)
    | Some h =>
        if Z.eqb (vector_id (hit_payload h)) 0
        then (DeleteFailure (Some id)
                "Envelope has no vector_id - cannot delete", st)
        else (Deleted id (vector_id (hit_payload h)),
              kv_delete (KNum (vector_id (hit_payload h))) st)
    end.
Proof.
  intros (vsm & Hv & Hs & He) Hemb Hsearch.
  unfold envelopeDelete, try_catch, envelopeDelete_body. rewrite Hv.
  destruct (embeddingManager context) as [em|]; [|discriminate].
  simpl in He. unfold bind at 1. unfold lift at 1. rewrite Hs, He.
  unfold bind, lift, store_search. rewrite Hemb, Hsearch.
  destruct (find (is_envelope id) hits) as [h|]; [|reflexivity].
  now destruct (Z.eqb (vector_id (hit_payload h)) 0).
Qed.

(** X17.  The envelope delete tool deletes by the numeric vector id it
    reads from the first matching search result: when it reports the
    deletion, the id is the requested one, the vector id is not 0, and the
    store is the old one without the entry under that vector id; when it
    fails, for instance because the id is not among the 100 search results
    or the record's vector id is 0, the store is unchanged. *)
Theorem envelope_delete_by_vector_id (id : string)
  (context : InternalToolContext) (st : StoreState) :
  let r := envelopeDelete id context st in
  (forall i vid, fst r = Deleted i vid ->
     i = id /\ vid <> 0%Z /\ snd r = kv_delete (KNum vid) st
     /\ ~ has_key (snd r) (KNum vid))
  /\ (forall i msg, fst r = DeleteFailure i msg -> snd r = st)
  /\ (forall store embedder v hits,
        graph_services context store embedder ->
        embed embedder id = Ok v ->
        search store st v 100 = Ok hits ->
        (find (is_envelope id) hits = None ->
         fst r = DeleteFailure (Some id) "Envelope not found")
        /\ (forall h, find (is_envelope id) hits = Some h ->
              vector_id (hit_payload h) = 0%Z ->
              fst r = DeleteFailure (Some id)
                        "Envelope has no vector_id - cannot delete")).
Proof.
  intros r. subst r.
  assert (Hcases :
    (exists i msg, envelopeDelete id context st = (DeleteFailure i msg, st))
    \/ (exists vid, vid <> 0%Z
          /\ envelopeDelete id context st
             = (Deleted id vid, kv_delete (KNum vid) st))).
  { unfold envelopeDelete, try_catch, envelopeDelete_body.
    destruct (vectorStoreManager context) as [vsm|];
      [|left; now do 2 eexists].
    destruct (embeddingManager context) as [em|];
      [|left; now do 2 eexists].
    unfold bind at 1. unfold lift at 1.
    destruct (knowledge_store vsm) as [[store|]|msg];
      try (left; now do 2 eexists).
    destruct (getEmbedder_default em) as [embedder|];
      [|left; now do 2 eexists].
    unfold bind, lift, store_search.
    destruct (embed embedder id) as [emb|msg]; [|left; now do 2 eexists].
    destruct (search store st emb 100) as [results|msg];
      [|left; now do 2 eexists].
    destruct (find (is_envelope id) results) as [h|];
      [|left; now do 2 eexists].
    destruct (Z.eqb_spec (vector_id (hit_payload h)) 0) as [E|E];
      [left; now do 2 eexists|].
    right. exists (vector_id (hit_payload h)). now split. }
  split; [|split].
  - intros i vid H.
    destruct Hcases as [(i' & msg & E) | (vid' & Hne & E)];
      rewrite E in H |- *; simpl in *; [discriminate|].
    inversion H; subst. repeat split; try assumption.
    apply kv_delete_gone.
  - intros i msg H.
    destruct Hcases as [(i' & msg' & E) | (vid' & Hne & E)];
      rewrite E in H |- *; simpl in *; [reflexivity | discriminate].
  - intros store embedder v hits Hsvc Hemb Hsearch.
    rewrite (envelopeDelete_run id context st store embedder v hits
               Hsvc Hemb Hsearch).
    split.
    + intros ->. reflexivity.
    + intros h -> ->. reflexivity.
Qed.

Lemma envelope_delete_by_vector_id_witness :
  let stored :=
    snd (envelopeStore (sample_envelope_args 3 0 4) full_context
           envelope_readings []) in
  fst (envelopeDelete "env-missing" full_context stored)
  = DeleteFailure (Some "env-missing") "Envelope not found"
  /\ envelopeDelete "env-20261101192605-q7x2ab" full_context stored
     = (Deleted "env-20261101192605-q7x2ab" 1700000001401417, []).
Proof.
  intros stored.
  destruct (envelope_delete_by_vector_id "env-missing" full_context stored)
    as (_ & _ & Hrun).
  destruct (Hrun scan_store fake_embedder [] _ graph_services_full eq_refl
              eq_refl) as [Hmissing _].
  split; [now apply Hmissing|].
  destruct (envelope_delete_by_vector_id "env-20261101192605-q7x2ab"
              full_context stored) as (Hdel & _).
  destruct (Hdel "env-20261101192605-q7x2ab" 1700000001401417%Z eq_refl)
    as (_ & _ & Hst & _).
  apply injective_projections; [reflexivity | exact Hst].
Defined.



(** ** Relocation against what the envelope store tool writes *)

Lemma stored_envelope_filtered (project : string) (hits : list Hit) :
  Forall (fun h => memoryType (hit_payload h) = "envelope" ->
                   exists e t id, hit_payload h = envelope_payload e t id)
         hits ->
  filter (is_project_envelope project) hits = [].
Proof.
  induction 1 as [|h hits Hh _ IH]; [reflexivity|].
  cbn [filter]. rewrite IH. unfold is_project_envelope, str_eq.
  destruct (String.eqb_spec (memoryType (hit_payload h)) "envelope")
    as [E|_]; [|reflexivity].
  destruct (Hh E) as (e & t & id & ->). reflexivity.
Qed.

(** X19.  The SEMANTIC strategy keeps a search result only when its payload
    has the caller's [project_path], and the payload the envelope store
    tool writes has none.  So when every envelope among the 20 results was
    written by that tool, SEMANTIC reports LOW_CONFIDENCE with confidence 0
    whatever the scores are; and a relocation without a delta manifest and
    with a positive threshold then answers STALE, CONTENT_CHANGED, 0 for
    every list of strategies. *)
Theorem stored_envelopes_not_relocated (args : FindingRelocateParams)
  (context : InternalToolContext) (st : StoreState) (store : VectorStore)
  (embedder : Embedder) (v : Vector) (hits : list Hit) :
  graph_services context store embedder ->
  embed embedder ("finding:" +++ frp_finding_id args) = Ok v ->
  search store st v 20 = Ok hits ->
  Forall (fun h => memoryType (hit_payload h) = "envelope" ->
                   exists e t id, hit_payload h = envelope_payload e t id)
         hits ->
  attempt_in args (Some store) (Some embedder) st SEMANTIC
  = Ok (initial_candidate, [tried SEMANTIC "LOW_CONFIDENCE" 0])
  /\ (0 < min_confidence_of args -> frp_delta_manifest args = None ->
      fst (findingRelocate args context st)
      = relocate_success args STALE CONTENT_CHANGED 0
          (entries_of args (Some store) (Some embedder) st
             (strategies_of args))).
Proof.
  intros (vsm & Hv & Hs & He) Hemb Hsearch Hhits.
  assert (Hsem : attempt_in args (Some store) (Some embedder) st SEMANTIC
                 = Ok (initial_candidate,
                       [tried SEMANTIC "LOW_CONFIDENCE" 0])).
  { unfold attempt_in, attempt, semantic_attempt, bind, lift, store_search.
    rewrite Hemb, Hsearch.
    now rewrite (stored_envelope_filtered _ hits Hhits). }
  split; [exact Hsem|].
  intros Hpos Hdm.
  assert (Hlow : Qle_bool (min_confidence_of args) 0 = false).
  { destruct (Qle_bool (min_confidence_of args) 0) eqn:E; [|reflexivity].
    apply Qle_bool_iff in E. lra. }
  assert (Hstore : knowledge_store_opt (vectorStoreManager context)
                   = Ok (Some store)).
  { now rewrite Hv. }
  pose proof (relocate_falls_through args context st (Some store) Hstore)
    as Hfall.
  rewrite He in Hfall. apply Hfall.
  apply Forall_forall. intros s _. unfold declines.
  destruct s.
  - do 2 eexists. split; [reflexivity | exact Hlow].
  - unfold attempt_in. simpl. rewrite Hdm.
    do 2 eexists. split; [reflexivity | exact Hlow].
  - do 2 eexists. split; [exact Hsem | exact Hlow].
  - do 2 eexists. split; [reflexivity | exact Hlow].
  - do 2 eexists. split; [reflexivity | exact Hlow].
Qed.

Lemma stored_envelopes_not_relocated_witness :
  let stored :=
    snd (envelopeStore (sample_envelope_args 3 0 4) full_context
           envelope_readings []) in
  length stored = 1%nat
  /\ frr_status (fst (findingRelocate relocate_plain full_context stored))
     = STALE.
Proof.
  intros stored. split; [reflexivity|].
  destruct (stored_envelopes_not_relocated relocate_plain full_context stored
              scan_store fake_embedder []
              (match search scan_store stored [] 20 with
               | Ok l => l | Throw _ => [] end)
              graph_services_full eq_refl eq_refl) as [_ Hstale].
  - simpl. constructor; [|constructor].
    intros _. do 3 eexists. reflexivity.
  - rewrite Hstale; [reflexivity | reflexivity | reflexivity].
Defined.

(** ** Snapshot queries *)

Lemma opt_str_eq_eq (a b : option string) :
  opt_str_eq a b = true <-> a = b.
Proof.
  destruct a as [x|], b as [y|]; simpl; unfold str_eq;
    try (split; [discriminate | discriminate]); try tauto.
  rewrite String.eqb_eq. split; congruence.
Qed.

(** The handler ends in a failure with nothing in it, or in the answer
    computed from the results of one search; it leaves the store alone. *)
Lemma snapshotQuery_shape (getTime : string -> option Z)
  (args : SnapshotQueryParams) (context : InternalToolContext)
  (st : StoreState) :
  let limit := match sqp_limit args with Some l => l | None => 10%nat end in
  (exists msg, snapshotQuery getTime args context st = (query_failure msg, st))
  \/ (exists hits,
        snapshotQuery getTime args context st
        = (query_answer getTime args limit hits, st)).
Proof.
  intros limit. unfold snapshotQuery, try_catch, snapshotQuery_body.
  destruct (vectorStoreManager context) as [vsm|]; [|left; now eexists].
  destruct (embeddingManager context) as [em|]; [|left; now eexists].
  unfold bind at 1. unfold lift at 1.
  destruct (knowledge_store vsm) as [[store|]|msg]; try (left; now eexists).
  destruct (getEmbedder_default em) as [embedder|]; [|left; now eexists].
  destruct (query_text args) as [early|text] eqn:Htext.
  - left. unfold query_text in Htext.
    destruct (sqp_query_type args);
      try destruct (present (sqp_snapshot_id args));
      try destruct (present (sqp_branch args));
      try destruct (present (sqp_commit args));
      inversion Htext; now eexists.
  - unfold bind, lift, store_search.
    destruct (embed embedder text) as [v|msg]; [|left; now eexists].
    destruct (search store st v (limit * 3)) as [hits|msg] eqn:Hs;
      fold limit; rewrite Hs; [|left; now eexists].
    right. now exists hits.
Qed.

Lemma snapshotQuery_run (getTime : string -> option Z)
  (args : SnapshotQueryParams) (context : InternalToolContext)
  (st : StoreState) (store : VectorStore) (embedder : Embedder)
  (text : string) (v : Vector) (hits : list Hit) :
  let limit := match sqp_limit args with Some l => l | None => 10%nat end in
  graph_services context store embedder ->
  query_text args = inr text ->
  embed embedder text = Ok v ->
  search store st v (limit * 3) = Ok hits ->
  snapshotQuery getTime args context st
  = (query_answer getTime args limit hits, st).
Proof.
  intros limit (vsm & Hv & Hs & He) Htext Hemb Hsearch.
  unfold snapshotQuery, try_catch, snapshotQuery_body. rewrite Hv.
  destruct (embeddingManager context) as [em|]; [|discriminate].
  simpl in He. unfold bind at 1. unfold lift at 1. rewrite Hs, He, Htext.
  unfold bind, lift, store_search. rewrite Hemb. fold limit.
  now rewrite Hsearch.
Qed.

Lemma snapshot_filter_sound (args : SnapshotQueryParams) (h : Hit) :
  snapshot_filter args h = true <-> answers_query args (hit_payload h).
Proof.
  unfold snapshot_filter, answers_query, str_eq.
  destruct (String.eqb_spec (memoryType (hit_payload h)) "snapshot")
    as [Em|Em]; cbn [negb].
  2: { split; [discriminate | tauto]. }
  destruct (opt_str_eq (project_path (hit_payload h))
              (Some (sqp_project_path args))) eqn:Ep; cbn [negb].
  2: { split; [discriminate|]. intros (_ & H & _).
       apply opt_str_eq_eq in H. congruence. }
  apply opt_str_eq_eq in Ep.
  destruct (sqp_query_type args).
  - destruct (opt_str_eq _ (sqp_snapshot_id args)) eqn:E; cbn [negb].
    + apply opt_str_eq_eq in E. split; [|reflexivity].
      intros _. repeat split; try assumption; intros; (assumption || discriminate).
    + split; [discriminate|]. intros (_ & _ & H & _).
      specialize (H eq_refl). apply opt_str_eq_eq in H. congruence.
  - destruct (opt_str_eq _ (sqp_branch args)) eqn:E; cbn [negb].
    + apply opt_str_eq_eq in E. split; [|reflexivity].
      intros _. repeat split; try assumption; intros; (assumption || discriminate).
    + split; [discriminate|]. intros (_ & _ & _ & H & _).
      specialize (H eq_refl). apply opt_str_eq_eq in H. congruence.
  - destruct (opt_str_eq _ (sqp_commit args)) eqn:E; cbn [negb].
    + apply opt_str_eq_eq in E. split; [|reflexivity].
      intros _. repeat split; try assumption; intros; (assumption || discriminate).
    + split; [discriminate|]. intros (_ & _ & _ & _ & H).
      specialize (H eq_refl). apply opt_str_eq_eq in H. congruence.
  - split; [|reflexivity].
    intros _. repeat split; try assumption; intros; discriminate.
  - split; [|reflexivity].
    intros _. repeat split; try assumption; intros; discriminate.
Qed.

Lemma query_item_payload (args : SnapshotQueryParams) (h : Hit) :
  item_payload (query_item args h) = hit_payload h.
Proof.
  unfold query_item. destruct (payload_findings (hit_payload h));
    [destruct (negb _)|]; reflexivity.
Qed.

Lemma sort_insert_In {A} (cmp : A -> A -> Z) (x z : A) (l : list A) :
  In z (sort_insert cmp x l) <-> z = x \/ In z l.
Proof.
  induction l as [|y l IH]; simpl.
  - intuition.
  - destruct (cmp y x <=? 0)%Z; simpl; [rewrite IH|]; intuition.
Qed.

Lemma sort_fold_In {A} (cmp : A -> A -> Z) (z : A) (l acc : list A) :
  In z (fold_left (fun acc x => sort_insert cmp x acc) l acc)
  <-> In z acc \/ In z l.
Proof.
  revert acc. induction l as [|x l IH]; intros acc; simpl.
  - intuition.
  - rewrite IH, sort_insert_In. intuition.
Qed.

Lemma Array_sort_In {A} (cmp : A -> A -> Z) (z : A) (l : list A) :
  In z (Array_sort cmp l) <-> In z l.
Proof. unfold Array_sort. rewrite sort_fold_In. simpl. intuition. Qed.

Lemma sort_insert_length {A} (cmp : A -> A -> Z) (x : A) (l : list A) :
  length (sort_insert cmp x l) = S (length l).
Proof.
  induction l as [|y l IH]; simpl; [reflexivity|].
  destruct (cmp y x <=? 0)%Z; simpl; [now rewrite IH | reflexivity].
Qed.

Lemma Array_sort_length {A} (cmp : A -> A -> Z) (l : list A) :
  length (Array_sort cmp l) = length l.
Proof.
  unfold Array_sort.
  assert (H : forall acc,
    length (fold_left (fun acc x => sort_insert cmp x acc) l acc)
    = (length acc + length l)%nat).
  { induction l as [|x l IH]; intros acc; simpl; [lia|].
    rewrite IH, sort_insert_length. lia. }
  now rewrite H.
Qed.

Lemma sort_insert_top {A} (cmp : A -> A -> Z) (t : A -> Z) (x : A)
  (l : list A) :
  (forall a, In a l -> cmp a x = (t x - t a)%Z) ->
  top_first t l -> top_first t (sort_insert cmp x l).
Proof.
  intros Hcmp Htop. destruct l as [|y l]; simpl.
  - intros z [<- | []]. lia.
  - destruct (Z.leb_spec (cmp y x) 0) as [Hle|Hgt]; simpl.
    + rewrite (Hcmp y (or_introl eq_refl)) in Hle.
      intros z [<- | Hz]; [lia|].
      apply sort_insert_In in Hz. destruct Hz as [-> | Hz]; [lia|].
      apply Htop. now right.
    + rewrite (Hcmp y (or_introl eq_refl)) in Hgt.
      intros z [<- | Hz]; [lia|].
      specialize (Htop z Hz). lia.
Qed.

Lemma Array_sort_top {A} (cmp : A -> A -> Z) (t : A -> Z) (l : list A) :
  (forall a b, In a l -> In b l -> cmp a b = (t b - t a)%Z) ->
  top_first t (Array_sort cmp l).
Proof.
  intros Hcmp. unfold Array_sort.
  assert (H : forall acc,
    (forall a b, In a (acc ++ l) -> In b (acc ++ l) ->
                 cmp a b = (t b - t a)%Z) ->
    top_first t acc ->
    top_first t (fold_left (fun acc x => sort_insert cmp x acc) l acc)).
  { clear Hcmp. induction l as [|x l IH]; intros acc Hcmp Htop; simpl.
    - assumption.
    - apply IH.
      + intros a b Ha Hb. apply Hcmp.
        * apply in_app_iff in Ha. apply in_app_iff.
          destruct Ha as [Ha | Ha]; [|right; now right].
          apply sort_insert_In in Ha.
          destruct Ha as [-> | Ha]; [right; now left | now left].
        * apply in_app_iff in Hb. apply in_app_iff.
          destruct Hb as [Hb | Hb]; [|right; now right].
          apply sort_insert_In in Hb.
          destruct Hb as [-> | Hb]; [right; now left | now left].
      + apply sort_insert_top; [|assumption].
        intros a Ha. apply Hcmp; apply in_app_iff;
          [now left | right; now left]. }
  apply H; [assumption | exact I].
Qed.

Lemma firstn_In {A} (n : nat) (l : list A) (x : A) :
  In x (firstn n l) -> In x l.
Proof.
  revert l. induction n as [|n IH]; intros [|y l]; simpl; try tauto.
  intros [-> | Hx]; [now left | right; now apply IH].
Qed.

(** X20.  A snapshot query never writes.  A failure carries no snapshot and
    count 0.  Every snapshot returned is a snapshot record of the requested
    project, with the requested id, branch or commit for the three queries
    that name one; [count] is the number of snapshots returned; it is at
    most [limit] for every query but [provenance_chain], and at most 1 for
    [latest_for_branch].  Unless [include_findings] is set, a returned
    snapshot comes without its findings and with their number. *)
Theorem snapshot_query_sound (getTime : string -> option Z)
  (args : SnapshotQueryParams) (context : InternalToolContext)
  (st : StoreState) :
  let limit := match sqp_limit args with Some l => l | None => 10%nat end in
  let r := snapshotQuery getTime args context st in
  snd r = st
  /\ (sqr_success (fst r) = false ->
      sqr_snapshots (fst r) = [] /\ sqr_count (fst r) = 0%nat)
  /\ Forall (fun i => answers_query args (item_payload i))
            (sqr_snapshots (fst r))
  /\ sqr_count (fst r) = length (sqr_snapshots (fst r))
  /\ (sqp_query_type args <> q_provenance_chain ->
      (sqr_count (fst r) <= limit)%nat)
  /\ (sqp_query_type args = latest_for_branch ->
      (sqr_count (fst r) <= 1)%nat)
  /\ (sqp_include_findings args <> Some true ->
      Forall (fun i => forall s, body (item_payload i) = SnapshotBody s ->
                                 i = Stripped (item_payload i)
                                       (length (findings s)))
             (sqr_snapshots (fst r))).
Proof.
  intros limit r. subst r.
  destruct (snapshotQuery_shape getTime args context st)
    as [(msg & ->) | (hits & ->)]; fold limit.
  { simpl. repeat split; try constructor; try lia; try discriminate. }
  cbn [fst snd]. split; [reflexivity|].
  set (results := map (query_item args) (filter (snapshot_filter args) hits)).
  assert (Hres : Forall (fun i => answers_query args (item_payload i))
                        results).
  { apply Forall_forall. intros i Hi. apply in_map_iff in Hi.
    destruct Hi as (h & <- & Hh). apply filter_In in Hh.
    rewrite query_item_payload. now apply snapshot_filter_sound. }
  assert (Hstrip : sqp_include_findings args <> Some true ->
    Forall (fun i => forall s, body (item_payload i) = SnapshotBody s ->
                               i = Stripped (item_payload i)
                                     (length (findings s)))
           results).
  { intros Hinc. apply Forall_forall. intros i Hi. apply in_map_iff in Hi.
    destruct Hi as (h & <- & _). intros s Hs.
    rewrite query_item_payload in Hs |- *.
    unfold query_item, payload_findings. rewrite Hs.
    destruct (sqp_include_findings args) as [[|]|]; try reflexivity.
    congruence. }
  assert (Hfirst : forall (P : SnapshotItem -> Prop) n l,
            Forall P l -> Forall P (firstn n l)).
  { intros P n l H. apply Forall_forall. intros x Hx.
    apply (proj1 (Forall_forall P l) H). now apply firstn_In in Hx. }
  assert (Hsorted : forall (P : SnapshotItem -> Prop),
            Forall P results ->
            Forall P (Array_sort (newest_first getTime) results)).
  { intros P H. apply Forall_forall. intros x Hx.
    apply Array_sort_In in Hx. revert x Hx. now apply Forall_forall. }
  unfold query_answer. fold results.
  destruct (sqp_query_type args) eqn:Ety; cbn [is_provenance_query
    is_latest_query sqr_success sqr_snapshots sqr_count].
  1,3,4:
    (split; [discriminate|]; split; [now apply Hfirst|];
     split; [rewrite length_firstn; lia|];
     split; [intros _; lia|];
     split; [discriminate|];
     intros Hinc; apply Hfirst; now apply Hstrip).
  - split; [discriminate|].
    split; [apply Hfirst, Hfirst, Hsorted, Hres|].
    split; [rewrite !length_firstn; lia|].
    split; [intros _; lia|].
    split; [intros _; rewrite length_firstn; lia|].
    intros Hinc. apply Hfirst, Hfirst, Hsorted. now apply Hstrip.
  - destruct results as [|i0 rest] eqn:Er;
      cbn [sqr_success sqr_snapshots sqr_count].
    + split; [discriminate|]. split; [rewrite firstn_nil; constructor|].
      split; [now rewrite firstn_nil|].
      split; [intros H; now contradiction H|].
      split; [discriminate|]. intros _. rewrite firstn_nil. constructor.
    + split; [discriminate|].
      split; [apply Hfirst, Hres|].
      split; [reflexivity|].
      split; [intros H; now contradiction H|].
      split; [discriminate|].
      intros Hinc. apply Hfirst. now apply Hstrip.
Qed.

Lemma snapshot_query_sound_witness :
  let r := fst (snapshotQuery stamp_number
                  (query_args by_id (Some "snap-later") None) full_context
                  two_snapshots) in
  sqr_count r = 1%nat
  /\ sqr_snapshots r
     = [Stripped (snapshot_payload later_snapshot
                    (buildSnapshotSearchText later_snapshot)
                    1699999999500321) 2].
Proof.
  intros r.
  destruct (snapshot_query_sound stamp_number
              (query_args by_id (Some "snap-later") None) full_context
              two_snapshots) as (_ & _ & _ & Hcount & _ & _ & Hstrip).
  fold r in Hcount, Hstrip.
  assert (Hone : exists i, sqr_snapshots r = [i]
                           /\ item_payload i
                              = snapshot_payload later_snapshot
                                  (buildSnapshotSearchText later_snapshot)
                                  1699999999500321).
  { eexists. split; reflexivity. }
  destruct Hone as (i & Hi & Hp).
  split; [now rewrite Hcount, Hi|].
  rewrite Hi in Hstrip |- *.
  assert (Hinc : sqp_include_findings
                   (query_args by_id (Some "snap-later") None) <> Some true)
    by discriminate.
  pose proof (Forall_inv (Hstrip Hinc) later_snapshot) as Hs.
  rewrite Hp in Hs. rewrite (Hs eq_refl). reflexivity.
Defined.

Lemma snapshot_filter_dates (args : SnapshotQueryParams)
  (s e : option string) (h : Hit) :
  snapshot_filter (with_dates args s e) h = snapshot_filter args h.
Proof. reflexivity. Qed.

(** The filter of the queries that name no id, branch or commit. *)
Lemma snapshot_filter_plain (args : SnapshotQueryParams) (h : Hit) :
  sqp_query_type args = by_date_range
  \/ sqp_query_type args = q_provenance_chain ->
  snapshot_filter args h
  = (str_eq (memoryType (hit_payload h)) "snapshot"
     && opt_str_eq (project_path (hit_payload h))
          (Some (sqp_project_path args)))%bool.
Proof.
  intros [Hq | Hq]; unfold snapshot_filter; rewrite Hq;
    destruct (str_eq _ "snapshot"); cbn [negb andb]; try reflexivity;
    now destruct (opt_str_eq _ _).
Qed.

(** X21.  No snapshot query reads [start_date] or [end_date]: the answer to
    a query is the answer to the same query with any other dates.  A
    [by_date_range] query with its services returns the first [limit]
    snapshot records of the project among the [3 * limit] search results,
    in the order of the search, whenever they were created. *)
Theorem date_range_ignores_dates (getTime : string -> option Z)
  (args : SnapshotQueryParams) (context : InternalToolContext)
  (st : StoreState) :
  let limit := match sqp_limit args with Some l => l | None => 10%nat end in
  (forall s e,
     snapshotQuery getTime (with_dates args s e) context st
     = snapshotQuery getTime args context st)
  /\ (forall store embedder v hits,
        sqp_query_type args = by_date_range ->
        graph_services context store embedder ->
        embed embedder
          ("project:" +++ sqp_project_path args +++ " analysis snapshot")
        = Ok v ->
        search store st v (limit * 3) = Ok hits ->
        sqr_success (fst (snapshotQuery getTime args context st)) = true
        /\ sqr_snapshots (fst (snapshotQuery getTime args context st))
           = firstn limit
               (map (query_item args)
                  (filter (fun h =>
                             (str_eq (memoryType (hit_payload h)) "snapshot"
                              && opt_str_eq (project_path (hit_payload h))
                                   (Some (sqp_project_path args)))%bool)
                          hits))).
Proof.
  intros limit. split.
  - intros s e. reflexivity.
  - intros store embedder v hits Hq Hsvc Hemb Hsearch.
    assert (Htext : query_text args
                    = inr (("project:" +++ sqp_project_path args)
                           +++ " analysis snapshot")).
    { unfold query_text. now rewrite Hq. }
    assert (Hemb' : embed embedder
                      (("project:" +++ sqp_project_path args)
                       +++ " analysis snapshot") = Ok v).
    { exact Hemb. }
    rewrite (snapshotQuery_run getTime args context st store embedder _ v
               hits Hsvc Htext Hemb' Hsearch).
    cbn [fst]. unfold query_answer. rewrite Hq.
    cbn [is_provenance_query is_latest_query sqr_success sqr_snapshots].
    split; [reflexivity|]. fold limit. f_equal. f_equal.
    apply filter_ext. intros h. apply snapshot_filter_plain. now left.
Qed.

Lemma date_range_ignores_dates_witness :
  let args := with_dates (query_args by_date_range None None)
                (Some "2026-11-01") (Some "2026-11-01") in
  map (fun i => payload_created_at (item_payload i))
      (sqr_snapshots (fst (snapshotQuery stamp_number args full_context
                             two_snapshots)))
  = [Some "2026-10-31T08:00:00.000Z"; Some "2026-11-01T09:30:00.000Z"].
Proof.
  intros args.
  destruct (date_range_ignores_dates stamp_number args full_context
              two_snapshots) as [_ Hrun].
  destruct (Hrun scan_store fake_embedder []
              (match search scan_store two_snapshots [] 30 with
               | Ok l => l | Throw _ => [] end)
              eq_refl graph_services_full eq_refl eq_refl) as [_ Hsnaps].
  exact (eq_trans
           (f_equal (map (fun i => payload_created_at (item_payload i)))
              Hsnaps) eq_refl).
Defined.

(** X22.  A [provenance_chain] query does not look for the snapshot it
    names: its filter keeps every snapshot record of the project, and the
    answer is the stored chain of the first of them among the search
    results, with that one record and count 1, whatever the id of that
    record is.  When the results hold no snapshot record of the project the
    query succeeds with no chain, no snapshot and count 0. *)
Theorem provenance_query_ignores_id (getTime : string -> option Z)
  (args : SnapshotQueryParams) (context : InternalToolContext)
  (st : StoreState) (store : VectorStore) (embedder : Embedder)
  (id : string) (v : Vector) (hits : list Hit) :
  let limit := match sqp_limit args with Some l => l | None => 10%nat end in
  let of_project h :=
    (str_eq (memoryType (hit_payload h)) "snapshot"
     && opt_str_eq (project_path (hit_payload h))
          (Some (sqp_project_path args)))%bool in
  let r := fst (snapshotQuery getTime args context st) in
  sqp_query_type args = q_provenance_chain ->
  present (sqp_snapshot_id args) = Some id ->
  graph_services context store embedder ->
  embed embedder id = Ok v ->
  search store st v (limit * 3) = Ok hits ->
  (forall h, find of_project hits = Some h ->
     sqr_success r = true
     /\ sqr_provenance_chain r = Some (item_chain (query_item args h))
     /\ sqr_snapshots r = [query_item args h]
     /\ sqr_count r = 1%nat
     /\ forall s, body (hit_payload h) = SnapshotBody s ->
          sqr_provenance_chain r = Some (map Some (provenance_chain s)))
  /\ (find of_project hits = None ->
      sqr_success r = true /\ sqr_provenance_chain r = None
      /\ sqr_snapshots r = [] /\ sqr_count r = 0%nat).
Proof.
  intros limit of_project r Hq Hid Hsvc Hemb Hsearch. subst r.
  assert (Htext : query_text args = inr id).
  { unfold query_text. now rewrite Hq, Hid. }
  rewrite (snapshotQuery_run getTime args context st store embedder _ v
             hits Hsvc Htext Hemb Hsearch).
  cbn [fst]. unfold query_answer. rewrite Hq. cbn [is_provenance_query].
  assert (Hfilter : filter (snapshot_filter args) hits
                    = filter of_project hits).
  { apply filter_ext. intros h. apply snapshot_filter_plain. now right. }
  rewrite Hfilter.
  assert (Hfind : forall l,
    match find of_project l with
    | Some h => exists rest, filter of_project l = h :: rest
    | None => filter of_project l = []
    end).
  { induction l as [|h l IH]; simpl; [reflexivity|].
    destruct (of_project h); [now eexists | exact IH]. }
  specialize (Hfind hits). split.
  - intros h Hh. rewrite Hh in Hfind. destruct Hfind as (rest & ->).
    cbn [map sqr_success sqr_provenance_chain sqr_snapshots sqr_count
         firstn].
    repeat split.
    intros s Hs. unfold item_chain. rewrite query_item_payload.
    unfold payload_provenance_chain. now rewrite Hs.
  - intros Hnone. rewrite Hnone in Hfind. rewrite Hfind.
    cbn [map is_latest_query sqr_success sqr_provenance_chain sqr_snapshots
         sqr_count length]. rewrite firstn_nil. now repeat split.
Qed.

Lemma provenance_query_ignores_id_witness :
  sqr_provenance_chain
    (fst (snapshotQuery stamp_number
            (query_args q_provenance_chain (Some "snap-later") None)
            full_context two_snapshots))
  = Some [Some "snap-root"; Some "snap-base"].
Proof.
  destruct (provenance_query_ignores_id stamp_number
              (query_args q_provenance_chain (Some "snap-later") None)
              full_context two_snapshots scan_store fake_embedder
              "snap-later" []
              (match search scan_store two_snapshots [] 30 with
               | Ok l => l | Throw _ => [] end)
              eq_refl eq_refl graph_services_full eq_refl eq_refl)
    as [Hfound _].
  destruct (Hfound {| hit_score := 1;
                      hit_payload :=
                        snapshot_payload baseline_snapshot
                          (buildSnapshotSearchText baseline_snapshot)
                          1699999999000123 |} eq_refl)
    as (_ & _ & _ & _ & Hchain).
  exact (Hchain baseline_snapshot eq_refl).
Defined.

(** X23.  A [latest_for_branch] query with its services, dates that all
    parse and a limit of at least 1 returns, when the search results hold a
    snapshot record of the project and the branch, exactly one such record,
    and none among those results was created later; it then reports 1 as
    the number available, however many there were.  Later snapshots of the
    branch outside the [3 * limit] search results are not considered. *)
Theorem latest_for_branch_newest (getTime : string -> option Z)
  (args : SnapshotQueryParams) (context : InternalToolContext)
  (st : StoreState) (store : VectorStore) (embedder : Embedder)
  (branch : string) (v : Vector) (hits : list Hit) :
  let limit := match sqp_limit args with Some l => l | None => 10%nat end in
  let r := fst (snapshotQuery getTime args context st) in
  let matching := filter (snapshot_filter args) hits in
  sqp_query_type args = latest_for_branch ->
  present (sqp_branch args) = Some branch ->
  graph_services context store embedder ->
  embed embedder
    ("branch:" +++ branch +++ " " +++ "project:" +++ sqp_project_path args)
  = Ok v ->
  search store st v (limit * 3) = Ok hits ->
  Forall (fun h => item_time getTime (query_item args h) <> None) matching ->
  (1 <= limit)%nat -> matching <> [] ->
  exists h t,
    In h matching
    /\ sqr_snapshots r = [query_item args h]
    /\ sqr_count r = 1%nat
    /\ sqr_total_available r = Some 1%nat
    /\ item_time getTime (query_item args h) = Some t
    /\ forall h' t', In h' matching ->
         item_time getTime (query_item args h') = Some t' -> (t' <= t)%Z.
Proof.
  intros limit r matching Hq Hb Hsvc Hemb Hsearch Htimes Hlimit Hne.
  subst r.
  assert (Htext : query_text args
                  = inr ("branch:" +++ branch +++ " "
                         +++ "project:" +++ sqp_project_path args)).
  { unfold query_text. now rewrite Hq, Hb. }
  rewrite (snapshotQuery_run getTime args context st store embedder _ v
             hits Hsvc Htext Hemb Hsearch).
  cbn [fst]. unfold query_answer. rewrite Hq.
  cbn [is_provenance_query is_latest_query]. fold matching.
  set (results := map (query_item args) matching).
  set (t := fun i => match item_time getTime i with
                     | Some z => z | None => 0%Z end).
  assert (Hsome : forall i, In i results -> item_time getTime i = Some (t i)).
  { intros i Hi. apply in_map_iff in Hi. destruct Hi as (h & <- & Hh).
    unfold t. pose proof (proj1 (Forall_forall _ _) Htimes h Hh) as Hn.
    cbv beta in Hn.
    destruct (item_time getTime (query_item args h)); [reflexivity|].
    now contradiction Hn. }
  assert (Hcmp : forall a b, In a results -> In b results ->
            newest_first getTime a b = (t b - t a)%Z).
  { intros a b Ha Hb'. unfold newest_first.
    now rewrite (Hsome a Ha), (Hsome b Hb'). }
  pose proof (Array_sort_top (newest_first getTime) t results Hcmp) as Htop.
  pose proof (Array_sort_length (newest_first getTime) results) as Hlen.
  destruct (Array_sort (newest_first getTime) results) as [|i0 sorted]
    eqn:Hsorted.
  { exfalso. simpl in Hlen. unfold results in Hlen.
    rewrite length_map in Hlen. destruct matching; [now apply Hne|].
    discriminate. }
  assert (Hin0 : In i0 results).
  { apply (Array_sort_In (newest_first getTime)). rewrite Hsorted.
    now left. }
  pose proof Hin0 as Hin0'. apply in_map_iff in Hin0'.
  destruct Hin0' as (h & Hh & Hhin).
  exists h, (t i0). rewrite Hh.
  cbn [firstn length sqr_snapshots sqr_count sqr_total_available].
  fold limit.
  assert (Hl : exists n, limit = S n).
  { destruct limit as [|n]; [lia | now exists n]. }
  destruct Hl as [n ->]. cbn [firstn Nat.min]. rewrite firstn_nil.
  split; [assumption|]. split; [reflexivity|]. split; [reflexivity|].
  split; [reflexivity|]. split; [now apply Hsome|].
  intros h' t' Hh' Ht'.
  assert (Hin' : In (query_item args h') results).
  { apply in_map_iff. now exists h'. }
  rewrite (Hsome _ Hin') in Ht'. inversion Ht'; subst t'.
  apply Htop. apply (Array_sort_In (newest_first getTime)) in Hin'.
  now rewrite Hsorted in Hin'.
Qed.

Lemma latest_for_branch_newest_witness :
  map (fun i => payload_snapshot_id (item_payload i))
      (sqr_snapshots
         (fst (snapshotQuery stamp_number
                 (query_args latest_for_branch None (Some "main"))
                 full_context two_snapshots)))
  = [Some "snap-later"].
Proof.
  destruct (latest_for_branch_newest stamp_number
              (query_args latest_for_branch None (Some "main"))
              full_context two_snapshots scan_store fake_embedder "main" []
              (match search scan_store two_snapshots [] 30 with
               | Ok l => l | Throw _ => [] end)
              eq_refl eq_refl graph_services_full eq_refl eq_refl)
    as (h & t & Hin & Hsnaps & _ & _ & Ht & Hmax).
  - simpl. repeat constructor; discriminate.
  - simpl. lia.
  - discriminate.
  - rewrite Hsnaps. simpl in Hin.
    destruct Hin as [<- | [<- | []]].
    + exfalso. simpl in Ht. inversion Ht; subst t.
      specialize (Hmax {| hit_score := 1;
                          hit_payload :=
                            snapshot_payload later_snapshot
                              (buildSnapshotSearchText later_snapshot)
                              1699999999500321 |} 1101%Z
                    (or_intror (or_introl eq_refl)) eq_refl).
      lia.
    + reflexivity.
Defined.

(** ** Delta computation *)

Lemma deltaCompute_run (args : DeltaComputeParams)
  (context : InternalToolContext) (st : StoreState) (store : VectorStore)
  (embedder : Embedder) (v : Vector) (hits : list Hit) :
  graph_services context store embedder ->
  embed embedder (dcp_baseline_snapshot_id args) = Ok v ->
  search store st v 10 = Ok hits ->
  deltaCompute args context st
  = (if existsb (is_baseline (dcp_baseline_snapshot_id args)) hits
     then delta_done (placeholder_manifest args)
     else DeltaFailure ("Baseline snapshot not found: "
                        +++ dcp_baseline_snapshot_id args),
     st).
Proof.
  intros (vsm & Hv & Hs & He) Hemb Hsearch.
  unfold deltaCompute, try_catch, deltaCompute_body. rewrite Hv, He.
  destruct (embeddingManager context) as [em|]; [|discriminate].
  unfold bind at 1. unfold lift at 1. rewrite Hs.
  unfold bind, lift, store_search. rewrite Hemb, Hsearch.
  assert (Hex : forall l,
    existsb (is_baseline (dcp_baseline_snapshot_id args)) l
    = match filter (is_baseline (dcp_baseline_snapshot_id args)) l with
      | [] => false | _ :: _ => true end).
  { induction l as [|h l IH]; simpl; [reflexivity|].
    now destruct (is_baseline _ h). }
  rewrite Hex. now destruct (filter _ hits).
Qed.

Lemma deltaCompute_shape (args : DeltaComputeParams)
  (context : InternalToolContext) (st : StoreState) :
  (exists msg, deltaCompute args context st = (DeltaFailure msg, st))
  \/ deltaCompute args context st
     = (delta_done (placeholder_manifest args), st).
Proof.
  unfold deltaCompute, try_catch, deltaCompute_body.
  destruct (vectorStoreManager context) as [vsm|]; [|now right].
  destruct (embeddingManager context) as [em|]; [|now right].
  destruct (default_embedder (Some em)) as [embedder|]; [|now right].
  unfold bind at 1. unfold lift at 1.
  destruct (knowledge_store vsm) as [[store|]|msg];
    [| now right | left; now eexists].
  unfold bind, lift, store_search.
  destruct (embed embedder _) as [v|msg]; [|left; now eexists].
  destruct (search store st v 10) as [hits|msg]; [|left; now eexists].
  destruct (filter _ hits); [left; now eexists | now right].
Qed.

(** X24.  A delta computation never writes, and what it computes is a
    placeholder: every successful answer carries the baseline id and the
    target commit of the call, HEAD by default, no changed file, no
    affected chunk, no cascade chain, the recommendation NO_CHANGES and
    savings of 100%.  Without the store manager or the embedder it succeeds
    without looking for the baseline.  With its services it succeeds
    exactly when one of the 10 search results is a snapshot record with
    the baseline id, of whatever project, and otherwise fails with
    'Baseline snapshot not found'. *)
Theorem delta_compute_placeholder (args : DeltaComputeParams)
  (context : InternalToolContext) (st : StoreState) :
  let r := deltaCompute args context st in
  snd r = st
  /\ (forall m rec chunks chains savings,
        fst r = DeltaComputed m rec chunks chains savings ->
        dm_baseline_snapshot_id m = dcp_baseline_snapshot_id args
        /\ dm_target_commit m
           = match dcp_target_commit args with
             | Some c => c | None => "HEAD" end
        /\ dm_changed_files m = [] /\ dm_affected_chunks m = []
        /\ dm_cascade_affected m = [] /\ dm_semantic_affected m = []
        /\ dm_recommendation m = REC_NO_CHANGES
        /\ rec = REC_NO_CHANGES /\ chunks = [] /\ chains = []
        /\ savings = "100%")
  /\ (vectorStoreManager context = None
      \/ default_embedder (embeddingManager context) = None ->
      fst r = delta_done (placeholder_manifest args))
  /\ (forall store embedder v hits,
        graph_services context store embedder ->
        embed embedder (dcp_baseline_snapshot_id args) = Ok v ->
        search store st v 10 = Ok hits ->
        ((exists h, In h hits
                    /\ memoryType (hit_payload h) = "snapshot"
                    /\ payload_snapshot_id (hit_payload h)
                       = Some (dcp_baseline_snapshot_id args)) ->
         fst r = delta_done (placeholder_manifest args))
        /\ ((forall h, In h hits ->
               memoryType (hit_payload h) = "snapshot" ->
               payload_snapshot_id (hit_payload h)
               <> Some (dcp_baseline_snapshot_id args)) ->
            fst r = DeltaFailure ("Baseline snapshot not found: "
                                  +++ dcp_baseline_snapshot_id args))).
Proof.
  intros r. subst r. split; [|split; [|split]].
  - destruct (deltaCompute_shape args context st) as [(msg & ->) | ->];
      reflexivity.
  - intros m rec chunks chains savings.
    destruct (deltaCompute_shape args context st) as [(msg & ->) | ->];
      [discriminate|].
    cbn [fst]. unfold delta_done. intros H. inversion H; subst.
    now repeat split.
  - unfold deltaCompute, try_catch, deltaCompute_body.
    intros [-> | ->]; [reflexivity|].
    destruct (vectorStoreManager context), (embeddingManager context);
      reflexivity.
  - intros store embedder v hits Hsvc Hemb Hsearch.
    rewrite (deltaCompute_run args context st store embedder v hits
               Hsvc Hemb Hsearch). cbn [fst].
    split.
    + intros (h & Hin & Hm & Hid).
      assert (Hex : existsb (is_baseline (dcp_baseline_snapshot_id args))
                      hits = true).
      { apply existsb_exists. exists h. split; [assumption|].
        unfold is_baseline, str_eq. rewrite Hm, Hid. simpl.
        now rewrite String.eqb_refl. }
      now rewrite Hex.
    + intros Hnone.
      destruct (existsb (is_baseline (dcp_baseline_snapshot_id args)) hits)
        eqn:Hex; [|reflexivity].
      apply existsb_exists in Hex. destruct Hex as (h & Hin & Hb).
      unfold is_baseline in Hb. apply andb_true_iff in Hb.
      destruct Hb as [Hm Hid]. apply String.eqb_eq in Hm.
      apply opt_str_eq_eq in Hid. now destruct (Hnone h Hin Hm).
Qed.

Lemma delta_compute_placeholder_witness :
  fst (deltaCompute (delta_args "snap-gone") full_context baseline_store)
  = DeltaFailure "Baseline snapshot not found: snap-gone"
  /\ fst (deltaCompute (delta_args "snap-gone") no_services baseline_store)
     = delta_done (placeholder_manifest (delta_args "snap-gone"))
  /\ fst (deltaCompute (delta_args "snap-base") full_context baseline_store)
     = delta_done (placeholder_manifest (delta_args "snap-base")).
Proof.
  split; [|split].
  - destruct (delta_compute_placeholder (delta_args "snap-gone") full_context
                baseline_store) as (_ & _ & _ & Hrun).
    destruct (Hrun scan_store fake_embedder []
                (match search scan_store baseline_store [] 10 with
                 | Ok l => l | Throw _ => [] end)
                graph_services_full eq_refl eq_refl) as [_ Hfail].
    apply Hfail. simpl. intros h [<- | []] _. discriminate.
  - destruct (delta_compute_placeholder (delta_args "snap-gone") no_services
                baseline_store) as (_ & _ & Hnone & _).
    apply Hnone. now left.
  - destruct (delta_compute_placeholder (delta_args "snap-base") full_context
                baseline_store) as (_ & _ & _ & Hrun).
    destruct (Hrun scan_store fake_embedder []
                (match search scan_store baseline_store [] 10 with
                 | Ok l => l | Throw _ => [] end)
                graph_services_full eq_refl eq_refl) as [Hok _].
    apply Hok. eexists. split; [now left|]. split; reflexivity.
Defined.



(** ** Sessions *)














(** ** A created snapshot and the query for it *)

Lemma snapshotCreate_ready (args : SnapshotCreateParams)
  (context : InternalToolContext) (rd : SnapshotReadings) (st : StoreState)
  (store : VectorStore) (embedder : Embedder) (v : Vector) :
  let created := create_snapshot_record args rd in
  let searchText := buildSnapshotSearchText created in
  let vectorId :=
    generateNumericVectorId (rd_vector_now rd) (rd_vector_random rd) 0 in
  graph_services context store embedder ->
  embed embedder searchText = Ok v ->
  scr_snapshot_id (fst (snapshotCreate args context rd st))
  = Some (snapshot_id created)
  /\ snd (snapshotCreate args context rd st)
     = kv_insert v vectorId (snapshot_payload created searchText vectorId) st.
Proof.
  intros created searchText vectorId (vsm & Hv & Hs & He) Hemb.
  unfold snapshotCreate, try_catch, snapshotCreate_body. rewrite Hv.
  destruct (embeddingManager context) as [em|]; [|discriminate].
  simpl in He. unfold bind at 1. unfold lift at 1. rewrite Hs, He.
  unfold bind, lift, store_insert. fold created. fold searchText.
  rewrite Hemb. now split.
Qed.

(** X27.  What a snapshot create stores is what a [by_id] query looks for:
    with the services there, the record inserted by the create passes the
    filter of the query for the returned snapshot id and the project of the
    create; so when the search of the query on the new store has that
    record as its first match, the query returns it first, without its
    findings and with their number, as long as the limit is at least 1 and
    [include_findings] is not set. *)
Theorem created_snapshot_found (getTime : string -> option Z)
  (cargs : SnapshotCreateParams) (qargs : SnapshotQueryParams)
  (context : InternalToolContext) (rd : SnapshotReadings) (st : StoreState)
  (store : VectorStore) (embedder : Embedder) (v v' : Vector)
  (hits : list Hit) (h : Hit) :
  let created := create_snapshot_record cargs rd in
  let searchText := buildSnapshotSearchText created in
  let vectorId :=
    generateNumericVectorId (rd_vector_now rd) (rd_vector_random rd) 0 in
  let payload := snapshot_payload created searchText vectorId in
  let c := snapshotCreate cargs context rd st in
  let limit := match sqp_limit qargs with Some l => l | None => 10%nat end in
  graph_services context store embedder ->
  embed embedder searchText = Ok v ->
  sqp_query_type qargs = by_id ->
  sqp_project_path qargs = scp_project_path cargs ->
  sqp_snapshot_id qargs = scr_snapshot_id (fst c) ->
  sqp_include_findings qargs <> Some true ->
  (1 <= limit)%nat ->
  embed embedder (snapshot_id created) = Ok v' ->
  search store (snd c) v' (limit * 3) = Ok hits ->
  find (snapshot_filter qargs) hits = Some h ->
  hit_payload h = payload ->
  snd c = kv_insert v vectorId payload st
  /\ (forall score,
        snapshot_filter qargs {| hit_score := score; hit_payload := payload |}
        = true)
  /\ exists rest,
       sqr_snapshots (fst (snapshotQuery getTime qargs context (snd c)))
       = Stripped payload (length (scp_findings cargs)) :: rest.
Proof.
  intros created searchText vectorId payload c limit Hsvc Hemb Hq Hproj Hid
    Hinc Hlimit Hemb' Hsearch Hfind Hh.
  destruct (snapshotCreate_ready cargs context rd st store embedder v
              Hsvc Hemb) as [Hcid Hst].
  fold created searchText vectorId payload c in Hcid, Hst.
  rewrite Hcid in Hid.
  split; [exact Hst|]. split.
  - intros score. apply snapshot_filter_sound. unfold answers_query.
    cbn [hit_payload]. unfold payload at 1 2.
    cbn [snapshot_payload memoryType project_path].
    split; [reflexivity|]. split; [now rewrite Hproj|].
    rewrite Hq. split; [intros _; now rewrite Hid|].
    split; discriminate.
  - assert (Htext : query_text qargs = inr (snapshot_id created)).
    { unfold query_text. rewrite Hq, Hid. reflexivity. }
    rewrite (snapshotQuery_run getTime qargs context (snd c) store embedder
               _ v' hits Hsvc Htext Hemb' Hsearch).
    cbn [fst]. unfold query_answer. rewrite Hq.
    cbn [is_provenance_query is_latest_query sqr_snapshots].
    assert (Hfilter : exists rest,
              filter (snapshot_filter qargs) hits = h :: rest).
    { clear - Hfind. induction hits as [|x hits IH]; simpl in *;
        [discriminate|].
      destruct (snapshot_filter qargs x).
      - inversion Hfind; subst. now eexists.
      - now apply IH. }
    destruct Hfilter as (rest & ->). cbn [map]. fold limit.
    assert (Hl : exists n, limit = S n).
    { destruct limit as [|n]; [lia | now exists n]. }
    destruct Hl as [n ->]. cbn [firstn].
    exists (firstn n (map (query_item qargs) rest)). f_equal.
    unfold query_item. rewrite Hh.
    unfold payload_findings, payload at 1.
    cbn [snapshot_payload body].
    destruct (sqp_include_findings qargs) as [[|]|]; try reflexivity.
    congruence.
Qed.

Lemma created_snapshot_found_witness :
  let c := snapshotCreate create_on_baseline full_context sample_readings
             baseline_store in
  let q := query_args by_id (scr_snapshot_id (fst c)) None in
  hd_error
    (map (fun i => payload_snapshot_id (item_payload i))
       (sqr_snapshots
          (fst (snapshotQuery stamp_number q full_context (snd c)))))
  = Some (scr_snapshot_id (fst c)).
Proof.
  intros c q.
  assert (Hinc : sqp_include_findings q <> Some true) by discriminate.
  assert (Hlimit : (1 <= 10)%nat) by lia.
  destruct (created_snapshot_found stamp_number create_on_baseline q
              full_context sample_readings baseline_store scan_store
              fake_embedder [] []
              (match search scan_store (snd c) [] 30 with
               | Ok l => l | Throw _ => [] end)
              {| hit_score := 1;
                 hit_payload :=
                   snapshot_payload
                     (create_snapshot_record create_on_baseline
                        sample_readings)
                     (buildSnapshotSearchText
                        (create_snapshot_record create_on_baseline
                           sample_readings))
                     1700000001401417 |}
              graph_services_full eq_refl eq_refl eq_refl eq_refl Hinc Hlimit
              eq_refl eq_refl eq_refl eq_refl)
    as (_ & _ & rest & Hsnaps).
  fold c in Hsnaps. rewrite Hsnaps. reflexivity.
Defined.
